(** * Speech-prompt builder: request shaping and response normalisation

    A shallow embedding of [services/geminiService.ts] (the request builder
    [generatePrompt], its response handling, the suggestion helpers), of the
    form handlers of the [App] component ([handleSubmit],
    [handleRemoveCharacter], [prettyErrorMessage] and the others) and of the
    output viewer of its later version, with the ECMAScript built-ins they
    call ([String.prototype.trim], [parseInt], [JSON.parse], ToString and
    template-literal interpolation). *)

From Stdlib Require Import List ZArith NArith Bool Lia.
From Stdlib Require Import Strings.String Strings.Ascii DecimalString.
From Stdlib Require DecimalFacts DecimalPos.
Import ListNotations.

Set Warnings "-register-all".
Local Open Scope Z_scope.
Local Open Scope list_scope.

(* ================================================================== *)
(** ** ECMAScript strings *)

(** A string value is the sequence of its UTF-16 code units. *)
Module JsString.

Definition char := N.
Definition jsstring := list char.

(** Code units of an ASCII literal. *)
Definition lit (s : string) : jsstring :=
  map N_of_ascii (list_ascii_of_string s).
Arguments lit s%_string.

(** [a === b] on strings. *)
Fixpoint eqb (a b : jsstring) : bool :=
  match a, b with
  | [], [] => true
  | x :: a', y :: b' => N.eqb x y && eqb a' b'
  | _, _ => false
  end.

(** [!s] on a string: only the empty string is falsy. *)
Definition falsy (s : jsstring) : bool :=
  match s with [] => true | _ :: _ => false end.

(** [a || b] on strings. *)
Definition or_else (a b : jsstring) : jsstring :=
  if falsy a then b else a.

(** WhiteSpace and LineTerminator code points (ECMA-262, 12.2 and 12.3),
    the characters [trim] and [parseInt] strip. *)
Definition isWhiteSpace (c : char) : bool :=
  existsb (N.eqb c)
    [9; 10; 11; 12; 13; 32; 160; 5760; 8232; 8233; 8239; 8287; 12288; 65279]%N
  || ((8192 <=? c) && (c <=? 8202))%N.

Fixpoint trimStart (s : jsstring) : jsstring :=
  match s with
  | c :: rest => if isWhiteSpace c then trimStart rest else s
  | [] => []
  end.

Definition trimEnd (s : jsstring) : jsstring := rev (trimStart (rev s)).

(** [String.prototype.trim]. *)
Definition trim (s : jsstring) : jsstring := trimEnd (trimStart s).

(** [s.startsWith(p)]. *)
Fixpoint startsWith (s p : jsstring) {struct p} : bool :=
  match p, s with
  | [], _ => true
  | _ :: _, [] => false
  | x :: p', y :: s' => N.eqb x y && startsWith s' p'
  end.

(** [s.substring(n)] for [0 <= n]. *)
Definition substring (s : jsstring) (n : nat) : jsstring := skipn n s.

(** [parts.join(sep)]. *)
Fixpoint join (sep : jsstring) (parts : list jsstring) : jsstring :=
  match parts with
  | [] => []
  | [p] => p
  | p :: rest => p ++ sep ++ join sep rest
  end.

(** Decimal digits of a natural number. *)
Definition decimal (n : N) : jsstring :=
  lit (NilZero.string_of_uint (N.to_uint n)).

Definition isDigit (c : char) : bool := ((48 <=? c) && (c <=? 57))%N.

(** [t] occurs in [s] as a contiguous run of code units. *)
Definition Contains (s t : jsstring) : Prop :=
  exists pre post, s = pre ++ t ++ post.

End JsString.
Import JsString.

(* ================================================================== *)
(** ** ECMAScript numbers *)

(** The Number type: IEEE 754 binary64.  [Finite neg m e] is the value
    [(-1)^neg * m * 2^e] with [0 <= m < 2^53] and [-1074 <= e <= 971]. *)
Module Number.

Inductive t :=
| NaN
| Infinity (neg : bool)
| Finite (neg : bool) (m e : Z).

(** [floor (log2 (num / den))] for positive [num], [den]. *)
Definition floor_log2 (num den : Z) : Z :=
  let d := Z.log2 num - Z.log2 den in
  let above :=
    if 0 <=? d then den * 2 ^ d <=? num else den <=? num * 2 ^ (- d) in
  if above then d else d - 1.

(** Nearest integer to [n / d], ties to even. *)
Definition round_half_even (n d : Z) : Z :=
  let q := n / d in
  match 2 * (n mod d) ?= d with
  | Lt => q
  | Gt => q + 1
  | Eq => if Z.even q then q else q + 1
  end.

(** The Number value of the non-negative rational [num / den]
    (round to nearest, ties to even, overflow to infinity). *)
Definition of_ratio (neg : bool) (num den : Z) : t :=
  if num =? 0 then Finite neg 0 0 else
  let e := Z.max (floor_log2 num den - 52) (-1074) in
  let m := if 0 <=? e then round_half_even num (den * 2 ^ e)
           else round_half_even (num * 2 ^ (- e)) den in
  let e' := if m =? 2 ^ 53 then e + 1 else e in
  let m' := if m =? 2 ^ 53 then 2 ^ 52 else m in
  if 971 <? e' then Infinity neg
  else if m' =? 0 then Finite neg 0 0
  else Finite neg m' e'.

(** The Number value of [m * 10^e10]. *)
Definition of_decimal (neg : bool) (m e10 : Z) : t :=
  if 0 <=? e10 then of_ratio neg (m * 10 ^ e10) 1
  else of_ratio neg m (10 ^ (- e10)).

Definition of_Z (z : Z) : t := of_ratio (z <? 0) (Z.abs z) 1.

Definition isNaN (x : t) : bool :=
  match x with NaN => true | _ => false end.

Definition isZero (x : t) : bool :=
  match x with Finite _ m _ => m =? 0 | _ => false end.

(** [x > 0]. *)
Definition positive (x : t) : bool :=
  match x with
  | NaN => false
  | Infinity neg => negb neg
  | Finite neg m _ => negb neg && (0 <? m)
  end.

(** [!x]: zero and NaN are falsy. *)
Definition falsy (x : t) : bool := isNaN x || isZero x.

(** Same mathematical value (finite values only). *)
Definition same_value (x : t) (m e : Z) : bool :=
  match x with
  | Finite _ m' e' =>
      if e <=? e' then m =? m' * 2 ^ (e' - e) else m * 2 ^ (e - e') =? m'
  | _ => false
  end.

(** *** Number::toString (ECMA-262, 6.1.6.1.20), radix 10 *)

(** [num / den < 10^n]. *)
Definition lt_pow10 (num den n : Z) : bool :=
  if 0 <=? n then num <? den * 10 ^ n else num * 10 ^ (- n) <? den.

(** Least [n' >= n] with [num / den < 10^n']. *)
Fixpoint decimal_exponent (fuel : nat) (n num den : Z) : Z :=
  match fuel with
  | O => n
  | S f => if lt_pow10 num den n then n
           else decimal_exponent f (n + 1) num den
  end.

(** The integer [s] with [k] digits for which [s * 10^(n - k)] is the
    Number [m * 2^e], the closest such to it; none when [k] digits do not
    suffice. *)
Definition digits_at (m e n k : Z) : option Z :=
  let num := if 0 <=? e then m * 2 ^ e else m in
  let den := if 0 <=? e then 1 else 2 ^ (- e) in
  let p := n - k in
  let num' := if 0 <=? p then num else num * 10 ^ (- p) in
  let den' := if 0 <=? p then den * 10 ^ p else den in
  let lo := num' / den' in
  let hi := lo + 1 in
  let ok s := same_value (of_decimal false s p) m e in
  let dlo := num' - lo * den' in
  let dhi := hi * den' - num' in
  match ok lo, ok hi with
  | true, false => Some lo
  | false, true => Some hi
  | true, true =>
      match dlo ?= dhi with
      | Lt => Some lo
      | Gt => Some hi
      | Eq => if Z.even lo then Some lo else Some hi
      end
  | false, false => None
  end.

(** Shortest digit string: the least [k] with a solution, from [k]. *)
Fixpoint shortest (fuel : nat) (m e n k : Z) : Z * Z :=
  match fuel with
  | O => (m, k)
  | S f => match digits_at m e n k with
           | Some s => (s, k)
           | None => shortest f m e n (k + 1)
           end
  end.

(** A whole number below [log10 (num / den)], by at most three: the
    search for the decimal exponent starts there.  ([log10 2] lies between
    0.30102 and 0.30103.) *)
Definition exponent_below (num den : Z) : Z :=
  floor_log2 num den * 30102 / 100000 - 1.

Definition zeros (n : Z) : jsstring := repeat 48%N (Z.to_nat n).

Definition exponent_part (n : Z) : jsstring :=
  let e := n - 1 in
  lit "e" ++ (if e <? 0 then lit "-" else lit "+") ++ decimal (Z.to_N (Z.abs e)).

Definition format (ds : jsstring) (n : Z) : jsstring :=
  let k := Z.of_nat (List.length ds) in
  if (k <=? n) && (n <=? 21) then ds ++ zeros (n - k)
  else if (0 <? n) && (n <=? 21) then
    firstn (Z.to_nat n) ds ++ lit "." ++ skipn (Z.to_nat n) ds
  else if (-6 <? n) && (n <=? 0) then lit "0." ++ zeros (- n) ++ ds
  else if k =? 1 then ds ++ exponent_part n
  else firstn 1 ds ++ lit "." ++ skipn 1 ds ++ exponent_part n.

Definition toString (x : t) : jsstring :=
  match x with
  | NaN => lit "NaN"
  | Infinity neg => (if neg then lit "-" else []) ++ lit "Infinity"
  | Finite neg m e =>
      if m =? 0 then lit "0" else
      let num := if 0 <=? e then m * 2 ^ e else m in
      let den := if 0 <=? e then 1 else 2 ^ (- e) in
      let n0 := decimal_exponent 4 (exponent_below num den) num den in
      let '(s, k) := shortest 17 m e n0 1 in
      let n := if s =? 10 ^ k then n0 + 1 else n0 in
      let s' := if s =? 10 ^ k then 10 ^ (k - 1) else s in
      (if neg then lit "-" else []) ++ format (decimal (Z.to_N s')) n
  end.

End Number.

(* ================================================================== *)
(** ** JSON values and [JSON.parse] *)

Module Json.

(** The values [JSON.parse] builds.  An object is its list of own
    properties in creation order, each key once. *)
Inductive value :=
| JNull
| JBool (b : bool)
| JNumber (x : Number.t)
| JString (s : jsstring)
| JArray (items : list value)
| JObject (members : list (jsstring * value)).

(** CreateDataProperty: a repeated key keeps its place and takes the
    later value. *)
Fixpoint setProperty (k : jsstring) (v : value)
         (ms : list (jsstring * value)) : list (jsstring * value) :=
  match ms with
  | [] => [(k, v)]
  | (k', v') :: rest =>
      if JsString.eqb k' k then (k', v) :: rest
      else (k', v') :: setProperty k v rest
  end.

Fixpoint lookup (k : jsstring) (ms : list (jsstring * value)) : option value :=
  match ms with
  | [] => None
  | (k', v) :: rest => if JsString.eqb k' k then Some v else lookup k rest
  end.

(** *** Tokens *)

Inductive token :=
| TLBrace | TRBrace | TLBracket | TRBracket | TColon | TComma
| TString (s : jsstring)
| TNumber (x : Number.t)
| TTrue | TFalse | TNull
| TBad (c : option char).   (* no token starts here: this character, or the end *)

Inductive numphase := NMinus | NZero | NInt | NDot | NFrac | NE | NESign | NExp.

Record numacc := {
  n_neg : bool; n_mant : Z; n_frac : Z; n_eneg : bool; n_exp : Z }.

Definition digitValue (c : char) : Z := Z.of_N c - 48.

Definition isE (c : char) : bool := N.eqb c 101 || N.eqb c 69.

Definition addInt (a : numacc) (c : char) : numacc :=
  {| n_neg := n_neg a; n_mant := n_mant a * 10 + digitValue c;
     n_frac := n_frac a; n_eneg := n_eneg a; n_exp := n_exp a |}.

Definition addFrac (a : numacc) (c : char) : numacc :=
  {| n_neg := n_neg a; n_mant := n_mant a * 10 + digitValue c;
     n_frac := n_frac a + 1; n_eneg := n_eneg a; n_exp := n_exp a |}.

Definition addExp (a : numacc) (c : char) : numacc :=
  {| n_neg := n_neg a; n_mant := n_mant a; n_frac := n_frac a;
     n_eneg := n_eneg a; n_exp := n_exp a * 10 + digitValue c |}.

Definition negExp (a : numacc) : numacc :=
  {| n_neg := n_neg a; n_mant := n_mant a; n_frac := n_frac a;
     n_eneg := true; n_exp := n_exp a |}.

(** One character of the JSON number grammar (optional minus; a zero, or
    a non-zero digit and more digits; optional fraction; optional
    exponent); [None] when the character does not continue the number. *)
Definition numStep (p : numphase) (a : numacc) (c : char)
  : option (numphase * numacc) :=
  match p with
  | NMinus => if N.eqb c 48 then Some (NZero, a)
              else if isDigit c then Some (NInt, addInt a c) else None
  | NZero => if N.eqb c 46 then Some (NDot, a)
             else if isE c then Some (NE, a) else None
  | NInt => if isDigit c then Some (NInt, addInt a c)
            else if N.eqb c 46 then Some (NDot, a)
            else if isE c then Some (NE, a) else None
  | NDot => if isDigit c then Some (NFrac, addFrac a c) else None
  | NFrac => if isDigit c then Some (NFrac, addFrac a c)
             else if isE c then Some (NE, a) else None
  | NE => if N.eqb c 43 then Some (NESign, a)
          else if N.eqb c 45 then Some (NESign, negExp a)
          else if isDigit c then Some (NExp, addExp a c) else None
  | NESign => if isDigit c then Some (NExp, addExp a c) else None
  | NExp => if isDigit c then Some (NExp, addExp a c) else None
  end.

Definition numComplete (p : numphase) : bool :=
  match p with NZero | NInt | NFrac | NExp => true | _ => false end.

Definition numValue (a : numacc) : Number.t :=
  Number.of_decimal (n_neg a) (n_mant a)
    ((if n_eneg a then - n_exp a else n_exp a) - n_frac a).

Definition hexValue (c : char) : option N :=
  if isDigit c then Some (c - 48)%N
  else if ((97 <=? c) && (c <=? 102))%N then Some (c - 87)%N
  else if ((65 <=? c) && (c <=? 70))%N then Some (c - 55)%N
  else None.

Inductive lexstate :=
| LIdle
| LString (start : N) (acc : jsstring)                 (* inside a string, reversed *)
| LEscape (start : N) (acc : jsstring)                 (* after a backslash *)
| LUnicode (start : N) (acc : jsstring) (n : nat) (u : N)  (* in a u-escape, n digits read *)
| LNumber (start : N) (p : numphase) (a : numacc)
| LLiteral (start : N) (rest : jsstring) (t : token).

Inductive lexout :=
| Emit (toks : list (N * token)) (st : lexstate)
| Stop (toks : list (N * token)).

Definition bad (pos : N) (c : char) : lexout := Stop [(pos, TBad (Some c))].

Definition startNumber (neg : bool) : numacc :=
  {| n_neg := neg; n_mant := 0; n_frac := 0; n_eneg := false; n_exp := 0 |}.

(** A character between tokens. *)
Definition idleStep (pos : N) (c : char) : lexout :=
  if existsb (N.eqb c) [9; 10; 13; 32]%N then Emit [] LIdle
  else if N.eqb c 123 then Emit [(pos, TLBrace)] LIdle
  else if N.eqb c 125 then Emit [(pos, TRBrace)] LIdle
  else if N.eqb c 91 then Emit [(pos, TLBracket)] LIdle
  else if N.eqb c 93 then Emit [(pos, TRBracket)] LIdle
  else if N.eqb c 58 then Emit [(pos, TColon)] LIdle
  else if N.eqb c 44 then Emit [(pos, TComma)] LIdle
  else if N.eqb c 34 then Emit [] (LString pos [])
  else if N.eqb c 45 then Emit [] (LNumber pos NMinus (startNumber true))
  else if N.eqb c 48 then Emit [] (LNumber pos NZero (startNumber false))
  else if isDigit c then Emit [] (LNumber pos NInt (addInt (startNumber false) c))
  else if N.eqb c 116 then Emit [] (LLiteral pos (lit "rue") TTrue)
  else if N.eqb c 102 then Emit [] (LLiteral pos (lit "alse") TFalse)
  else if N.eqb c 110 then Emit [] (LLiteral pos (lit "ull") TNull)
  else bad pos c.

Definition escapeChar (c : char) : option char :=
  if N.eqb c 34 then Some 34%N          (* quotation mark *)
  else if N.eqb c 92 then Some 92%N     (* reverse solidus *)
  else if N.eqb c 47 then Some 47%N     (* solidus *)
  else if N.eqb c 98 then Some 8%N      (* b: backspace *)
  else if N.eqb c 102 then Some 12%N    (* f: form feed *)
  else if N.eqb c 110 then Some 10%N    (* n: line feed *)
  else if N.eqb c 114 then Some 13%N    (* r: carriage return *)
  else if N.eqb c 116 then Some 9%N     (* t: tab *)
  else None.

Definition lexStep (st : lexstate) (pos : N) (c : char) : lexout :=
  match st with
  | LIdle => idleStep pos c
  | LString start acc =>
      if N.eqb c 34 then Emit [(start, TString (rev acc))] LIdle
      else if N.eqb c 92 then Emit [] (LEscape start acc)
      else if (c <? 32)%N then bad pos c
      else Emit [] (LString start (c :: acc))
  | LEscape start acc =>
      if N.eqb c 117 then Emit [] (LUnicode start acc 0 0)
      else match escapeChar c with
           | Some x => Emit [] (LString start (x :: acc))
           | None => bad pos c
           end
  | LUnicode start acc n u =>
      match hexValue c with
      | Some h =>
          let u' := (u * 16 + h)%N in
          if Nat.eqb n 3 then Emit [] (LString start (u' :: acc))
          else Emit [] (LUnicode start acc (S n) u')
      | None => bad pos c
      end
  | LNumber start p a =>
      match numStep p a c with
      | Some (p', a') => Emit [] (LNumber start p' a')
      | None =>
          if numComplete p then
            match idleStep pos c with
            | Emit toks st' => Emit ((start, TNumber (numValue a)) :: toks) st'
            | Stop toks => Stop ((start, TNumber (numValue a)) :: toks)
            end
          else bad pos c
      end
  | LLiteral start rest t =>
      match rest with
      | x :: rest' =>
          if N.eqb c x then
            match rest' with
            | [] => Emit [(start, t)] LIdle
            | _ :: _ => Emit [] (LLiteral start rest' t)
            end
          else bad pos c
      | [] => bad pos c
      end
  end.

(** The input ends in state [st]. *)
Definition lexEnd (st : lexstate) (pos : N) : list (N * token) :=
  match st with
  | LIdle => []
  | LNumber start p a =>
      if numComplete p then [(start, TNumber (numValue a))]
      else [(pos, TBad None)]
  | _ => [(pos, TBad None)]
  end.

Fixpoint lex (st : lexstate) (pos : N) (s : jsstring) : list (N * token) :=
  match s with
  | [] => lexEnd st pos
  | c :: rest =>
      match lexStep st pos c with
      | Emit toks st' => toks ++ lex st' (pos + 1)%N rest
      | Stop toks => toks
      end
  end.

(** *** Grammar *)

(** An enclosing container waiting for the value being read. *)
Inductive frame :=
| FArray (acc : list value)
    (* the elements before it, reversed *)
| FObject (members : list (jsstring * value)) (key : jsstring).
    (* the properties before it, and its key *)

Inductive pstate :=
| SValue (stk : list frame)                  (* a value must follow *)
| SArrayOpen (stk : list frame)              (* after [ *)
| SObjectOpen (stk : list frame)             (* after { *)
| SKey (ms : list (jsstring * value)) (stk : list frame)   (* after , in an object *)
| SColon (ms : list (jsstring * value)) (k : jsstring) (stk : list frame)
| SAfterElement (acc : list value) (stk : list frame)
| SAfterMember (ms : list (jsstring * value)) (stk : list frame)
| SDone (v : value).

(** A finished value goes to the innermost enclosing container. *)
Definition deliver (v : value) (stk : list frame) : pstate :=
  match stk with
  | [] => SDone v
  | FArray acc :: below => SAfterElement (v :: acc) below
  | FObject ms k :: below => SAfterMember (setProperty k v ms) below
  end.

Definition startValue (t : token) (stk : list frame) : option pstate :=
  match t with
  | TString s => Some (deliver (JString s) stk)
  | TNumber x => Some (deliver (JNumber x) stk)
  | TTrue => Some (deliver (JBool true) stk)
  | TFalse => Some (deliver (JBool false) stk)
  | TNull => Some (deliver JNull stk)
  | TLBracket => Some (SArrayOpen stk)
  | TLBrace => Some (SObjectOpen stk)
  | _ => None
  end.

(** [None]: the token is not allowed here. *)
Definition step (st : pstate) (t : token) : option pstate :=
  match st, t with
  | SValue stk, _ => startValue t stk
  | SArrayOpen stk, TRBracket => Some (deliver (JArray []) stk)
  | SArrayOpen stk, _ => startValue t (FArray [] :: stk)
  | SObjectOpen stk, TRBrace => Some (deliver (JObject []) stk)
  | SObjectOpen stk, TString k => Some (SColon [] k stk)
  | SKey ms stk, TString k => Some (SColon ms k stk)
  | SColon ms k stk, TColon => Some (SValue (FObject ms k :: stk))
  | SAfterElement acc stk, TComma => Some (SValue (FArray acc :: stk))
  | SAfterElement acc stk, TRBracket => Some (deliver (JArray (rev acc)) stk)
  | SAfterMember ms stk, TComma => Some (SKey ms stk)
  | SAfterMember ms stk, TRBrace => Some (deliver (JObject ms) stk)
  | _, _ => None
  end.

(** Where and on what the parse stopped. *)
Inductive syntaxError :=
| UnexpectedEnd
| UnexpectedToken (pos : N) (t : token).

Fixpoint run (st : pstate) (toks : list (N * token)) : value + syntaxError :=
  match toks with
  | [] => match st with SDone v => inl v | _ => inr UnexpectedEnd end
  | (pos, t) :: rest =>
      match step st t with
      | Some st' => run st' rest
      | None => inr (UnexpectedToken pos t)
      end
  end.

Definition tokenChar (t : token) : jsstring :=
  match t with
  | TLBrace => lit "{" | TRBrace => lit "}"
  | TLBracket => lit "[" | TRBracket => lit "]"
  | TColon => lit ":" | TComma => lit ","
  | TTrue => lit "t" | TFalse => lit "f" | TNull => lit "n"
  | TBad (Some c) => [c]
  | _ => []
  end.

(** The message of the SyntaxError.  Its wording is the engine's own; this
    is the wording of V8. *)
Definition message (e : syntaxError) : jsstring :=
  match e with
  | UnexpectedEnd | UnexpectedToken _ (TBad None) =>
      lit "Unexpected end of JSON input"
  | UnexpectedToken pos (TString _) =>
      lit "Unexpected string in JSON at position " ++ decimal pos
  | UnexpectedToken pos (TNumber _) =>
      lit "Unexpected number in JSON at position " ++ decimal pos
  | UnexpectedToken pos t =>
      lit "Unexpected token " ++ tokenChar t
        ++ lit " in JSON at position " ++ decimal pos
  end.

(** [JSON.parse(text)]: the value, or the message of the SyntaxError it
    throws. *)
Definition parse (text : jsstring) : value + jsstring :=
  match run (SValue []) (lex LIdle 0 text) with
  | inl v => inl v
  | inr e => inr (message e)
  end.

(** *** Reading parsed values *)

(** ToBoolean. *)
Definition truthy (v : value) : bool :=
  match v with
  | JNull => false
  | JBool b => b
  | JNumber x => negb (Number.falsy x)
  | JString s => negb (JsString.falsy s)
  | JArray _ | JObject _ => true
  end.

Definition typeErrorMessage (k : jsstring) : jsstring :=
  lit "Cannot read properties of null (reading '" ++ k ++ lit "')".

(** [v.k] for a property name [k] that no built-in prototype defines (the
    names read here are [integrated_text], [error] and [message]): the own
    property of an object, [undefined] ([None]) on any other value, and a
    TypeError on [null]. *)
Definition get (v : value) (k : jsstring) : option value + jsstring :=
  match v with
  | JNull => inr (typeErrorMessage k)
  | JObject ms => inl (lookup k ms)
  | _ => inl None
  end.

(** [v?.k], with [None] for [undefined]. *)
Definition getOpt (v : option value) (k : jsstring) : option value :=
  match v with
  | None | Some JNull => None
  | Some (JObject ms) => lookup k ms
  | Some _ => None
  end.

(** The results of a list of steps, none when one of them throws. *)
Fixpoint collect (steps : list (option jsstring)) : option (list jsstring) :=
  match steps with
  | [] => Some []
  | None :: _ => None
  | Some s :: rest =>
      match collect rest with
      | Some done => Some (s :: done)
      | None => None
      end
  end.

(** ToString (ECMA-262, 7.1.17), as a template literal and [join] apply
    it; [None] when it throws a TypeError.  An array is printed by
    [Array.prototype.toString]: its elements joined by a comma, [null] as
    nothing.  An object is printed by [Object.prototype.toString] unless it
    has an own property [toString]: no parsed value is callable, so
    OrdinaryToPrimitive finds no method that returns a primitive value (the
    inherited [valueOf] returns the object) and throws. *)
Fixpoint toString (v : value) : option jsstring :=
  match v with
  | JNull => Some (lit "null")
  | JBool true => Some (lit "true")
  | JBool false => Some (lit "false")
  | JNumber x => Some (Number.toString x)
  | JString s => Some s
  | JArray items =>
      match collect (map (fun i => match i with
                                   | JNull => Some []
                                   | _ => toString i
                                   end) items) with
      | Some parts => Some (join (lit ",") parts)
      | None => None
      end
  | JObject members =>
      match lookup (lit "toString") members with
      | Some _ => None
      | None => Some (lit "[object Object]")
      end
  end.

End Json.

(** [parseInt(s, radix)] (ECMA-262, 19.2.5) for a radix from 2 to 36 other
    than 16: leading white space and one sign are skipped, the longest run
    of digits of the radix is read, and no digit at all gives NaN.  The
    integer read becomes the nearest Number (the standard allows an engine
    to read digits after the twentieth as zeros; this is the exact
    reading). *)
Definition digitOf (radix : Z) (c : char) : option Z :=
  let v := if isDigit c then Z.of_N c - 48
           else if ((97 <=? c) && (c <=? 122))%N then Z.of_N c - 87
           else if ((65 <=? c) && (c <=? 90))%N then Z.of_N c - 55
           else 36 in
  if v <? radix then Some v else None.

Fixpoint readDigits (radix : Z) (s : jsstring) (acc : option Z) : option Z :=
  match s with
  | [] => acc
  | c :: rest =>
      match digitOf radix c with
      | Some d =>
          readDigits radix rest
            (Some (match acc with Some a => a * radix + d | None => d end))
      | None => acc
      end
  end.

Definition parseInt (s : jsstring) (radix : Z) : Number.t :=
  let s1 := trimStart s in
  let neg := match s1 with c :: _ => N.eqb c 45 | [] => false end in
  let s2 := match s1 with
            | c :: rest => if N.eqb c 45 || N.eqb c 43 then rest else s1
            | [] => s1
            end in
  match readDigits radix s2 None with
  | None => Number.NaN
  | Some mathInt => Number.of_ratio neg mathInt 1
  end.

(* ================================================================== *)
(** ** types.ts *)

Inductive SpeechType := NARRATION | ONE_ON_ONE | MULTI.

(** [Language] of the localisation module. *)
Inductive Language := en | ko.

Module Character.
Record t := {
  id : jsstring;
  name : jsstring;
  persona : jsstring;
  imageTouch : option jsstring }.
End Character.

Module ScriptLine.
Record t := {
  id : jsstring;
  characterId : jsstring;     (* the empty string: no character selected *)
  line : jsstring;
  emotion : jsstring;
  tone : jsstring }.
End ScriptLine.

(** The requests as [handleSubmit] builds them and [generatePrompt] reads
    them: with the [duration] the form holds, which [generatePrompt] takes
    as [string | undefined]. *)
Module NarrationRequest.
Record t := {
  scenario : jsstring;
  persona : jsstring;
  emotion : jsstring;
  tone : jsstring;
  environment : jsstring;
  duration : option jsstring }.
End NarrationRequest.

Module DialogueRequest.
Record t := {
  type : SpeechType;          (* ONE_ON_ONE or MULTI *)
  scenario : jsstring;
  characters : list Character.t;
  script : list ScriptLine.t;
  duration : option jsstring }.
End DialogueRequest.

Inductive PromptRequest :=
| Narration (r : NarrationRequest.t)
| Dialogue (r : DialogueRequest.t).

Record GeneratedPrompt := {
  json : Json.value;
  integrated : Json.value }.   (* declared a string; whatever the response holds *)

(* ================================================================== *)
(** ** The model call boundary *)

(** Response schemas ([Type.OBJECT], [Type.ARRAY], [Type.STRING]); the
    field descriptions are left out. *)
Inductive Schema :=
| STRING
| ARRAY (items : Schema)
| OBJECT (properties : list (jsstring * Schema)) (required : list jsstring).

Record GenerateContentParams := {
  model : jsstring;
  contents : jsstring;
  systemInstruction : option jsstring;
  responseMimeType : option jsstring;
  responseSchema : option Schema }.

(** What is thrown: an [Error] with its message, or some other value. *)
Inductive exn :=
| JsError (message : jsstring)
| NotAnError.

(** The awaited call: a response, whose [text] may be undefined, or a
    rejection. *)
Inductive Outcome :=
| Resolved (text : option jsstring)
| Rejected (e : exn).

Definition Model := GenerateContentParams -> Outcome.

(** Computations that call the model: they thread the log of the calls
    made so far. *)
Definition Ext (A : Type) : Type :=
  list GenerateContentParams -> A * list GenerateContentParams.

Definition ret {A} (a : A) : Ext A := fun log => (a, log).

Definition bind {A B} (m : Ext A) (k : A -> Ext B) : Ext B :=
  fun log => let (a, log') := m log in k a log'.

Notation "x <- m ;; k" := (bind m (fun x => k))
  (at level 61, m at next level, right associativity).

(** [await ai.models.generateContent(params)]. *)
Definition generateContent (ai : Model) (params : GenerateContentParams)
  : Ext Outcome :=
  fun log => (ai params, log ++ [params]).

(** The calls a computation makes when started with an empty log. *)
Definition calls {A} (m : Ext A) : list GenerateContentParams := snd (m []).
Definition result {A} (m : Ext A) : A := fst (m []).

(* ================================================================== *)
(** ** services/geminiService.ts *)

Definition nl : jsstring := [10%N].
Definition quote : jsstring := [34%N].

(** A template literal: its pieces in order. *)
Definition template (pieces : list jsstring) : jsstring := List.concat pieces.

(** [new Map(entries)], [get]: a later entry of the same key replaces the
    value of the earlier one. *)
Fixpoint Map_set (k v : jsstring) (m : list (jsstring * jsstring))
  : list (jsstring * jsstring) :=
  match m with
  | [] => [(k, v)]
  | (k', v') :: rest =>
      if JsString.eqb k' k then (k', v) :: rest else (k', v') :: Map_set k v rest
  end.

Definition Map_new (entries : list (jsstring * jsstring)) : list (jsstring * jsstring) :=
  fold_left (fun m e => Map_set (fst e) (snd e) m) entries [].

Fixpoint Map_get (m : list (jsstring * jsstring)) (k : jsstring) : option jsstring :=
  match m with
  | [] => None
  | (k', v) :: rest => if JsString.eqb k' k then Some v else Map_get rest k
  end.

Module GeminiService.

Definition NARRATION_SCHEMA : Schema :=
  OBJECT
    [ (lit "type", STRING); (lit "scenario", STRING); (lit "persona", STRING);
      (lit "content", STRING); (lit "emotion", STRING);
      (lit "tones", ARRAY STRING); (lit "environment", STRING);
      (lit "integrated_text", STRING) ]
    [ lit "type"; lit "scenario"; lit "persona"; lit "content"; lit "emotion";
      lit "tones"; lit "environment"; lit "integrated_text" ].

Definition DIALOGUE_SCHEMA : Schema :=
  OBJECT
    [ (lit "type", STRING); (lit "scenario", STRING);
      (lit "characters",
       ARRAY (OBJECT [ (lit "name", STRING); (lit "persona", STRING) ]
                     [ lit "name"; lit "persona" ]));
      (lit "script",
       ARRAY (OBJECT [ (lit "character", STRING); (lit "line", STRING);
                       (lit "emotion", STRING); (lit "tone", STRING) ]
                     [ lit "character"; lit "line"; lit "emotion"; lit "tone" ]));
      (lit "integrated_text", STRING) ]
    [ lit "type"; lit "scenario"; lit "characters"; lit "script";
      lit "integrated_text" ].

Definition SYSTEM_INSTRUCTION : jsstring :=
  lit "You are a master scriptwriter for 'cosplay' style voice acting and advanced text-to-speech generation. Your goal is to create vivid, emotionally-rich, and character-driven scenarios. You must generate a detailed prompt based on the user's specifications. The final output must be a single JSON object that strictly adheres to the provided schema. The 'integrated_text' field must be a complete, well-formatted string combining all information into a final, readable script or narration prompt.".

Definition durationConstraint (duration : option jsstring) : jsstring :=
  match duration with
  | None => []
  | Some d =>
      if JsString.falsy d then [] else
      let parsedDuration := parseInt d 10 in
      if negb (Number.isNaN parsedDuration) && Number.positive parsedDuration
      then template [ nl; lit "- The total length should be approximately ";
                      Number.toString parsedDuration; lit " seconds." ]
      else []
  end.

Definition narrationPrompt (r : NarrationRequest.t) : jsstring :=
  template
    [ nl;
      lit "      Generate a speech prompt for a narration."; nl;
      lit "      - Scenario: "; NarrationRequest.scenario r; nl;
      lit "      - Narrator's Persona: "; NarrationRequest.persona r; nl;
      lit "      - Primary Emotion: "; NarrationRequest.emotion r; nl;
      lit "      - Vocal Tones: "; NarrationRequest.tone r; nl;
      lit "      - Environment: "; NarrationRequest.environment r; nl;
      lit "      The narration should be descriptive, immersive, and set a clear mood based on these details. The environment should influence the tone and description.";
      durationConstraint (NarrationRequest.duration r) ].

Definition characterDescriptions (r : DialogueRequest.t) : jsstring :=
  join nl
    (map (fun c => template [ lit "- "; Character.name c; lit ": ";
                              Character.persona c ])
         (DialogueRequest.characters r)).

(** A script line some text of which is left by [trim]. *)
Definition nonBlank (l : ScriptLine.t) : bool :=
  negb (JsString.eqb (trim (ScriptLine.line l)) []).

Definition hasScript (r : DialogueRequest.t) : bool :=
  (0 <? List.length (DialogueRequest.script r))%nat
  && existsb nonBlank (DialogueRequest.script r).

Definition characterMap (r : DialogueRequest.t) : list (jsstring * jsstring) :=
  Map_new (map (fun c => (Character.id c, Character.name c))
               (DialogueRequest.characters r)).

Definition charName (r : DialogueRequest.t) (l : ScriptLine.t) : jsstring :=
  match Map_get (characterMap r) (ScriptLine.characterId l) with
  | Some n => or_else n (lit "Unknown Character")
  | None => lit "Unknown Character"
  end.

(** One line of [scriptContent]. *)
Definition scriptEntry (r : DialogueRequest.t) (l : ScriptLine.t) : jsstring :=
  template
    [ charName r l; lit ": "; quote; ScriptLine.line l; quote;
      lit " (Emotion: "; or_else (ScriptLine.emotion l) (lit "not specified");
      lit ", Tone: "; or_else (ScriptLine.tone l) (lit "not specified");
      lit ")" ].

Definition scriptContent (r : DialogueRequest.t) : jsstring :=
  join nl (map (scriptEntry r) (filter nonBlank (DialogueRequest.script r))).

(** The instruction of the branch [if (hasScript)]. *)
Definition formatScriptPrompt (r : DialogueRequest.t) : jsstring :=
  template
    [ nl;
      lit "          Generate and format a speech prompt for a dialogue based on the user-provided script."; nl;
      lit "          - Scenario: "; DialogueRequest.scenario r; nl;
      lit "          - Characters:"; nl; characterDescriptions r; nl;
      lit "          - User-provided Script:"; nl; scriptContent r; nl;
      lit "          "; nl;
      lit "          Your task is to take the provided script and format it perfectly into the required JSON structure."; nl;
      lit "          Refine the emotion and tone descriptions to be more evocative and detailed where appropriate, but strictly adhere to the dialogue lines and character assignments from the script."; nl;
      lit "          The 'integrated_text' should be a clean, readable script format of the final dialogue.";
      durationConstraint (DialogueRequest.duration r) ].

(** The instruction of its [else] branch. *)
Definition fromScratchPrompt (r : DialogueRequest.t) : jsstring :=
  template
    [ nl;
      lit "          Generate a speech prompt for a dialogue."; nl;
      lit "          - Scenario: "; DialogueRequest.scenario r; nl;
      lit "          - Characters:"; nl; characterDescriptions r; nl;
      lit "          The dialogue should be dramatic and engaging. Each line in the script must have a specified character, the line of dialogue, a primary emotion, and a specific tone/direction."; nl;
      lit "          Generate a complete script from scratch based on the scenario and characters provided.";
      durationConstraint (DialogueRequest.duration r) ].

Definition userPrompt (request : PromptRequest) : jsstring :=
  match request with
  | Narration r => narrationPrompt r
  | Dialogue r => if hasScript r then formatScriptPrompt r else fromScratchPrompt r
  end.

Definition schema (request : PromptRequest) : Schema :=
  match request with
  | Narration _ => NARRATION_SCHEMA
  | Dialogue _ => DIALOGUE_SCHEMA
  end.

Definition generatePromptParams (request : PromptRequest) : GenerateContentParams :=
  {| model := lit "gemini-2.5-pro";
     contents := userPrompt request;
     systemInstruction := Some SYSTEM_INSTRUCTION;
     responseMimeType := Some (lit "application/json");
     responseSchema := Some (schema request) |}.

Definition integratedFallback : jsstring := lit "Failed to generate integrated text.".

(** What [response.text.trim()] throws on an undefined [text]. *)
Definition undefinedTextError : exn :=
  JsError (lit "Cannot read properties of undefined (reading 'trim')").

(** The [try] block of [generatePrompt] from the awaited call on: the
    value returned, or what is thrown inside the block. *)
Definition readResponse (o : Outcome) : GeneratedPrompt + exn :=
  match o with
  | Rejected e => inr e
  | Resolved None => inr undefinedTextError
  | Resolved (Some text) =>
      let jsonText := trim text in
      match Json.parse jsonText with
      | inr diagnostic => inr (JsError diagnostic)
      | inl parsedJson =>
          match Json.get parsedJson (lit "integrated_text") with
          | inr msg => inr (JsError msg)
          | inl integrated_text =>
              inl {| json := parsedJson;
                     integrated :=
                       match integrated_text with
                       | Some v => if Json.truthy v then v
                                   else Json.JString integratedFallback
                       | None => Json.JString integratedFallback
                       end |}
          end
      end
  end.

(** The [catch] block: the message of the [Error] it throws. *)
Definition rethrow (e : exn) : jsstring :=
  match e with
  | JsError message => lit "Gemini API Error: " ++ message
  | NotAnError => lit "An unknown error occurred while contacting the Gemini API."
  end.

(** [generatePrompt(request)]: the prompt, or the message of the [Error]
    thrown. *)
Definition generatePrompt (ai : Model) (request : PromptRequest)
  : Ext (GeneratedPrompt + jsstring) :=
  response <- generateContent ai (generatePromptParams request) ;;
  ret (match readResponse response with
       | inl prompt => inl prompt
       | inr e => inr (rethrow e)
       end).

Definition NARRATOR_DETAILS_SCHEMA : Schema :=
  OBJECT
    [ (lit "persona", STRING); (lit "emotion", STRING); (lit "tone", STRING);
      (lit "environment", STRING) ]
    [ lit "persona"; lit "emotion"; lit "tone"; lit "environment" ].

(** The Korean pieces of the instruction, as code units. *)
Definition koLookAtScenario : jsstring :=
  [ 45796; 51020; 32; 45208; 47112; 51060; 49496; 32; 49884; 45208; 47532;
    50724; 47484; 32; 48372; 44256; 44; 32; 51060; 49345; 51201; 51064; 32;
    45208; 47112; 51060; 53552; 32; 51221; 48372; 47484; 32; 51228; 50504;
    54644; 51452; 49464; 50836; 46 ]%N.
Definition koScenarioLabel : jsstring :=
  [ 49884; 45208; 47532; 50724; 58; 32 ]%N.
Definition koProvideDetails : jsstring :=
  [ 51201; 51208; 54620; 32; 54168; 47476; 49548; 45208; 44; 32; 51452;
    50836; 32; 44048; 51221; 44; 32; 44396; 52404; 51201; 51064; 32; 47785;
    49548; 47532; 32; 53668; 44; 32; 44536; 47532; 44256; 32; 50612; 50872;
    47532; 45716; 32; 51020; 54693; 32; 54872; 44221; 51012; 32; 51228;
    44277; 54644; 51452; 49464; 50836; 46 ]%N.

Definition narratorDetailsPrompt (scenario : jsstring) (lang : Language)
  : jsstring :=
  match lang with
  | ko =>
      template
        [ koLookAtScenario; nl;
          lit "            "; koScenarioLabel; quote; scenario; quote; nl;
          lit "            "; nl;
          lit "            "; koProvideDetails ]
  | en =>
      template
        [ lit "Based on the following narration scenario, suggest the ideal narrator details."; nl;
          lit "            Scenario: "; quote; scenario; quote; nl;
          lit "            "; nl;
          lit "            Provide an appropriate persona, primary emotion, a specific vocal tone, and a suitable acoustic environment." ]
  end.

Definition narratorDetailsParams (scenario : jsstring) (lang : Language)
  : GenerateContentParams :=
  {| model := lit "gemini-2.5-pro";
     contents := narratorDetailsPrompt scenario lang;
     systemInstruction := None;
     responseMimeType := Some (lit "application/json");
     responseSchema := Some NARRATOR_DETAILS_SCHEMA |}.

(** The [try] block of [generateNarratorDetailsSuggestion]:
    [return JSON.parse(response.text.trim())]. *)
Definition readNarratorDetails (o : Outcome) : Json.value + exn :=
  match o with
  | Rejected e => inr e
  | Resolved None => inr undefinedTextError
  | Resolved (Some text) =>
      match Json.parse (trim text) with
      | inl parsed => inl parsed
      | inr diagnostic => inr (JsError diagnostic)
      end
  end.

Definition narratorDetailsFailure : jsstring :=
  lit "Failed to generate narrator details.".

(** [generateNarratorDetailsSuggestion(scenario, lang)]: the value
    returned, or the message of the [Error] thrown. *)
Definition generateNarratorDetailsSuggestion
           (ai : Model) (scenario : jsstring) (lang : Language)
  : Ext (Json.value + jsstring) :=
  response <- generateContent ai (narratorDetailsParams scenario lang) ;;
  ret (match readNarratorDetails response with
       | inl details => inl details
       | inr _ => inr narratorDetailsFailure
       end).

End GeminiService.

(* ================================================================== *)
(** ** The [App] component: form state and handlers *)

(** The entries of the localisation table [UI_TEXT[lang]] the handlers
    read.  The table is the component's property [T]. *)
Record UiText := {
  errorCharacterNeeded : jsstring;
  errorUnexpected : jsstring;
  geminiErrorPrefix : jsstring }.

Module App.

(** The state of [AppContent] the handlers below read and set.  The two
    versions of the component have these handlers word for word; the later
    one also holds a section count, which this service does not read. *)
Record State := {
  speechType : SpeechType;
  scenario : jsstring;
  duration : jsstring;
  persona : jsstring;
  emotion : jsstring;
  tone : jsstring;
  environment : jsstring;
  characters : list Character.t;
  script : list ScriptLine.t;
  generatedPrompt : option GeneratedPrompt;
  isLoading : bool;
  error : option jsstring }.

Definition setCharacters (f : list Character.t -> list Character.t) (st : State) : State :=
  {| speechType := speechType st; scenario := scenario st;
     duration := duration st; persona := persona st; emotion := emotion st;
     tone := tone st; environment := environment st;
     characters := f (characters st); script := script st;
     generatedPrompt := generatedPrompt st; isLoading := isLoading st;
     error := error st |}.

Definition setScript (f : list ScriptLine.t -> list ScriptLine.t) (st : State) : State :=
  {| speechType := speechType st; scenario := scenario st;
     duration := duration st; persona := persona st; emotion := emotion st;
     tone := tone st; environment := environment st;
     characters := characters st; script := f (script st);
     generatedPrompt := generatedPrompt st; isLoading := isLoading st;
     error := error st |}.

Definition setIsLoading (b : bool) (st : State) : State :=
  {| speechType := speechType st; scenario := scenario st;
     duration := duration st; persona := persona st; emotion := emotion st;
     tone := tone st; environment := environment st;
     characters := characters st; script := script st;
     generatedPrompt := generatedPrompt st; isLoading := b;
     error := error st |}.

Definition setError (e : option jsstring) (st : State) : State :=
  {| speechType := speechType st; scenario := scenario st;
     duration := duration st; persona := persona st; emotion := emotion st;
     tone := tone st; environment := environment st;
     characters := characters st; script := script st;
     generatedPrompt := generatedPrompt st; isLoading := isLoading st;
     error := e |}.

Definition setGeneratedPrompt (p : option GeneratedPrompt) (st : State) : State :=
  {| speechType := speechType st; scenario := scenario st;
     duration := duration st; persona := persona st; emotion := emotion st;
     tone := tone st; environment := environment st;
     characters := characters st; script := script st;
     generatedPrompt := p; isLoading := isLoading st;
     error := error st |}.

(** [{ ...l, characterId: '' }]. *)
Definition clearCharacter (l : ScriptLine.t) : ScriptLine.t :=
  {| ScriptLine.id := ScriptLine.id l;
     ScriptLine.characterId := [];
     ScriptLine.line := ScriptLine.line l;
     ScriptLine.emotion := ScriptLine.emotion l;
     ScriptLine.tone := ScriptLine.tone l |}.

Definition handleRemoveCharacter (id : jsstring) (st : State) : State :=
  setScript
    (map (fun l => if JsString.eqb (ScriptLine.characterId l) id
                   then clearCharacter l else l))
    (setCharacters
       (filter (fun c => negb (JsString.eqb (Character.id c) id)))
       st).

(** [c.name.trim() !== '' && c.persona.trim() !== '']. *)
Definition validCharacter (c : Character.t) : bool :=
  negb (JsString.eqb (trim (Character.name c)) [])
  && negb (JsString.eqb (trim (Character.persona c)) []).

(** [l.line.trim() !== '' && l.characterId]. *)
Definition submittedLine (l : ScriptLine.t) : bool :=
  negb (JsString.eqb (trim (ScriptLine.line l)) [])
  && negb (JsString.falsy (ScriptLine.characterId l)).

(** The request [handleSubmit] builds; none when it returns early. *)
Definition buildRequest (st : State) : option PromptRequest :=
  match speechType st with
  | NARRATION =>
      Some (Narration
              {| NarrationRequest.scenario := scenario st;
                 NarrationRequest.persona := persona st;
                 NarrationRequest.emotion := emotion st;
                 NarrationRequest.tone := tone st;
                 NarrationRequest.environment := environment st;
                 NarrationRequest.duration := Some (duration st) |})
  | type =>
      let finalCharacters := filter validCharacter (characters st) in
      if Nat.eqb (List.length finalCharacters) 0 then None
      else
        Some (Dialogue
                {| DialogueRequest.type := type;
                   DialogueRequest.scenario := scenario st;
                   DialogueRequest.characters := finalCharacters;
                   DialogueRequest.script := filter submittedLine (script st);
                   DialogueRequest.duration := Some (duration st) |})
  end.

Definition handleSubmit (T : UiText) (ai : Model) (st : State) : Ext State :=
  let st1 := setGeneratedPrompt None (setError None (setIsLoading true st)) in
  match buildRequest st with
  | None =>
      ret (setIsLoading false (setError (Some (errorCharacterNeeded T)) st1))
  | Some request =>
      outcome <- GeminiService.generatePrompt ai request ;;
      ret (setIsLoading false
             match outcome with
             | inl result => setGeneratedPrompt (Some result) st1
             | inr message =>
                 setError (Some (or_else message (errorUnexpected T))) st1
             end)
  end.

Definition apiErrorPrefix : jsstring := lit "Gemini API Error: ".

(** The memoised [prettyErrorMessage]: what the alert shows for the
    [error] of the state; [None] is [null].  Its [catch] takes what
    [JSON.parse] throws and what the template literal throws on a message
    that has no string form. *)
Definition prettyErrorMessage (T : UiText) (error : option jsstring)
  : option jsstring :=
  match error with
  | None => None
  | Some e =>
      if JsString.falsy e then None
      else if startsWith e apiErrorPrefix then
        let jsonPart := substring e (List.length apiErrorPrefix) in
        match Json.parse jsonPart with
        | inl parsed =>
            match Json.getOpt (Json.getOpt (Some parsed) (lit "error"))
                              (lit "message") with
            | Some m =>
                if Json.truthy m
                then match Json.toString m with
                     | Some message =>
                         Some (template [ geminiErrorPrefix T; lit ": "; message ])
                     | None =>
                         Some (template [ geminiErrorPrefix T; lit ": "; jsonPart ])
                     end
                else Some e
            | None => Some e
            end
        | inr _ => Some (template [ geminiErrorPrefix T; lit ": "; jsonPart ])
        end
      else Some e
  end.

End App.

(* ================================================================== *)
(** ** services/geminiService.ts: the free-text suggestions *)

Module Suggestions.

(** The Korean pieces of the two instructions, as code units. *)
Definition koTheme : jsstring :=
  [ 51452; 51228; 32 ]%N.
Definition koThemeScenario : jsstring :=
  [ 47484; 32; 48148; 53461; 51004; 47196; 44; 32; 45208; 47112; 51060;
    49496; 51012; 32; 50948; 54620; 32; 47588; 47141; 51201; 51060; 44256;
    32; 49436; 49696; 51201; 51064; 32; 49884; 45208; 47532; 50724; 47484;
    32; 54620; 32; 47928; 45800; 51004; 47196; 32; 49373; 49457; 54644;
    51452; 49464; 50836; 46 ]%N.
Definition koCharacterName : jsstring :=
  [ 52880; 47533; 53552; 32; 51060; 47492; 32 ]%N.
Definition koPersonaOpen : jsstring :=
  [ 40; 54168; 47476; 49548; 45208; 58; 32 ]%N.
Definition koImageTouch : jsstring :=
  [ 41; 50640; 32; 45824; 54644; 44; 32; 49464; 44228; 51201; 51064; 32;
    47549; 49905; 53356; 32; 51204; 47928; 44032; 32; 53076; 49828; 54540;
    47112; 51060; 50612; 44032; 32; 50672; 44592; 54620; 45796; 44256; 32;
    44032; 51221; 54616; 44256; 32; 49452; 49464; 54620; 32; 39; 51060;
    48120; 51648; 32; 53552; 52824; 39; 47484; 32; 51228; 50504; 54644;
    51452; 49464; 50836; 46; 32; 50668; 44592; 50640; 45716; 32; 54364;
    51221; 44; 32; 44053; 51312; 47484; 32; 50948; 54620; 32; 51452; 50836;
    32; 51077; 32; 47784; 50577; 44; 32; 48120; 47896; 54620; 32; 51228;
    49828; 52376; 44; 32; 47700; 51060; 53356; 50629; 32; 46356; 53580;
    51068; 32; 46321; 32; 50672; 44592; 47484; 32; 54693; 49345; 49884;
    53420; 32; 44396; 52404; 51201; 51064; 32; 51228; 50504; 51060; 32;
    54252; 54632; 46104; 50612; 50556; 32; 54633; 45768; 45796; 46 ]%N.

Definition scenarioPrompt (theme : jsstring) (lang : Language) : jsstring :=
  match lang with
  | ko => template [ koTheme; quote; theme; quote; koThemeScenario ]
  | en =>
      template
        [ lit "Based on the theme "; quote; theme; quote;
          lit ", generate an engaging and descriptive one-paragraph scenario for a narration." ]
  end.

Definition imageTouchPrompt (characterName characterPersona : jsstring)
           (lang : Language) : jsstring :=
  match lang with
  | ko =>
      template
        [ koCharacterName; quote; characterName; quote; koPersonaOpen;
          characterPersona; koImageTouch ]
  | en =>
      template
        [ lit "For a character named "; quote; characterName; quote;
          lit " with the persona "; quote; characterPersona; quote;
          lit ", suggest some detailed 'image touches' assuming they are portrayed by a world-class lip-sync expert cosplayer. This should include specific suggestions for facial expressions, key lip shapes for emphasis, subtle gestures, and makeup details that would enhance their performance." ]
  end.

(** [{ model: "gemini-2.5-flash", contents: prompt }]: no [config]. *)
Definition flashParams (prompt : jsstring) : GenerateContentParams :=
  {| model := lit "gemini-2.5-flash";
     contents := prompt;
     systemInstruction := None;
     responseMimeType := None;
     responseSchema := None |}.

(** The [try] block of both helpers: [return response.text.trim()]. *)
Definition readText (o : Outcome) : jsstring + exn :=
  match o with
  | Rejected e => inr e
  | Resolved None => inr GeminiService.undefinedTextError
  | Resolved (Some text) => inl (trim text)
  end.

Definition scenarioFailure : jsstring :=
  lit "Failed to generate scenario suggestion.".

Definition imageTouchFailure : jsstring :=
  lit "Failed to generate image touch suggestion.".

(** [generateScenarioSuggestion(theme, lang)]: the text returned, or the
    message of the [Error] thrown. *)
Definition generateScenarioSuggestion (ai : Model) (theme : jsstring)
           (lang : Language) : Ext (jsstring + jsstring) :=
  response <- generateContent ai (flashParams (scenarioPrompt theme lang)) ;;
  ret (match readText response with
       | inl text => inl text
       | inr _ => inr scenarioFailure
       end).

(** [generateImageTouchSuggestion(characterName, characterPersona, lang)]. *)
Definition generateImageTouchSuggestion (ai : Model)
           (characterName characterPersona : jsstring) (lang : Language)
  : Ext (jsstring + jsstring) :=
  response <- generateContent ai
                (flashParams (imageTouchPrompt characterName characterPersona lang)) ;;
  ret (match readText response with
       | inl text => inl text
       | inr _ => inr imageTouchFailure
       end).

End Suggestions.

(* ================================================================== *)
(** ** The [App] component: the other handlers *)

(** More entries of the localisation table. *)
Record SuggestionText := {
  errorSuggestion : jsstring;
  errorCharacterInfoNeeded : jsstring }.

Module Form.

(** [`char-${crypto.randomUUID()}`] and [`line-${crypto.randomUUID()}`]: the
    identifier drawn is an argument of the handlers that add an entry. *)
Definition newCharacter (uuid : jsstring) : Character.t :=
  {| Character.id := lit "char-" ++ uuid; Character.name := [];
     Character.persona := []; Character.imageTouch := Some [] |}.

Definition newScriptLine (uuid : jsstring) : ScriptLine.t :=
  {| ScriptLine.id := lit "line-" ++ uuid; ScriptLine.characterId := [];
     ScriptLine.line := []; ScriptLine.emotion := []; ScriptLine.tone := [] |}.

Definition handleAddCharacter (uuid : jsstring) (st : App.State) : App.State :=
  App.setCharacters (fun prev => prev ++ [newCharacter uuid]) st.

Definition handleAddScriptLine (uuid : jsstring) (st : App.State) : App.State :=
  App.setScript (fun prev => prev ++ [newScriptLine uuid]) st.

(** [keyof Omit<Character, 'id'>]. *)
Inductive CharacterField := name | persona | imageTouch.

(** [{ ...c, [field]: value }]. *)
Definition updateCharacter (field : CharacterField) (value : jsstring)
           (c : Character.t) : Character.t :=
  match field with
  | name =>
      {| Character.id := Character.id c; Character.name := value;
         Character.persona := Character.persona c;
         Character.imageTouch := Character.imageTouch c |}
  | persona =>
      {| Character.id := Character.id c; Character.name := Character.name c;
         Character.persona := value;
         Character.imageTouch := Character.imageTouch c |}
  | imageTouch =>
      {| Character.id := Character.id c; Character.name := Character.name c;
         Character.persona := Character.persona c;
         Character.imageTouch := Some value |}
  end.

Definition handleCharacterChange (id : jsstring) (field : CharacterField)
           (value : jsstring) (st : App.State) : App.State :=
  App.setCharacters
    (map (fun c => if JsString.eqb (Character.id c) id
                   then updateCharacter field value c else c))
    st.

(** [keyof Omit<ScriptLine, 'id'>]. *)
Inductive ScriptField := characterId | line | emotion | tone.

Definition updateLine (field : ScriptField) (value : jsstring)
           (l : ScriptLine.t) : ScriptLine.t :=
  match field with
  | characterId =>
      {| ScriptLine.id := ScriptLine.id l; ScriptLine.characterId := value;
         ScriptLine.line := ScriptLine.line l;
         ScriptLine.emotion := ScriptLine.emotion l;
         ScriptLine.tone := ScriptLine.tone l |}
  | line =>
      {| ScriptLine.id := ScriptLine.id l;
         ScriptLine.characterId := ScriptLine.characterId l;
         ScriptLine.line := value;
         ScriptLine.emotion := ScriptLine.emotion l;
         ScriptLine.tone := ScriptLine.tone l |}
  | emotion =>
      {| ScriptLine.id := ScriptLine.id l;
         ScriptLine.characterId := ScriptLine.characterId l;
         ScriptLine.line := ScriptLine.line l;
         ScriptLine.emotion := value;
         ScriptLine.tone := ScriptLine.tone l |}
  | tone =>
      {| ScriptLine.id := ScriptLine.id l;
         ScriptLine.characterId := ScriptLine.characterId l;
         ScriptLine.line := ScriptLine.line l;
         ScriptLine.emotion := ScriptLine.emotion l;
         ScriptLine.tone := value |}
  end.

Definition handleScriptChange (id : jsstring) (field : ScriptField)
           (value : jsstring) (st : App.State) : App.State :=
  App.setScript
    (map (fun l => if JsString.eqb (ScriptLine.id l) id
                   then updateLine field value l else l))
    st.

Definition handleRemoveScriptLine (id : jsstring) (st : App.State) : App.State :=
  App.setScript (filter (fun l => negb (JsString.eqb (ScriptLine.id l) id))) st.

Definition setScenario (s : jsstring) (st : App.State) : App.State :=
  {| App.speechType := App.speechType st; App.scenario := s;
     App.duration := App.duration st; App.persona := App.persona st;
     App.emotion := App.emotion st; App.tone := App.tone st;
     App.environment := App.environment st;
     App.characters := App.characters st; App.script := App.script st;
     App.generatedPrompt := App.generatedPrompt st;
     App.isLoading := App.isLoading st; App.error := App.error st |}.

(** ['scenario' | 'details']. *)
Inductive Suggesting := suggestingScenario | suggestingDetails.

(** The state of [AppContent] with what the suggestion handlers add to
    it. *)
Record Ui := {
  form : App.State;
  scenarioTheme : jsstring;
  isSuggesting : option Suggesting;
  suggestingImageTouch : option jsstring }.

Definition handleScenarioSuggestion (T : SuggestionText) (lang : Language)
           (ai : Model) (ui : Ui) : Ext Ui :=
  if JsString.falsy (scenarioTheme ui) then ret ui
  else
    outcome <- Suggestions.generateScenarioSuggestion ai (scenarioTheme ui) lang ;;
    let st1 := App.setError None (form ui) in
    ret {| form := match outcome with
                   | inl suggestion => setScenario suggestion st1
                   | inr message =>
                       App.setError (Some (or_else message (errorSuggestion T))) st1
                   end;
           scenarioTheme := scenarioTheme ui;
           isSuggesting := None;
           suggestingImageTouch := suggestingImageTouch ui |}.

(** [characters.find(c => c.id === characterId)]. *)
Definition findCharacter (id : jsstring) (cs : list Character.t)
  : option Character.t :=
  find (fun c => JsString.eqb (Character.id c) id) cs.

Definition handleImageTouchSuggestion (T : SuggestionText) (lang : Language)
           (ai : Model) (id : jsstring) (ui : Ui) : Ext Ui :=
  let needInfo :=
    ret {| form := App.setError (Some (errorCharacterInfoNeeded T)) (form ui);
           scenarioTheme := scenarioTheme ui;
           isSuggesting := isSuggesting ui;
           suggestingImageTouch := suggestingImageTouch ui |} in
  match findCharacter id (App.characters (form ui)) with
  | None => needInfo
  | Some character =>
      if JsString.falsy (trim (Character.name character))
         || JsString.falsy (trim (Character.persona character))
      then needInfo
      else
        outcome <- Suggestions.generateImageTouchSuggestion ai
                     (Character.name character) (Character.persona character)
                     lang ;;
        let st1 := App.setError None (form ui) in
        ret {| form := match outcome with
                       | inl suggestion =>
                           handleCharacterChange id imageTouch suggestion st1
                       | inr message =>
                           App.setError
                             (Some (or_else message (errorSuggestion T))) st1
                       end;
               scenarioTheme := scenarioTheme ui;
               isSuggesting := isSuggesting ui;
               suggestingImageTouch := None |}
  end.

End Form.

(* ================================================================== *)
(** ** The output viewer of the later [App] *)

Module Viewer.





End Viewer.

(* ================================================================== *)
(** * Auxiliary definitions and sample inputs *)

(** The instruction texts [generatePrompt] sends to the model. *)
Definition instructionSent (ai : Model) (request : PromptRequest) : list jsstring :=
  map contents (calls (GeminiService.generatePrompt ai request)).

(** A character with a name and a persona. *)
Definition alice : Character.t :=
  {| Character.id := lit "char-1"; Character.name := lit "Alice";
     Character.persona := lit "a pilot"; Character.imageTouch := Some [] |}.

(** A dialogue whose only line has text and no character. *)
Definition unassignedLineRequest : DialogueRequest.t :=
  {| DialogueRequest.type := ONE_ON_ONE;
     DialogueRequest.scenario := lit "Take-off";
     DialogueRequest.characters := [alice];
     DialogueRequest.script :=
       [ {| ScriptLine.id := lit "line-1"; ScriptLine.characterId := [];
            ScriptLine.line := lit "Hello"; ScriptLine.emotion := [];
            ScriptLine.tone := [] |} ];
     DialogueRequest.duration := Some [] |}.

(** A dialogue whose only line is two spaces, assigned to the character. *)
Definition spacesLineRequest : DialogueRequest.t :=
  {| DialogueRequest.type := ONE_ON_ONE;
     DialogueRequest.scenario := lit "Take-off";
     DialogueRequest.characters := [alice];
     DialogueRequest.script :=
       [ {| ScriptLine.id := lit "line-1"; ScriptLine.characterId := lit "char-1";
            ScriptLine.line := lit "  "; ScriptLine.emotion := [];
            ScriptLine.tone := [] |} ];
     DialogueRequest.duration := Some [] |}.

(** A model that answers every call with an empty object. *)
Definition emptyObjectModel : Model := fun _ => Resolved (Some (lit "{}")).

(** A dialogue form with one valid character and one line. *)
Definition formWithLine (l : ScriptLine.t) : App.State :=
  {| App.speechType := ONE_ON_ONE; App.scenario := lit "Take-off";
     App.duration := []; App.persona := []; App.emotion := []; App.tone := [];
     App.environment := []; App.characters := [alice]; App.script := [l];
     App.generatedPrompt := None; App.isLoading := false; App.error := None |}.

(** A line of text for the character [characterId]. *)
Definition helloLine (characterId : jsstring) : ScriptLine.t :=
  {| ScriptLine.id := lit "line-1"; ScriptLine.characterId := characterId;
     ScriptLine.line := lit "Hello"; ScriptLine.emotion := lit "calm";
     ScriptLine.tone := [] |}.

(** The dialogue of one character with the script given. *)
Definition requestWithScript (script : list ScriptLine.t) : DialogueRequest.t :=
  {| DialogueRequest.type := ONE_ON_ONE;
     DialogueRequest.scenario := lit "Take-off";
     DialogueRequest.characters := [alice];
     DialogueRequest.script := script;
     DialogueRequest.duration := Some [] |}.

(** [containsb s t]: [t] occurs in [s]. *)
Fixpoint containsb (s t : jsstring) : bool :=
  startsWith s t || match s with [] => false | _ :: s' => containsb s' t end.

(** A script with a line of text and a line of two spaces. *)
Definition helloAndSpaces : DialogueRequest.t :=
  requestWithScript
    [ helloLine (lit "char-1");
      {| ScriptLine.id := lit "line-2"; ScriptLine.characterId := lit "char-1";
         ScriptLine.line := lit "  "; ScriptLine.emotion := lit "tense";
         ScriptLine.tone := lit "whisper" |} ].

(** The same dialogue request without the script lines whose text is
    white space only. *)
Definition withoutBlankLines (r : DialogueRequest.t) : DialogueRequest.t :=
  {| DialogueRequest.type := DialogueRequest.type r;
     DialogueRequest.scenario := DialogueRequest.scenario r;
     DialogueRequest.characters := DialogueRequest.characters r;
     DialogueRequest.script :=
       filter (fun l => negb (forallb isWhiteSpace (ScriptLine.line l)))
              (DialogueRequest.script r);
     DialogueRequest.duration := DialogueRequest.duration r |}.

(** The whole number a run of decimal digits denotes. *)
Definition digitsStep (a : Z) (c : char) : Z := 10 * a + (Z.of_N c - 48).

Definition digitsValue (ds : jsstring) : Z := fold_left digitsStep ds 0.

(** A decimal numeral: digits, the first of which is not zero. *)
Definition numeral (ds : jsstring) : bool :=
  forallb isDigit ds
  && match ds with c :: _ => negb (N.eqb c 48) | [] => false end.

(** What follows is not a digit. *)
Definition noDigitNext (rest : jsstring) : Prop :=
  match rest with c :: _ => isDigit c = false | [] => True end.

(** The text [d] reads as the numeral [num]: white space, then an
    optional plus sign, zeros, the numeral, and no further digit. *)
Definition ReadsNumeral (d num : jsstring) : Prop :=
  exists ws sign zs rest,
    d = ws ++ sign ++ zs ++ num ++ rest
    /\ forallb isWhiteSpace ws = true
    /\ (sign = [] \/ sign = lit "+")
    /\ forallb (N.eqb 48) zs = true
    /\ numeral num = true
    /\ noDigitNext rest.

(** The text reads as no number above zero: it is white space only; or
    after the white space comes a minus sign, a plus sign that no digit
    follows, a character that is neither a sign nor a digit, or a run of
    zeros that no further digit follows. *)
Inductive ReadsNoPositive : jsstring -> Prop :=
| reads_nothing ws :
    forallb isWhiteSpace ws = true -> ReadsNoPositive ws
| reads_minus ws tail :
    forallb isWhiteSpace ws = true -> ReadsNoPositive (ws ++ lit "-" ++ tail)
| reads_plus ws tail :
    forallb isWhiteSpace ws = true -> noDigitNext tail ->
    ReadsNoPositive (ws ++ lit "+" ++ tail)
| reads_other ws c tail :
    forallb isWhiteSpace ws = true ->
    isWhiteSpace c = false -> isDigit c = false -> c <> 43%N -> c <> 45%N ->
    ReadsNoPositive (ws ++ c :: tail)
| reads_zero ws sign zs tail :
    forallb isWhiteSpace ws = true ->
    sign = [] \/ sign = lit "+" ->
    zs <> [] -> forallb (N.eqb 48) zs = true -> noDigitNext tail ->
    ReadsNoPositive (ws ++ sign ++ zs ++ tail).

(** The same narration request with [duration] undefined. *)
Definition withoutDuration (r : NarrationRequest.t) : NarrationRequest.t :=
  {| NarrationRequest.scenario := NarrationRequest.scenario r;
     NarrationRequest.persona := NarrationRequest.persona r;
     NarrationRequest.emotion := NarrationRequest.emotion r;
     NarrationRequest.tone := NarrationRequest.tone r;
     NarrationRequest.environment := NarrationRequest.environment r;
     NarrationRequest.duration := None |}.

(** The narration of a stormy night, with the duration given. *)
Definition stormyNight (duration : option jsstring) : NarrationRequest.t :=
  {| NarrationRequest.scenario := lit "A stormy night at sea";
     NarrationRequest.persona := lit "weary sailor";
     NarrationRequest.emotion := lit "dread";
     NarrationRequest.tone := lit "hushed";
     NarrationRequest.environment := lit "ship deck";
     NarrationRequest.duration := duration |}.

(** [s] between double quotes. *)
Definition quoted (s : jsstring) : jsstring := quote ++ s ++ quote.

(** The error body [{"error":{"message":m}}]. *)
Definition errorBody (m : jsstring) : jsstring :=
  template [ lit "{"; quoted (lit "error"); lit ":{"; quoted (lit "message");
             lit ":"; quoted m; lit "}}" ].

(** A localisation table. *)
Definition englishText : UiText :=
  {| errorCharacterNeeded := lit "Please add at least one character.";
     errorUnexpected := lit "An unexpected error occurred.";
     geminiErrorPrefix := lit "Gemini API error" |}.

(** [v] is an object with an own property [k]. *)
Definition hasProperty (v : Json.value) (k : jsstring) : bool :=
  match v with
  | Json.JObject ms =>
      match Json.lookup k ms with Some _ => true | None => false end
  | _ => false
  end.

(** A response with a scenario and no integrated text. *)
Definition partialResponse : jsstring :=
  template [ lit " {"; quoted (lit "scenario"); lit ": "; quoted (lit "storm");
             lit "} " ].

(** A response with an empty integrated text. *)
Definition emptyIntegratedResponse : jsstring :=
  template [ lit "{"; quoted (lit "integrated_text"); lit ":"; quoted [];
             lit "}" ].

(** A character as the form holds it. *)
Definition blankCharacter (id name persona : jsstring) : Character.t :=
  {| Character.id := id; Character.name := name; Character.persona := persona;
     Character.imageTouch := Some [] |}.

(** The dialogue form with two characters, the second without name or
    persona, and one unassigned line. *)
Definition freshDialogueForm (name persona : jsstring) : App.State :=
  {| App.speechType := ONE_ON_ONE; App.scenario := lit "Take-off";
     App.duration := []; App.persona := []; App.emotion := []; App.tone := [];
     App.environment := [];
     App.characters := [ blankCharacter (lit "char-1") name persona;
                         blankCharacter (lit "char-2") [] [] ];
     App.script := [ helloLine [] ];
     App.generatedPrompt := None; App.isLoading := false; App.error := None |}.

(** Every line that names a character names one of the form. *)
Definition noDanglingReference (st : App.State) : Prop :=
  forall l, In l (App.script st) ->
            ScriptLine.characterId l <> [] ->
            exists c, In c (App.characters st)
                      /\ Character.id c = ScriptLine.characterId l.

(** Alice and Bob, a line for each and one unassigned. *)
Definition twoCharacterForm : App.State :=
  {| App.speechType := MULTI; App.scenario := lit "Take-off";
     App.duration := []; App.persona := []; App.emotion := []; App.tone := [];
     App.environment := [];
     App.characters := [ blankCharacter (lit "char-1") (lit "Alice") (lit "a pilot");
                         blankCharacter (lit "char-2") (lit "Bob") (lit "a mechanic") ];
     App.script := [ helloLine (lit "char-1"); helloLine (lit "char-2");
                     helloLine [] ];
     App.generatedPrompt := None; App.isLoading := false; App.error := None |}.

(** The same dialogue request with [duration] undefined. *)
Definition withoutDialogueDuration (r : DialogueRequest.t) : DialogueRequest.t :=
  {| DialogueRequest.type := DialogueRequest.type r;
     DialogueRequest.scenario := DialogueRequest.scenario r;
     DialogueRequest.characters := DialogueRequest.characters r;
     DialogueRequest.script := DialogueRequest.script r;
     DialogueRequest.duration := None |}.

(** The dialogue of Alice with the script and the duration given. *)
Definition timedRequest (script : list ScriptLine.t) (duration : jsstring)
  : DialogueRequest.t :=
  {| DialogueRequest.type := MULTI;
     DialogueRequest.scenario := lit "Take-off";
     DialogueRequest.characters := [alice];
     DialogueRequest.script := script;
     DialogueRequest.duration := Some duration |}.

(** The entry of a script line up to the closing quote. *)
Definition spokenBy (speaker : jsstring) (l : ScriptLine.t) : jsstring :=
  speaker ++ lit ": " ++ quote ++ ScriptLine.line l ++ quote.

(** A form in which Bob has a name but no persona, with a line for him. *)
Definition formWithNamelessPersona : App.State :=
  {| App.speechType := MULTI; App.scenario := lit "Take-off";
     App.duration := []; App.persona := []; App.emotion := []; App.tone := [];
     App.environment := [];
     App.characters := [ blankCharacter (lit "char-1") (lit "Alice") (lit "a pilot");
                         blankCharacter (lit "char-2") (lit "Bob") (lit "  ") ];
     App.script := [ helloLine (lit "char-2") ];
     App.generatedPrompt := None; App.isLoading := false; App.error := None |}.

(** A string that neither starts nor ends with white space. *)
Definition trimmed (s : jsstring) : Prop := trim s = s.

(** A model that answers every call with the text given. *)
Definition answering (text : jsstring) : Model := fun _ => Resolved (Some text).

(** The fields of the form that the user fills in. *)
Definition sameInputs (a b : App.State) : Prop :=
  App.speechType a = App.speechType b
  /\ App.scenario a = App.scenario b
  /\ App.duration a = App.duration b
  /\ App.persona a = App.persona b
  /\ App.emotion a = App.emotion b
  /\ App.tone a = App.tone b
  /\ App.environment a = App.environment b
  /\ App.characters a = App.characters b
  /\ App.script a = App.script b.

(** A narration form with nothing filled in. *)
Definition emptyNarrationForm : App.State :=
  {| App.speechType := NARRATION; App.scenario := []; App.duration := [];
     App.persona := []; App.emotion := []; App.tone := [];
     App.environment := []; App.characters := []; App.script := [];
     App.generatedPrompt := None; App.isLoading := false; App.error := None |}.

(** The entries of a localisation table for the suggestions. *)
Definition englishSuggestionText : SuggestionText :=
  {| errorSuggestion := lit "Could not get a suggestion.";
     errorCharacterInfoNeeded := lit "Enter a name and a persona first." |}.

(** The form of Alice and Bob with a theme typed in. *)
Definition themedUi (theme : jsstring) : Form.Ui :=
  {| Form.form := twoCharacterForm; Form.scenarioTheme := theme;
     Form.isSuggesting := None; Form.suggestingImageTouch := None |}.

(** A character that a JSON string holds as it is: not a quotation mark,
    not a reverse solidus, not a control character. *)
Definition plainChar (c : char) : bool :=
  negb (N.eqb c 34) && negb (N.eqb c 92) && negb (c <? 32)%N.

(** A model that rejects every call with the [Error] given. *)
Definition rejecting (message : jsstring) : Model :=
  fun _ => Rejected (JsError message).

(** The code units of an error body before its message. *)
Definition errorBodyOpening : jsstring :=
  Eval vm_compute in
    lit "{" ++ quote ++ lit "error" ++ quote ++ lit ":{" ++ quote
      ++ lit "message" ++ quote ++ lit ":" ++ quote.



(* ================================================================== *)
(** * Properties *)

(** ** Numbers *)

(** What [parseInt] reads. *)
Example parseInt_digits : parseInt (lit "30") 10 = Number.of_Z 30.
Proof. vm_compute. reflexivity. Qed.

Example parseInt_prefix :
  parseInt (lit "  12abc") 10 = Number.of_Z 12
  /\ parseInt (lit "3.7") 10 = Number.of_Z 3
  /\ parseInt (lit "0.5") 10 = Number.of_Z 0
  /\ parseInt (lit "-5") 10 = Number.of_Z (-5).
Proof. vm_compute. repeat split. Qed.

Example parseInt_NaN :
  parseInt (lit "abc") 10 = Number.NaN /\ parseInt [] 10 = Number.NaN.
Proof. vm_compute. repeat split. Qed.

(** Printed forms of some Numbers, as any engine prints them. *)
Example toString_30 : Number.toString (Number.of_Z 30) = lit "30".
Proof. vm_compute. reflexivity. Qed.

(** Every whole number of seconds up to an hour prints as its decimal
    digits. *)
Example toString_seconds :
  forallb (fun n => JsString.eqb (Number.toString (Number.of_Z (Z.of_nat n)))
                                 (decimal (N.of_nat n)))
          (seq 1 3600) = true.
Proof. vm_compute. reflexivity. Qed.

Example toString_1e21 :
  Number.toString (Number.of_decimal false 1 21) = lit "1e+21".
Proof. vm_compute. reflexivity. Qed.

Example toString_tenth :
  Number.toString (Number.of_decimal false 1 (-1)) = lit "0.1".
Proof. vm_compute. reflexivity. Qed.

Example toString_rounded :
  Number.toString (Number.of_Z 123456789012345678901) = lit "123456789012345680000".
Proof. vm_compute. reflexivity. Qed.

Example toString_small :
  Number.toString (Number.of_decimal false 1 (-7)) = lit "1e-7".
Proof. vm_compute. reflexivity. Qed.

(** ** Decimal numerals *)

Lemma lit_cons (c : ascii) (s : string) : lit (String c s) = N_of_ascii c :: lit s.
Proof. reflexivity. Qed.

Lemma fold_digits_acc (ds : jsstring) (a : Z) :
  fold_left digitsStep ds a
  = a * 10 ^ Z.of_nat (List.length ds) + fold_left digitsStep ds 0.
Proof.
  revert a. induction ds as [|c ds IH]; intros a.
  - cbn. lia.
  - cbn [fold_left List.length]. rewrite IH, (IH (digitsStep 0 c)).
    rewrite Nat2Z.inj_succ, Z.pow_succ_r by lia. unfold digitsStep. ring.
Qed.

Lemma isDigit_range (c : char) :
  isDigit c = true <-> 0 <= Z.of_N c - 48 <= 9.
Proof.
  unfold isDigit. rewrite andb_true_iff, !N.leb_le. lia.
Qed.

Lemma digitsValue_cons (c : char) (ds : jsstring) :
  digitsValue (c :: ds)
  = (Z.of_N c - 48) * 10 ^ Z.of_nat (List.length ds) + digitsValue ds.
Proof.
  unfold digitsValue. cbn [fold_left]. rewrite fold_digits_acc.
  unfold digitsStep. f_equal.
Qed.

Lemma digitsValue_app (a b : jsstring) :
  digitsValue (a ++ b)
  = digitsValue a * 10 ^ Z.of_nat (List.length b) + digitsValue b.
Proof.
  unfold digitsValue. rewrite fold_left_app. apply fold_digits_acc.
Qed.

Lemma digitsValue_bounds (ds : jsstring) :
  forallb isDigit ds = true ->
  0 <= digitsValue ds < 10 ^ Z.of_nat (List.length ds).
Proof.
  induction ds as [|c ds IH]; [cbn; lia|].
  cbn [forallb]. rewrite andb_true_iff, isDigit_range. intros (Hc & Hd).
  specialize (IH Hd). rewrite digitsValue_cons.
  cbn [List.length]. rewrite Nat2Z.inj_succ, Z.pow_succ_r by lia. nia.
Qed.

Lemma numeral_bounds (ds : jsstring) :
  numeral ds = true ->
  10 ^ (Z.of_nat (List.length ds) - 1) <= digitsValue ds
  < 10 ^ Z.of_nat (List.length ds).
Proof.
  unfold numeral. destruct ds as [|c ds]; [rewrite andb_false_r; discriminate|].
  rewrite andb_true_iff, negb_true_iff, N.eqb_neq. intros (Hd & Hc).
  split; [|now apply digitsValue_bounds].
  cbn [forallb] in Hd. apply andb_true_iff in Hd. destruct Hd as (Hc' & Hd).
  apply isDigit_range in Hc'. pose proof (digitsValue_bounds ds Hd) as Hb.
  rewrite digitsValue_cons. cbn [List.length].
  replace (Z.of_nat (S (List.length ds)) - 1) with (Z.of_nat (List.length ds)) by lia.
  assert (1 <= Z.of_N c - 48) by lia. nia.
Qed.

Lemma digits_equal (a b : jsstring) :
  List.length a = List.length b ->
  forallb isDigit a = true -> forallb isDigit b = true ->
  digitsValue a = digitsValue b -> a = b.
Proof.
  revert b. induction a as [|x a IH]; intros [|y b]; try discriminate; [reflexivity|].
  cbn [List.length forallb]. rewrite !andb_true_iff, !isDigit_range.
  intros [= Hl] (Hx & Ha) (Hy & Hb). rewrite !digitsValue_cons, Hl.
  pose proof (digitsValue_bounds a Ha) as Ba.
  pose proof (digitsValue_bounds b Hb) as Bb. rewrite Hl in Ba.
  intros E.
  assert (Z.of_N x - 48 = Z.of_N y - 48) by nia.
  assert (digitsValue a = digitsValue b) by nia.
  f_equal; [lia | auto].
Qed.

Lemma numeral_digits (ds : jsstring) : numeral ds = true -> forallb isDigit ds = true.
Proof. unfold numeral. now rewrite andb_true_iff. Qed.

(** A number has one decimal numeral. *)
Lemma numeral_unique (a b : jsstring) :
  numeral a = true -> numeral b = true ->
  digitsValue a = digitsValue b -> a = b.
Proof.
  intros Ha Hb E.
  pose proof (numeral_bounds a Ha) as Ba. pose proof (numeral_bounds b Hb) as Bb.
  apply digits_equal; auto using numeral_digits.
  rewrite E in Ba.
  assert (H1 : ~ (Z.of_nat (List.length a) < Z.of_nat (List.length b))).
  { intros H.
    assert (10 ^ Z.of_nat (List.length a) <= 10 ^ (Z.of_nat (List.length b) - 1))
      by (apply Z.pow_le_mono_r; lia). lia. }
  assert (H2 : ~ (Z.of_nat (List.length b) < Z.of_nat (List.length a))).
  { intros H.
    assert (10 ^ Z.of_nat (List.length b) <= 10 ^ (Z.of_nat (List.length a) - 1))
      by (apply Z.pow_le_mono_r; lia). lia. }
  lia.
Qed.

(** The digits [decimal] prints. *)
Lemma of_uint_acc_value (u : Decimal.uint) (acc : positive) :
  Z.pos (Pos.of_uint_acc u acc)
  = fold_left digitsStep (lit (NilEmpty.string_of_uint u)) (Z.pos acc).
Proof.
  revert acc. induction u as [|u IH|u IH|u IH|u IH|u IH|u IH|u IH|u IH|u IH|u IH];
    intros acc; [reflexivity|..];
    cbn [NilEmpty.string_of_uint Pos.of_uint_acc]; rewrite lit_cons;
    cbn [fold_left]; rewrite IH; f_equal; unfold digitsStep;
    cbn [N_of_ascii N_of_digits]; lia.
Qed.

Lemma of_uint_value (u : Decimal.uint) :
  Z.of_N (Pos.of_uint u) = digitsValue (lit (NilEmpty.string_of_uint u)).
Proof.
  unfold digitsValue.
  induction u as [|u IH|u IH|u IH|u IH|u IH|u IH|u IH|u IH|u IH|u IH];
    [reflexivity|exact IH|..];
    cbn [NilEmpty.string_of_uint Pos.of_uint]; rewrite lit_cons;
    cbn [fold_left N2Z.inj Z.of_N]; rewrite of_uint_acc_value; reflexivity.
Qed.

Lemma uint_digits (u : Decimal.uint) :
  forallb isDigit (lit (NilEmpty.string_of_uint u)) = true.
Proof.
  induction u; [reflexivity|..];
    cbn [NilEmpty.string_of_uint]; rewrite lit_cons; cbn [forallb];
    rewrite IHu; reflexivity.
Qed.

Lemma decimal_numeral (p : positive) :
  numeral (decimal (Npos p)) = true /\ digitsValue (decimal (Npos p)) = Z.pos p.
Proof.
  unfold decimal. cbn [N.to_uint].
  pose proof (DecimalPos.Unsigned.of_to p) as Hof.
  pose proof (DecimalPos.Unsigned.to_of (Pos.to_uint p)) as Hto.
  rewrite Hof in Hto. cbn [N.to_uint] in Hto.
  pose proof (DecimalPos.Unsigned.to_uint_nonzero p) as Hz.
  pose proof (DecimalPos.Unsigned.to_uint_nonnil p) as Hn.
  assert (Hh : Pos.to_uint p = Decimal.nzhead (Pos.to_uint p)).
  { rewrite Hto at 1. apply DecimalFacts.unorm_nzhead.
    intros E. apply Hz. rewrite Hto. unfold Decimal.unorm. now rewrite E. }
  pose proof (DecimalFacts.nzhead_nonzero (Pos.to_uint p)) as Hd.
  rewrite <- Hh in Hd.
  assert (E : NilZero.string_of_uint (Pos.to_uint p)
              = NilEmpty.string_of_uint (Pos.to_uint p)).
  { destruct (Pos.to_uint p); [congruence | reflexivity..]. }
  rewrite E. split.
  - unfold numeral. rewrite uint_digits.
    destruct (Pos.to_uint p) as [|u|u|u|u|u|u|u|u|u|u];
      [congruence | exfalso; apply (Hd u); reflexivity | reflexivity..].
  - rewrite <- of_uint_value, Hof. reflexivity.
Qed.

(** [decimal] gives the numeral of a positive number. *)
Lemma decimal_unique (ds : jsstring) :
  numeral ds = true -> 0 < digitsValue ds ->
  decimal (Z.to_N (digitsValue ds)) = ds.
Proof.
  intros H Hp. destruct (digitsValue ds) as [|p|p] eqn:E; try lia.
  cbn [Z.to_N]. destruct (decimal_numeral p) as (Hn & Hv).
  apply numeral_unique; auto. congruence.
Qed.

(** ** Whole numbers below 2^53 *)

Lemma round_half_even_1 (x : Z) : Number.round_half_even x 1 = x.
Proof.
  unfold Number.round_half_even. rewrite Z.mod_1_r, Z.div_1_r. reflexivity.
Qed.

Lemma log2_below_53 (v : Z) :
  0 < v < 2 ^ 53 ->
  0 <= Z.log2 v <= 52
  /\ 2 ^ Z.log2 v <= v < 2 ^ (Z.log2 v + 1)
  /\ 0 < 2 ^ (52 - Z.log2 v)
  /\ 2 ^ (Z.log2 v + 1) * 2 ^ (52 - Z.log2 v) = 2 ^ 53
  /\ 2 ^ Z.log2 v * 2 ^ (52 - Z.log2 v) = 2 ^ 52.
Proof.
  intros H. pose proof (Z.log2_nonneg v) as H0.
  assert (H1 : Z.log2 v < 53) by (apply Z.log2_lt_pow2; lia).
  pose proof (Z.log2_spec v ltac:(lia)) as H2.
  replace (Z.succ (Z.log2 v)) with (Z.log2 v + 1) in H2 by lia.
  split; [lia|]. split; [lia|]. split; [apply Z.pow_pos_nonneg; lia|].
  split; rewrite <- Z.pow_add_r by lia; f_equal; lia.
Qed.

Lemma floor_log2_integer (v : Z) : 0 < v -> Number.floor_log2 v 1 = Z.log2 v.
Proof.
  intros H. unfold Number.floor_log2. change (Z.log2 1) with 0.
  rewrite Z.sub_0_r. pose proof (Z.log2_nonneg v) as H0.
  pose proof (Z.log2_spec v H) as H2.
  rewrite (proj2 (Z.leb_le 0 _) H0).
  rewrite (proj2 (Z.leb_le (1 * 2 ^ Z.log2 v) v)) by lia. reflexivity.
Qed.

(** The Number of a whole number below 2^53 is that number. *)
Lemma of_ratio_integer (v : Z) :
  0 < v < 2 ^ 53 ->
  Number.of_ratio false v 1
  = Number.Finite false (v * 2 ^ (52 - Z.log2 v)) (Z.log2 v - 52).
Proof.
  intros H. destruct (log2_below_53 v H) as (HL & Hv & HP & E53 & E52).
  unfold Number.of_ratio.
  rewrite (proj2 (Z.eqb_neq v 0)) by lia.
  rewrite floor_log2_integer by lia.
  rewrite Z.max_l by lia.
  assert (M : (if 0 <=? Z.log2 v - 52
               then Number.round_half_even v (1 * 2 ^ (Z.log2 v - 52))
               else Number.round_half_even (v * 2 ^ (- (Z.log2 v - 52))) 1)
              = v * 2 ^ (52 - Z.log2 v)).
  { destruct (Z.leb_spec 0 (Z.log2 v - 52)).
    - replace (Z.log2 v - 52) with 0 by lia.
      replace (52 - Z.log2 v) with 0 by lia.
      change (1 * 2 ^ 0) with 1. rewrite round_half_even_1.
      change (2 ^ 0) with 1. lia.
    - rewrite round_half_even_1. f_equal. f_equal. lia. }
  rewrite M.
  assert (B : 2 ^ 52 <= v * 2 ^ (52 - Z.log2 v) < 2 ^ 53) by nia.
  rewrite (proj2 (Z.eqb_neq _ (2 ^ 53))) by lia.
  rewrite (proj2 (Z.ltb_ge 971 _)) by lia.
  rewrite (proj2 (Z.eqb_neq _ 0)) by lia.
  reflexivity.
Qed.

Lemma round_half_even_bounds (n d : Z) :
  n / d <= Number.round_half_even n d <= n / d + 1.
Proof.
  unfold Number.round_half_even.
  destruct (2 * (n mod d) ?= d); [destruct (Z.even (n / d))|..]; lia.
Qed.

(** Whether the Number of a whole number [v] is the one of [n]. *)
Lemma same_value_integer (n v : Z) :
  0 < n < 2 ^ 53 -> 0 <= v < 2 ^ 54 ->
  Number.same_value (Number.of_ratio false v 1)
                    (n * 2 ^ (52 - Z.log2 n)) (Z.log2 n - 52)
  = (v =? n).
Proof.
  intros Hn Hv. destruct (log2_below_53 n Hn) as (HL & Hb & HP & E53 & E52).
  assert (Bn : 2 ^ 52 <= n * 2 ^ (52 - Z.log2 n) < 2 ^ 53) by nia.
  destruct (Z.eq_dec v 0) as [->|Hv0].
  { change (Number.of_ratio false 0 1) with (Number.Finite false 0 0).
    cbn [Number.same_value].
    rewrite (proj2 (Z.leb_le _ 0)) by lia.
    rewrite (proj2 (Z.eqb_neq 0 n)) by lia.
    apply Z.eqb_neq. lia. }
  destruct (Z.lt_ge_cases v (2 ^ 53)) as [Hlt|Hge].
  - rewrite of_ratio_integer by lia.
    destruct (log2_below_53 v ltac:(lia)) as (HL' & Hb' & HP' & E53' & E52').
    cbn [Number.same_value].
    destruct (Z.leb_spec (Z.log2 n - 52) (Z.log2 v - 52)).
    + replace (Z.log2 v - 52 - (Z.log2 n - 52)) with (Z.log2 v - Z.log2 n) by lia.
      rewrite <- Z.mul_assoc, <- Z.pow_add_r by lia.
      replace (52 - Z.log2 v + (Z.log2 v - Z.log2 n)) with (52 - Z.log2 n) by lia.
      destruct (Z.eqb_spec v n) as [->|Hne]; [apply Z.eqb_refl|].
      apply Z.eqb_neq. nia.
    + replace (Z.log2 n - 52 - (Z.log2 v - 52)) with (Z.log2 n - Z.log2 v) by lia.
      rewrite <- Z.mul_assoc, <- Z.pow_add_r by lia.
      replace (52 - Z.log2 n + (Z.log2 n - Z.log2 v)) with (52 - Z.log2 v) by lia.
      destruct (Z.eqb_spec v n) as [->|Hne]; [apply Z.eqb_refl|].
      apply Z.eqb_neq. nia.
  - rewrite (proj2 (Z.eqb_neq v n)) by lia.
    assert (L : Z.log2 v = 53).
    { apply Z.log2_unique; [lia|]. change (2 ^ (53 + 1)) with (2 ^ 54). lia. }
    unfold Number.of_ratio.
    rewrite (proj2 (Z.eqb_neq v 0)) by lia.
    rewrite floor_log2_integer, L by lia.
    change (Z.max (53 - 52) (-1074)) with 1.
    change (0 <=? 1) with true. cbv iota. change (1 * 2 ^ 1) with 2.
    pose proof (round_half_even_bounds v 2) as Hr.
    set (m := Number.round_half_even v 2) in *.
    assert (Hq : 2 ^ 52 <= v / 2).
    { apply Z.div_le_lower_bound; [lia|]. change (2 * 2 ^ 52) with (2 ^ 53). lia. }
    assert (Hq' : v / 2 < 2 ^ 53).
    { apply Z.div_lt_upper_bound; [lia|]. change (2 * 2 ^ 53) with (2 ^ 54). lia. }
    assert (S : forall m' e', 2 ^ 52 <= m' -> 1 <= e' ->
                Number.same_value (Number.Finite false m' e')
                  (n * 2 ^ (52 - Z.log2 n)) (Z.log2 n - 52) = false).
    { intros m' e' Hm He. cbn [Number.same_value].
      rewrite (proj2 (Z.leb_le _ e')) by lia. apply Z.eqb_neq.
      assert (2 <= 2 ^ (e' - (Z.log2 n - 52))).
      { change 2 with (2 ^ 1) at 1. apply Z.pow_le_mono_r; lia. }
      change (2 ^ 53) with (2 * 2 ^ 52) in Bn. nia. }
    destruct (Z.eqb_spec m (2 ^ 53)).
    + change (971 <? 1 + 1) with false. cbv iota.
      change (2 ^ 52 =? 0) with false. cbv iota. apply S; lia.
    + change (971 <? 1) with false. cbv iota.
      rewrite (proj2 (Z.eqb_neq m 0)) by lia. apply S; lia.
Qed.

Lemma pow10_pos (p : Z) : 0 <= p -> 0 < 10 ^ p.
Proof. intros. apply Z.pow_pos_nonneg; lia. Qed.

Lemma pow10_15 (p : Z) : 0 <= p <= 15 -> 10 ^ p <= 10 ^ 15.
Proof. intros. apply Z.pow_le_mono_r; lia. Qed.

(** The fraction [Number.toString] and [Number.digits_at] work on, for
    the Number of a whole number [n] below 2^53: [n] over one, both scaled
    by a power of two. *)
Lemma whole_num (n : Z) :
  0 < n < 2 ^ 53 ->
  (if 0 <=? Z.log2 n - 52
   then n * 2 ^ (52 - Z.log2 n) * 2 ^ (Z.log2 n - 52)
   else n * 2 ^ (52 - Z.log2 n)) = n * 2 ^ (52 - Z.log2 n).
Proof.
  intros n_safe. destruct (log2_below_53 n n_safe) as (HL & _).
  destruct (Z.leb_spec 0 (Z.log2 n - 52)); [|reflexivity].
  replace (Z.log2 n - 52) with 0 by lia. change (2 ^ 0) with 1. lia.
Qed.

Lemma whole_den (n : Z) :
  0 < n < 2 ^ 53 ->
  (if 0 <=? Z.log2 n - 52 then 1 else 2 ^ (- (Z.log2 n - 52))) = 2 ^ (52 - Z.log2 n).
Proof.
  intros n_safe. destruct (log2_below_53 n n_safe) as (HL & _).
  destruct (Z.leb_spec 0 (Z.log2 n - 52)).
  - replace (52 - Z.log2 n) with 0 by lia. reflexivity.
  - f_equal. lia.
Qed.

(** With [k] digits: the digits of [n] above its last [D - k], when
    those are zeros. *)
Lemma digits_at_integer (n D k : Z) :
  0 < n < 2 ^ 53 -> 1 <= D <= 16 -> 10 ^ (D - 1) <= n < 10 ^ D ->
  1 <= k <= D ->
  Number.digits_at (n * 2 ^ (52 - Z.log2 n)) (Z.log2 n - 52) D k
  = if n / 10 ^ (D - k) * 10 ^ (D - k) =? n
    then Some (n / 10 ^ (D - k)) else None.
Proof.
  intros n_safe D_range n_digits Hk.
  destruct (log2_below_53 n n_safe) as (HL & Hb & HP & _).
  unfold Number.digits_at. cbv zeta. rewrite !whole_num, !whole_den by assumption.
  set (p := D - k). assert (Hp : 0 <= p <= 15) by (unfold p; lia).
  rewrite (proj2 (Z.leb_le 0 p)) by lia. cbv iota.
  pose proof (pow10_pos p ltac:(lia)) as H10.
  pose proof (pow10_15 p Hp) as H15.
  assert (Hdiv : n * 2 ^ (52 - Z.log2 n) / (2 ^ (52 - Z.log2 n) * 10 ^ p)
                 = n / 10 ^ p)
    by (rewrite (Z.mul_comm n), Z.div_mul_cancel_l; lia).
  rewrite !Hdiv. clear Hdiv.
  set (lo := n / 10 ^ p).
  assert (Hlo : lo * 10 ^ p <= n < (lo + 1) * 10 ^ p).
  { pose proof (Z.div_mod n (10 ^ p) ltac:(lia)) as E.
    pose proof (Z.mod_pos_bound n (10 ^ p) H10) as B. fold lo in E. nia. }
  assert (H0 : 0 <= lo) by (apply Z.div_pos; lia).
  unfold Number.of_decimal. rewrite (proj2 (Z.leb_le 0 p)) by lia.
  change (2 ^ 53) with 9007199254740992 in n_safe.
  change (10 ^ 15) with 1000000000000000 in H15.
  rewrite !same_value_integer;
    try (change (2 ^ 54) with 18014398509481984;
         change (2 ^ 53) with 9007199254740992; nia).
  rewrite (proj2 (Z.eqb_neq ((lo + 1) * 10 ^ p) n)) by lia.
  destruct (lo * 10 ^ p =? n); reflexivity.
Qed.

Lemma shortest_least (m e D s kstar : Z) (j : nat) :
  forall fuel k,
    k + Z.of_nat j = kstar -> (j < fuel)%nat ->
    (forall i, k <= i < kstar -> Number.digits_at m e D i = None) ->
    Number.digits_at m e D kstar = Some s ->
    Number.shortest fuel m e D k = (s, kstar).
Proof.
  induction j as [|j IH]; intros fuel k Hk Hf Hnone Hsome.
  - destruct fuel as [|fuel]; [lia|]. cbn [Number.shortest].
    replace k with kstar by lia. now rewrite Hsome.
  - destruct fuel as [|fuel]; [lia|]. cbn [Number.shortest].
    rewrite Hnone by lia. apply IH; try lia; auto.
    intros i Hi. apply Hnone. lia.
Qed.

(** A positive number is a number that does not end in zero, followed by
    zeros. *)
Lemma trailing_zeros (b : nat) :
  forall n, 0 < n <= Z.of_nat b ->
            exists s t, 0 <= t /\ n = s * 10 ^ t /\ s mod 10 <> 0.
Proof.
  induction b as [|b IH]; intros n Hn; [lia|].
  destruct (Z.eq_dec (n mod 10) 0) as [E|E].
  - pose proof (Z.div_mod n 10 ltac:(lia)) as Hd. rewrite E in Hd.
    destruct (IH (n / 10) ltac:(lia)) as (s & t & Ht & Hs & Hm).
    exists s, (t + 1). split; [lia|]. split; [|exact Hm].
    rewrite Z.pow_add_r by lia. change (10 ^ 1) with 10. lia.
  - exists n, 0. split; [lia|]. split; [|exact E]. change (10 ^ 0) with 1. lia.
Qed.

Lemma decimal_size (b : nat) :
  forall n, 0 < n < 10 ^ Z.of_nat b ->
            exists D, 1 <= D <= Z.of_nat b /\ 10 ^ (D - 1) <= n < 10 ^ D.
Proof.
  induction b as [|b IH]; intros n Hn; [change (10 ^ Z.of_nat 0) with 1 in Hn; lia|].
  destruct (Z.lt_ge_cases n (10 ^ Z.of_nat b)) as [H|H].
  - destruct (IH n ltac:(lia)) as (D & HD & Hb). exists D. split; [lia | exact Hb].
  - exists (Z.of_nat (S b)). split; [lia|].
    replace (Z.of_nat (S b) - 1) with (Z.of_nat b) by lia. lia.
Qed.

Lemma lt_pow10_scaled (n den j : Z) :
  0 < n -> 0 < den ->
  Number.lt_pow10 (n * den) den j = (0 <=? j) && (n <? 10 ^ j).
Proof.
  intros Hn Hd. unfold Number.lt_pow10. destruct (Z.leb_spec 0 j); cbn [andb].
  - destruct (Z.ltb_spec n (10 ^ j)); [apply Z.ltb_lt | apply Z.ltb_ge]; nia.
  - apply Z.ltb_ge. pose proof (pow10_pos (- j) ltac:(lia)) as HP.
    assert (Hnd : den <= n * den) by nia.
    set (x := n * den) in *. nia.
Qed.

Lemma decimal_exponent_least (num den D : Z) (fuel : nat) :
  forall s,
    s <= D -> D - s <= Z.of_nat fuel ->
    (forall j, s <= j < D -> Number.lt_pow10 num den j = false) ->
    Number.lt_pow10 num den D = true ->
    Number.decimal_exponent fuel s num den = D.
Proof.
  induction fuel as [|fuel IH]; intros s Hs Hf Hlow Hat; cbn [Number.decimal_exponent].
  - lia.
  - destruct (Number.lt_pow10 num den s) eqn:E.
    + destruct (Z.eq_dec s D); [assumption|]. rewrite Hlow in E by lia. discriminate.
    + assert (s <> D) by congruence.
      apply IH; [lia | lia | | exact Hat].
      intros j Hj. apply Hlow. lia.
Qed.

Lemma floor_log2_scaled (n K : Z) :
  0 < n -> 0 <= K -> Number.floor_log2 (n * 2 ^ K) (2 ^ K) = Z.log2 n.
Proof.
  intros Hn HK. unfold Number.floor_log2.
  rewrite Z.log2_mul_pow2, Z.log2_pow2 by lia.
  replace (K + Z.log2 n - K) with (Z.log2 n) by lia.
  pose proof (Z.log2_nonneg n) as H0. pose proof (Z.log2_spec n Hn) as H2.
  rewrite (proj2 (Z.leb_le 0 _) H0).
  assert (0 < 2 ^ K) by (apply Z.pow_pos_nonneg; lia).
  rewrite (proj2 (Z.leb_le (2 ^ K * 2 ^ Z.log2 n) (n * 2 ^ K))) by nia.
  reflexivity.
Qed.

Ltac pow10_literals H :=
  match type of H with
  | 10 ^ ?a <= ?n < 10 ^ ?b =>
      let x := eval vm_compute in (10 ^ a) in
      let y := eval vm_compute in (10 ^ b) in
      change (x <= n < y) in H;
      let lx := eval vm_compute in (Z.log2 x) in
      let ly := eval vm_compute in (Z.log2 (y - 1)) in
      let H1 := fresh in let H2 := fresh in
      assert (H1 : lx <= Z.log2 n)
        by (change lx with (Z.log2 x); apply Z.log2_le_mono; lia);
      assert (H2 : Z.log2 n <= ly)
        by (change ly with (Z.log2 (y - 1)); apply Z.log2_le_mono; lia)
  end.

(** Where the search for the decimal exponent starts. *)
Lemma exponent_below_integer (n D : Z) :
  1 <= D <= 16 -> 10 ^ (D - 1) <= n < 10 ^ D ->
  D - 4 <= Z.log2 n * 30102 / 100000 - 1 <= D.
Proof.
  intros HD Hn.
  assert (C : D = 1 \/ D = 2 \/ D = 3 \/ D = 4 \/ D = 5 \/ D = 6 \/ D = 7 \/ D = 8
              \/ D = 9 \/ D = 10 \/ D = 11 \/ D = 12 \/ D = 13 \/ D = 14
              \/ D = 15 \/ D = 16) by lia.
  repeat (destruct C as [C|C]); subst D; pow10_literals Hn;
    Z.div_mod_to_equations; lia.
Qed.

Lemma repeat_zero (k : nat) :
  forallb isDigit (repeat 48%N k) = true /\ digitsValue (repeat 48%N k) = 0.
Proof.
  induction k as [|k (IH1 & IH2)]; [split; reflexivity|]. cbn [repeat forallb].
  split; [exact IH1|]. rewrite digitsValue_cons, IH2. reflexivity.
Qed.

Lemma pow10_unique (a b x : Z) :
  1 <= a -> 1 <= b ->
  10 ^ (a - 1) <= x < 10 ^ a -> 10 ^ (b - 1) <= x < 10 ^ b -> a = b.
Proof.
  intros Ha Hb Hx Hy.
  assert (H1 : ~ a < b).
  { intros H. assert (10 ^ a <= 10 ^ (b - 1)) by (apply Z.pow_le_mono_r; lia). lia. }
  assert (H2 : ~ b < a).
  { intros H. assert (10 ^ b <= 10 ^ (a - 1)) by (apply Z.pow_le_mono_r; lia). lia. }
  lia.
Qed.

(** The digits of [s] followed by [t] zeros are the digits of [s * 10^t]. *)
Lemma decimal_zeros (s t : Z) :
  0 < s -> 0 <= t ->
  decimal (Z.to_N s) ++ Number.zeros t = decimal (Z.to_N (s * 10 ^ t)).
Proof.
  intros Hs Ht. destruct s as [|p|p]; try lia. cbn [Z.to_N].
  destruct (decimal_numeral p) as (Hn & Hv).
  destruct (repeat_zero (Z.to_nat t)) as (Hz & Hz0).
  assert (V : digitsValue (decimal (N.pos p) ++ Number.zeros t) = Z.pos p * 10 ^ t).
  { rewrite digitsValue_app. unfold Number.zeros.
    rewrite Hz0, Hv, repeat_length, Z2Nat.id by lia. lia. }
  rewrite <- V. symmetry. apply decimal_unique.
  - unfold numeral in *. apply andb_true_iff in Hn. destruct Hn as (Hd & Hh).
    rewrite forallb_app, Hd. unfold Number.zeros. rewrite Hz.
    destruct (decimal (N.pos p)); [discriminate | exact Hh].
  - rewrite V. pose proof (pow10_pos t Ht). nia.
Qed.

Lemma decimal_length (s k : Z) :
  1 <= k -> 10 ^ (k - 1) <= s < 10 ^ k ->
  Z.of_nat (List.length (decimal (Z.to_N s))) = k.
Proof.
  intros Hk Hs. pose proof (pow10_pos (k - 1) ltac:(lia)) as Hp.
  destruct s as [|p|p]; try lia. cbn [Z.to_N].
  destruct (decimal_numeral p) as (Hn & Hv).
  pose proof (numeral_bounds _ Hn) as B. rewrite Hv in B.
  apply (pow10_unique _ _ (Z.pos p)); auto.
  unfold numeral in Hn. destruct (decimal (N.pos p)).
  - rewrite andb_false_r in Hn. discriminate.
  - cbn [List.length]. lia.
Qed.

(** A whole number below 2^53 is printed as its decimal digits. *)
Lemma toString_integer (n : Z) :
  0 < n < 2 ^ 53 ->
  Number.toString (Number.of_ratio false n 1) = decimal (Z.to_N n).
Proof.
  intros Hn.
  destruct (decimal_size 16 n) as (D & HD & HnD).
  { change (10 ^ Z.of_nat 16) with 10000000000000000.
    change (2 ^ 53) with 9007199254740992 in Hn. lia. }
  change (Z.of_nat 16) with 16 in HD.
  destruct (trailing_zeros (Z.to_nat n) n ltac:(lia)) as (s & t & Ht & Hs & Hm).
  pose proof (pow10_pos t Ht) as Pt.
  assert (Hs0 : 0 < s) by nia.
  assert (HtD : t <= D - 1).
  { destruct (Z.le_gt_cases t (D - 1)) as [H|H]; [exact H|].
    assert (10 ^ D <= 10 ^ t) by (apply Z.pow_le_mono_r; lia). nia. }
  assert (HsD : 10 ^ (D - t - 1) <= s < 10 ^ (D - t)).
  { assert (E1 : 10 ^ (D - 1) = 10 ^ (D - t - 1) * 10 ^ t)
      by (rewrite <- Z.pow_add_r by lia; f_equal; lia).
    assert (E2 : 10 ^ D = 10 ^ (D - t) * 10 ^ t)
      by (rewrite <- Z.pow_add_r by lia; f_equal; lia).
    rewrite E1, E2, Hs in HnD. nia. }
  destruct (log2_below_53 n Hn) as (HL & Hb & HP & _).
  rewrite of_ratio_integer by assumption. unfold Number.toString.
  rewrite (proj2 (Z.eqb_neq _ 0)) by nia. cbv zeta.
  rewrite !whole_num, !whole_den by assumption.
  unfold Number.exponent_below. rewrite floor_log2_scaled by lia.
  pose proof (exponent_below_integer n D HD HnD) as Hstart.
  rewrite (decimal_exponent_least _ _ D); cycle 1.
  { lia. }
  { change (Z.of_nat 4) with 4. lia. }
  { intros j Hj. rewrite lt_pow10_scaled by lia.
    destruct (Z.leb_spec 0 j); [|reflexivity]. cbn [andb]. apply Z.ltb_ge.
    assert (10 ^ j <= 10 ^ (D - 1)) by (apply Z.pow_le_mono_r; lia). lia. }
  { rewrite lt_pow10_scaled by lia. rewrite (proj2 (Z.leb_le 0 D)) by lia.
    apply Z.ltb_lt. lia. }
  rewrite (shortest_least _ _ D s (D - t) (Z.to_nat (D - t - 1))); cycle 1.
  { lia. }
  { apply Nat2Z.inj_lt. rewrite Z2Nat.id by lia. change (Z.of_nat 17) with 17. lia. }
  { intros i Hi. rewrite digits_at_integer by (assumption || lia).
    set (p := D - i). assert (Hp : t < p) by (unfold p; lia).
    rewrite (proj2 (Z.eqb_neq _ n)); [reflexivity|].
    intros E. apply Hm.
    assert (E10 : 10 ^ p = 10 ^ (p - t - 1) * 10 * 10 ^ t).
    { replace p with ((p - t - 1) + 1 + t) at 1 by lia.
      rewrite !Z.pow_add_r by lia. reflexivity. }
    set (q := n / 10 ^ p) in *.
    assert (Es : s = q * 10 ^ (p - t - 1) * 10).
    { apply (Z.mul_reg_r _ _ (10 ^ t)); [lia|].
      rewrite <- Hs, <- E, E10. ring. }
    rewrite Es. apply Z.mod_mul. lia. }
  { rewrite digits_at_integer by (assumption || lia).
    replace (D - (D - t)) with t by lia.
    rewrite Hs, Z.div_mul, Z.eqb_refl by lia. reflexivity. }
  cbv iota beta.
  assert (Hlt : s < 10 ^ (D - t)) by lia.
  rewrite !(proj2 (Z.eqb_neq s (10 ^ (D - t)))) by lia.
  cbn [app]. unfold Number.format.
  rewrite (decimal_length s (D - t)) by lia.
  rewrite (proj2 (Z.leb_le (D - t) D)), (proj2 (Z.leb_le D 21)) by lia.
  cbn [andb]. replace (D - (D - t)) with t by lia.
  rewrite decimal_zeros by lia. now rewrite <- Hs.
Qed.

(** ** Strings *)

Lemma eqb_eq (a b : jsstring) : JsString.eqb a b = true <-> a = b.
Proof.
  revert b; induction a as [|x a IH]; intros [|y b]; simpl;
    try (split; [discriminate | discriminate]); try tauto.
  rewrite andb_true_iff, N.eqb_eq, IH.
  split; [intros [-> ->]; reflexivity | intros [= -> ->]; auto].
Qed.

Lemma eqb_neq (a b : jsstring) : JsString.eqb a b = false <-> a <> b.
Proof.
  rewrite <- eqb_eq. destruct (JsString.eqb a b); split; congruence.
Qed.

Lemma eqb_refl (a : jsstring) : JsString.eqb a a = true.
Proof. apply eqb_eq; reflexivity. Qed.

Lemma trimStart_ws (ws s : jsstring) :
  forallb isWhiteSpace ws = true -> trimStart (ws ++ s) = trimStart s.
Proof.
  induction ws as [|c ws IH]; [reflexivity|]. cbn [forallb app trimStart].
  intros H. apply andb_true_iff in H. destruct H as (-> & H). auto.
Qed.

Lemma trimStart_all_ws (ws : jsstring) :
  forallb isWhiteSpace ws = true -> trimStart ws = [].
Proof.
  intros H. rewrite <- (app_nil_r ws). now rewrite trimStart_ws.
Qed.

Lemma forallb_rev {A} (f : A -> bool) (l : list A) :
  forallb f l = true -> forallb f (rev l) = true.
Proof.
  rewrite !forallb_forall. intros H x Hx. apply H. now apply in_rev.
Qed.

Lemma trimStart_nil (s : jsstring) :
  trimStart s = [] -> forallb isWhiteSpace s = true.
Proof.
  induction s as [|c s IH]; [reflexivity|]. cbn [trimStart forallb].
  destruct (isWhiteSpace c); [exact IH | discriminate].
Qed.

Lemma forallb_trimStart (s : jsstring) :
  forallb isWhiteSpace (trimStart s) = true -> forallb isWhiteSpace s = true.
Proof.
  induction s as [|c s IH]; [reflexivity|]. cbn [trimStart].
  destruct (isWhiteSpace c) eqn:E; [|auto].
  intros H. cbn [forallb]. now rewrite E, IH.
Qed.

(** [trim] empties a text exactly when it is white space only. *)
Lemma trim_blank (s : jsstring) :
  trim s = [] <-> forallb isWhiteSpace s = true.
Proof.
  unfold trim, trimEnd. split.
  - intros H. apply forallb_trimStart.
    rewrite <- (rev_involutive (trimStart s)). apply forallb_rev.
    apply trimStart_nil.
    rewrite <- (rev_involutive (trimStart (rev (trimStart s)))), H. reflexivity.
  - intros H. now rewrite (trimStart_all_ws s H).
Qed.

Lemma trimStart_split (s : jsstring) :
  exists ws, s = ws ++ trimStart s /\ forallb isWhiteSpace ws = true.
Proof.
  induction s as [|c s (ws & E & H)]; [exists []; split; reflexivity|].
  cbn [trimStart]. destruct (isWhiteSpace c) eqn:Ec.
  - exists (c :: ws). cbn [app forallb]. rewrite Ec, H. split; [congruence|reflexivity].
  - exists []. split; reflexivity.
Qed.


Lemma trimStart_head (s : jsstring) :
  match trimStart s with [] => True | c :: _ => isWhiteSpace c = false end.
Proof.
  induction s as [|c s IH]; [exact I|]. cbn [trimStart].
  destruct (isWhiteSpace c) eqn:E; [exact IH | exact E].
Qed.

Lemma Contains_refl (s : jsstring) : Contains s s.
Proof. exists [], []. rewrite app_nil_r. reflexivity. Qed.

Lemma Contains_trans (s t u : jsstring) :
  Contains s t -> Contains t u -> Contains s u.
Proof.
  intros (p1 & q1 & ->) (p2 & q2 & ->).
  exists (p1 ++ p2), (q2 ++ q1). now rewrite !app_assoc.
Qed.

Lemma Contains_app_l (s p t : jsstring) : Contains s t -> Contains (s ++ p) t.
Proof.
  intros (a & b & ->). exists a, (b ++ p). now rewrite <- !app_assoc.
Qed.

Lemma Contains_app_r (s p t : jsstring) : Contains s t -> Contains (p ++ s) t.
Proof.
  intros (a & b & ->). exists (p ++ a), b. now rewrite <- !app_assoc.
Qed.

Lemma Contains_template (pieces : list jsstring) (t : jsstring) :
  In t pieces -> Contains (template pieces) t.
Proof.
  unfold template. induction pieces as [|p ps IH]; simpl; [tauto|].
  intros [-> | H].
  - apply Contains_app_l, Contains_refl.
  - apply Contains_app_r, IH, H.
Qed.

Lemma Contains_join (sep : jsstring) (parts : list jsstring) (t : jsstring) :
  In t parts -> Contains (join sep parts) t.
Proof.
  induction parts as [|p ps IH]; simpl; [tauto|].
  intros [-> | H].
  - destruct ps; [apply Contains_refl | apply Contains_app_l, Contains_refl].
  - destruct ps as [|q qs]; [destruct H|].
    apply Contains_app_r, Contains_app_r, IH, H.
Qed.

Ltac in_pieces := simpl; repeat (first [left; reflexivity | right]).

(** ** The request builder *)

Lemma generatePrompt_calls (ai : Model) (request : PromptRequest) :
  calls (GeminiService.generatePrompt ai request)
  = [GeminiService.generatePromptParams request].
Proof. reflexivity. Qed.

Lemma instructionSent_userPrompt (ai : Model) (request : PromptRequest) :
  instructionSent ai request = [GeminiService.userPrompt request].
Proof. reflexivity. Qed.

(** What each instruction asks of the model. *)
Lemma fromScratchPrompt_asks (r : DialogueRequest.t) :
  Contains (GeminiService.fromScratchPrompt r)
    (lit "Generate a complete script from scratch based on the scenario and characters provided.").
Proof.
  apply Contains_trans
    with (t := lit "          Generate a complete script from scratch based on the scenario and characters provided.").
  - apply Contains_template. in_pieces.
  - exists (lit "          "), []. reflexivity.
Qed.

Lemma formatScriptPrompt_asks (r : DialogueRequest.t) :
  Contains (GeminiService.formatScriptPrompt r)
    (lit "Your task is to take the provided script and format it perfectly into the required JSON structure.").
Proof.
  apply Contains_trans
    with (t := lit "          Your task is to take the provided script and format it perfectly into the required JSON structure.").
  - apply Contains_template. in_pieces.
  - exists (lit "          "), []. reflexivity.
Qed.

Lemma nonBlank_true (l : ScriptLine.t) :
  GeminiService.nonBlank l = true <-> trim (ScriptLine.line l) <> [].
Proof.
  unfold GeminiService.nonBlank. rewrite negb_true_iff. apply eqb_neq.
Qed.

Lemma hasScript_existsb (r : DialogueRequest.t) :
  GeminiService.hasScript r
  = existsb GeminiService.nonBlank (DialogueRequest.script r).
Proof.
  unfold GeminiService.hasScript.
  destruct (DialogueRequest.script r); reflexivity.
Qed.

Lemma hasScript_true (r : DialogueRequest.t) :
  GeminiService.hasScript r = true
  <-> exists l, In l (DialogueRequest.script r) /\ trim (ScriptLine.line l) <> [].
Proof.
  rewrite hasScript_existsb, existsb_exists.
  split; intros (l & Hin & H); exists l; split; auto; now apply nonBlank_true.
Qed.

Lemma hasScript_false (r : DialogueRequest.t) :
  GeminiService.hasScript r = false
  <-> forall l, In l (DialogueRequest.script r) -> trim (ScriptLine.line l) = [].
Proof.
  rewrite hasScript_existsb. split.
  - intros H l Hin.
    destruct (list_eq_dec N.eq_dec (trim (ScriptLine.line l)) []) as [E|E]; auto.
    assert (existsb GeminiService.nonBlank (DialogueRequest.script r) = true).
    { apply existsb_exists. exists l. split; auto. now apply nonBlank_true. }
    congruence.
  - intros H. apply not_true_is_false. intros E.
    apply existsb_exists in E. destruct E as (l & Hin & E).
    apply nonBlank_true in E. auto.
Qed.

Lemma submittedLine_true (l : ScriptLine.t) :
  App.submittedLine l = true
  <-> trim (ScriptLine.line l) <> [] /\ ScriptLine.characterId l <> [].
Proof.
  unfold App.submittedLine.
  rewrite andb_true_iff, !negb_true_iff, eqb_neq.
  destruct (ScriptLine.characterId l); simpl; intuition congruence.
Qed.

(** The dialogue request [handleSubmit] builds holds the valid characters
    and the script lines that are neither blank nor unassigned. *)
Lemma buildRequest_dialogue (st : App.State) (r : DialogueRequest.t) :
  App.buildRequest st = Some (Dialogue r) ->
  DialogueRequest.script r = filter App.submittedLine (App.script st)
  /\ DialogueRequest.characters r = filter App.validCharacter (App.characters st)
  /\ DialogueRequest.characters r <> [].
Proof.
  unfold App.buildRequest.
  destruct (App.speechType st); try discriminate;
    destruct (filter App.validCharacter (App.characters st)) eqn:E;
    simpl; try discriminate;
    intros [= <-]; simpl; rewrite ?E; repeat split; auto; discriminate.
Qed.

(** C1, as stated, fails.  A request whose only line has text but no
    character is sent the format-existing-script instruction; a request
    whose only line is two spaces assigned to a character is sent the
    generate-from-scratch instruction. *)
Lemma sub_mode_by_assignment_fails :
  ((forall l, In l (DialogueRequest.script unassignedLineRequest) ->
              ScriptLine.line l = [] \/ ScriptLine.characterId l = [])
   /\ GeminiService.userPrompt (Dialogue unassignedLineRequest)
      = GeminiService.formatScriptPrompt unassignedLineRequest
   /\ GeminiService.userPrompt (Dialogue unassignedLineRequest)
      <> GeminiService.fromScratchPrompt unassignedLineRequest)
  /\
  ((exists l, In l (DialogueRequest.script spacesLineRequest)
              /\ ScriptLine.line l <> [] /\ ScriptLine.characterId l <> [])
   /\ GeminiService.userPrompt (Dialogue spacesLineRequest)
      = GeminiService.fromScratchPrompt spacesLineRequest
   /\ GeminiService.userPrompt (Dialogue spacesLineRequest)
      <> GeminiService.formatScriptPrompt spacesLineRequest).
Proof.
  split; split.
  - intros l [<- | []]. right; reflexivity.
  - split; [reflexivity|]. apply eqb_neq. vm_compute. reflexivity.
  - eexists; split; [left; reflexivity|]. split; discriminate.
  - split; [reflexivity|]. apply eqb_neq. vm_compute. reflexivity.
Qed.

(** C1, amended.  [generatePrompt] sends the format-existing-script
    instruction exactly when some script line of the request has text that
    [trim] does not empty, whatever its character; otherwise the
    generate-from-scratch instruction.  On the request [handleSubmit]
    builds from a form, this is: generate-from-scratch when every line of
    the form is blank or unassigned, format-existing-script when some line
    is neither. *)
Theorem generatePrompt_sub_mode (ai : Model) :
  (forall r,
      (forall l, In l (DialogueRequest.script r) -> trim (ScriptLine.line l) = []) ->
      instructionSent ai (Dialogue r) = [GeminiService.fromScratchPrompt r])
  /\ (forall r l,
         In l (DialogueRequest.script r) -> trim (ScriptLine.line l) <> [] ->
         instructionSent ai (Dialogue r) = [GeminiService.formatScriptPrompt r])
  /\ (forall st r,
         App.buildRequest st = Some (Dialogue r) ->
         (forall l, In l (App.script st) ->
                    trim (ScriptLine.line l) = [] \/ ScriptLine.characterId l = []) ->
         instructionSent ai (Dialogue r) = [GeminiService.fromScratchPrompt r])
  /\ (forall st r l,
         App.buildRequest st = Some (Dialogue r) ->
         In l (App.script st) ->
         trim (ScriptLine.line l) <> [] -> ScriptLine.characterId l <> [] ->
         instructionSent ai (Dialogue r) = [GeminiService.formatScriptPrompt r]).
Proof.
  assert (scratch : forall r,
             (forall l, In l (DialogueRequest.script r) ->
                        trim (ScriptLine.line l) = []) ->
             instructionSent ai (Dialogue r) = [GeminiService.fromScratchPrompt r]).
  { intros r H. rewrite instructionSent_userPrompt. simpl.
    apply hasScript_false in H. now rewrite H. }
  assert (format : forall r l,
             In l (DialogueRequest.script r) -> trim (ScriptLine.line l) <> [] ->
             instructionSent ai (Dialogue r) = [GeminiService.formatScriptPrompt r]).
  { intros r l Hin H. rewrite instructionSent_userPrompt. simpl.
    assert (E : GeminiService.hasScript r = true)
      by (apply hasScript_true; eauto).
    now rewrite E. }
  repeat split; auto.
  - intros st r Hb H. apply scratch.
    destruct (buildRequest_dialogue st r Hb) as (-> & _).
    intros l Hin. apply filter_In in Hin. destruct Hin as (Hin & Hs).
    apply submittedLine_true in Hs. destruct (H l Hin); tauto.
  - intros st r l Hb Hin Ht Hc. apply (format r l); auto.
    destruct (buildRequest_dialogue st r Hb) as (-> & _).
    apply filter_In. split; auto. now apply submittedLine_true.
Qed.

Lemma generatePrompt_sub_mode_witness :
  instructionSent emptyObjectModel (Dialogue spacesLineRequest)
  = [GeminiService.fromScratchPrompt spacesLineRequest]
  /\ instructionSent emptyObjectModel (Dialogue unassignedLineRequest)
     = [GeminiService.formatScriptPrompt unassignedLineRequest]
  /\ instructionSent emptyObjectModel (Dialogue (requestWithScript []))
     = [GeminiService.fromScratchPrompt (requestWithScript [])]
  /\ instructionSent emptyObjectModel
       (Dialogue (requestWithScript [helloLine (lit "char-1")]))
     = [GeminiService.formatScriptPrompt
          (requestWithScript [helloLine (lit "char-1")])].
Proof.
  destruct (generatePrompt_sub_mode emptyObjectModel) as (H1 & H2 & H3 & H4).
  split; [|split; [|split]].
  - apply H1. intros l [<- | []]. reflexivity.
  - eapply H2; [left; reflexivity | discriminate].
  - apply (H3 (formWithLine (helloLine []))); [reflexivity|].
    intros l [<- | []]. right; reflexivity.
  - apply (H4 (formWithLine (helloLine (lit "char-1"))) _
              (helloLine (lit "char-1")));
      [reflexivity | left; reflexivity | discriminate | discriminate].
Defined.

Lemma startsWith_app (t post : jsstring) : startsWith (t ++ post) t = true.
Proof.
  induction t as [|c t IH]; [reflexivity|].
  cbn [startsWith app]. now rewrite N.eqb_refl, IH.
Qed.

Lemma Contains_containsb (s t : jsstring) : Contains s t -> containsb s t = true.
Proof.
  intros (pre & post & ->). induction pre as [|c pre IH].
  - pose proof (startsWith_app t post) as H. cbn [app].
    destruct (t ++ post); cbn [containsb]; now rewrite H.
  - cbn [app containsb]. rewrite IH. apply orb_true_r.
Qed.

(** C2, as stated, fails.  The request is handled in the
    format-existing-script sub-mode, its second line has the non-empty text
    of two spaces, and the instruction holds no quoted pair of spaces. *)
Lemma blank_line_not_embedded :
  GeminiService.hasScript helloAndSpaces = true
  /\ (exists l, In l (DialogueRequest.script helloAndSpaces)
                /\ ScriptLine.line l = lit "  " /\ ScriptLine.line l <> [])
  /\ ~ Contains (GeminiService.userPrompt (Dialogue helloAndSpaces))
                (quote ++ lit "  " ++ quote).
Proof.
  split; [reflexivity|]. split.
  - eexists; split; [right; left; reflexivity|]. split; [reflexivity|discriminate].
  - intros H. apply Contains_containsb in H. vm_compute in H. discriminate.
Qed.

Lemma nonBlank_blank (l : ScriptLine.t) :
  GeminiService.nonBlank l = negb (forallb isWhiteSpace (ScriptLine.line l)).
Proof.
  unfold GeminiService.nonBlank. f_equal.
  destruct (forallb isWhiteSpace (ScriptLine.line l)) eqn:E.
  - apply trim_blank in E. now rewrite E.
  - apply eqb_neq. intros H. apply trim_blank in H. congruence.
Qed.

Lemma filter_twice {A} (f g : A -> bool) (l : list A) :
  (forall x, f x = g x) -> filter f (filter g l) = filter f l.
Proof.
  intros H. induction l as [|x l IH]; [reflexivity|]. cbn [filter].
  destruct (g x) eqn:E; cbn [filter]; rewrite H, E; now rewrite IH.
Qed.

Lemma existsb_filter {A} (f g : A -> bool) (l : list A) :
  (forall x, f x = g x) -> existsb f (filter g l) = existsb f l.
Proof.
  intros H. induction l as [|x l IH]; [reflexivity|]. cbn [filter existsb].
  destruct (g x) eqn:E; cbn [existsb]; rewrite H, E; now rewrite IH.
Qed.

(** The instruction of a dialogue does not depend on the script lines
    whose text is white space only. *)
Lemma userPrompt_withoutBlankLines (r : DialogueRequest.t) :
  GeminiService.userPrompt (Dialogue (withoutBlankLines r))
  = GeminiService.userPrompt (Dialogue r).
Proof.
  cbn [GeminiService.userPrompt].
  assert (H : GeminiService.hasScript (withoutBlankLines r)
              = GeminiService.hasScript r).
  { rewrite !hasScript_existsb. cbn [withoutBlankLines DialogueRequest.script].
    apply existsb_filter, nonBlank_blank. }
  assert (S : GeminiService.scriptContent (withoutBlankLines r)
              = GeminiService.scriptContent r).
  { unfold GeminiService.scriptContent.
    cbn [withoutBlankLines DialogueRequest.script].
    rewrite filter_twice by apply nonBlank_blank. reflexivity. }
  rewrite H. unfold GeminiService.formatScriptPrompt. rewrite S. reflexivity.
Qed.

(** C2, amended.  In a dialogue request, every script line whose text
    [trim] does not empty puts the request in the format-existing-script
    sub-mode, and the instruction sent holds the line as: the character's
    name, a colon, the exact text of the line in double quotes, and its
    emotion and tone in parentheses, each replaced by "not specified" when
    it is empty.  The lines whose text is white space only are left out:
    the instruction sent is the one of the same request without them. *)
Theorem script_line_embedded (ai : Model) (r : DialogueRequest.t) :
  (forall l,
      In l (DialogueRequest.script r) ->
      trim (ScriptLine.line l) <> [] ->
      GeminiService.hasScript r = true
      /\ exists text,
          instructionSent ai (Dialogue r) = [text]
          /\ Contains text
               (template
                  [ GeminiService.charName r l; lit ": ";
                    quote; ScriptLine.line l; quote;
                    lit " (Emotion: ";
                    or_else (ScriptLine.emotion l) (lit "not specified");
                    lit ", Tone: ";
                    or_else (ScriptLine.tone l) (lit "not specified");
                    lit ")" ]))
  /\ instructionSent ai (Dialogue r)
     = instructionSent ai (Dialogue (withoutBlankLines r))
  /\ (forall l,
         In l (DialogueRequest.script r) ->
         forallb isWhiteSpace (ScriptLine.line l) = true ->
         ~ In l (DialogueRequest.script (withoutBlankLines r))).
Proof.
  split; [|split].
  - intros l Hin Ht.
    assert (E : GeminiService.hasScript r = true) by (apply hasScript_true; eauto).
    split; [exact E|].
    exists (GeminiService.formatScriptPrompt r). split.
    + rewrite instructionSent_userPrompt. simpl. now rewrite E.
    + apply Contains_trans with (t := GeminiService.scriptContent r).
      * apply Contains_template. in_pieces.
      * apply Contains_join.
        change (In (GeminiService.scriptEntry r l)
                   (map (GeminiService.scriptEntry r)
                        (filter GeminiService.nonBlank (DialogueRequest.script r)))).
        apply in_map, filter_In. split; auto. now apply nonBlank_true.
  - rewrite !instructionSent_userPrompt.
    now rewrite userPrompt_withoutBlankLines.
  - intros l _ Hb Hin. cbn [withoutBlankLines DialogueRequest.script] in Hin.
    apply filter_In in Hin. destruct Hin as (_ & Hin).
    rewrite Hb in Hin. discriminate.
Qed.

Lemma script_line_embedded_witness :
  (exists text,
      instructionSent emptyObjectModel (Dialogue helloAndSpaces) = [text]
      /\ Contains text (lit "Alice: " ++ quote ++ lit "Hello" ++ quote
                          ++ lit " (Emotion: calm, Tone: not specified)"))
  /\ instructionSent emptyObjectModel (Dialogue helloAndSpaces)
     = instructionSent emptyObjectModel
         (Dialogue (requestWithScript [helloLine (lit "char-1")])).
Proof.
  destruct (script_line_embedded emptyObjectModel helloAndSpaces)
    as (H1 & H2 & _).
  split.
  - apply (H1 (helloLine (lit "char-1"))).
    + left; reflexivity.
    + vm_compute. discriminate.
  - exact H2.
Defined.

(** ** The duration clause *)

(** *** What [parseInt] reads *)


Lemma digitOf_decimal (c : char) :
  digitOf 10 c = if isDigit c then Some (Z.of_N c - 48) else None.
Proof.
  unfold digitOf. destruct (isDigit c) eqn:E.
  - apply isDigit_range in E. rewrite (proj2 (Z.ltb_lt _ 10)) by lia. reflexivity.
  - destruct ((97 <=? c) && (c <=? 122))%N eqn:E1.
    + apply andb_true_iff in E1. rewrite !N.leb_le in E1.
      rewrite (proj2 (Z.ltb_ge _ 10)) by lia. reflexivity.
    + destruct ((65 <=? c) && (c <=? 90))%N eqn:E2; [|reflexivity].
      apply andb_true_iff in E2. rewrite !N.leb_le in E2.
      rewrite (proj2 (Z.ltb_ge _ 10)) by lia. reflexivity.
Qed.

Lemma digit_cases (c : char) :
  isDigit c = true ->
  (c = 48 \/ c = 49 \/ c = 50 \/ c = 51 \/ c = 52 \/ c = 53 \/ c = 54 \/ c = 55
   \/ c = 56 \/ c = 57)%N.
Proof. rewrite isDigit_range. lia. Qed.

Lemma digit_plain (c : char) :
  isDigit c = true ->
  isWhiteSpace c = false /\ N.eqb c 45 = false /\ N.eqb c 43 = false.
Proof.
  intros H. apply digit_cases in H.
  repeat (destruct H as [H|H]); subst c; repeat split.
Qed.

Lemma readDigits_run (ds rest : jsstring) :
  forallb isDigit ds = true -> noDigitNext rest ->
  forall a, readDigits 10 (ds ++ rest) (Some a) = Some (fold_left digitsStep ds a).
Proof.
  intros Hd Hr. induction ds as [|c ds IH]; intros a.
  - destruct rest as [|c rest]; [reflexivity|]. cbn [app readDigits fold_left].
    cbn [noDigitNext] in Hr. now rewrite digitOf_decimal, Hr.
  - cbn [forallb] in Hd. apply andb_true_iff in Hd. destruct Hd as (Hc & Hd).
    cbn [app readDigits fold_left]. rewrite digitOf_decimal, Hc, IH by assumption.
    do 2 f_equal. unfold digitsStep. lia.
Qed.

Lemma readDigits_start (ds rest : jsstring) :
  ds <> [] -> forallb isDigit ds = true -> noDigitNext rest ->
  readDigits 10 (ds ++ rest) None = Some (digitsValue ds).
Proof.
  intros Hne Hd Hr. destruct ds as [|c ds]; [congruence|].
  cbn [forallb] in Hd. apply andb_true_iff in Hd. destruct Hd as (Hc & Hd).
  cbn [app readDigits]. rewrite digitOf_decimal, Hc, readDigits_run by assumption.
  reflexivity.
Qed.

Lemma readDigits_none (rest : jsstring) :
  noDigitNext rest -> readDigits 10 rest None = None.
Proof.
  destruct rest as [|c rest]; [reflexivity|]. cbn [noDigitNext readDigits].
  intros H. now rewrite digitOf_decimal, H.
Qed.

Lemma zeros_value (zs : jsstring) :
  forallb (N.eqb 48) zs = true ->
  forallb isDigit zs = true /\ digitsValue zs = 0.
Proof.
  induction zs as [|c zs IH]; [split; reflexivity|]. cbn [forallb].
  rewrite andb_true_iff, N.eqb_eq. intros (<- & H). destruct (IH H) as (H1 & H2).
  split; [exact H1|]. rewrite digitsValue_cons, H2. reflexivity.
Qed.

(** [parseInt] after the white space: no sign or a plus sign, then digits. *)
Lemma parseInt_digit_run (ws sign ds rest : jsstring) :
  forallb isWhiteSpace ws = true ->
  sign = [] \/ sign = lit "+" ->
  ds <> [] -> forallb isDigit ds = true -> noDigitNext rest ->
  parseInt (ws ++ sign ++ ds ++ rest) 10
  = Number.of_ratio false (digitsValue ds) 1.
Proof.
  intros Hw Hs Hne Hd Hr. unfold parseInt. rewrite trimStart_ws by assumption.
  destruct Hs as [-> | ->].
  - destruct ds as [|c ds]; [congruence|].
    assert (Hc : isDigit c = true).
    { cbn [forallb] in Hd. now apply andb_true_iff in Hd. }
    destruct (digit_plain c Hc) as (H1 & H2 & H3).
    cbn [app trimStart]. rewrite H1. cbv iota. rewrite H2, H3. cbn [orb].
    change (c :: ds ++ rest) with ((c :: ds) ++ rest).
    now rewrite readDigits_start.
  - change (trimStart (lit "+" ++ ds ++ rest)) with (43%N :: ds ++ rest).
    cbv iota. change (N.eqb 43 45) with false. cbn [orb].
    change (N.eqb 43 43) with true. cbv iota.
    now rewrite readDigits_start.
Qed.

Lemma parseInt_numeral (d num : jsstring) :
  ReadsNumeral d num ->
  parseInt d 10 = Number.of_ratio false (digitsValue num) 1.
Proof.
  intros (ws & sign & zs & rest & -> & Hw & Hs & Hz & Hn & Hr).
  destruct (zeros_value zs Hz) as (Hzd & Hz0).
  pose proof (numeral_digits num Hn) as Hnd.
  rewrite (app_assoc zs num rest).
  rewrite parseInt_digit_run; auto.
  - now rewrite digitsValue_app, Hz0.
  - unfold numeral in Hn. destruct num; [now rewrite andb_false_r in Hn|].
    destruct zs; discriminate.
  - now rewrite forallb_app, Hzd, Hnd.
Qed.

Lemma positive_negative (num den : Z) :
  Number.positive (Number.of_ratio true num den) = false.
Proof.
  unfold Number.of_ratio.
  repeat match goal with |- context [if ?b then _ else _] => destruct b end;
    reflexivity.
Qed.

Lemma parseInt_noPositive (d : jsstring) :
  ReadsNoPositive d ->
  Number.isNaN (parseInt d 10) = true \/ Number.positive (parseInt d 10) = false.
Proof.
  intros [ws Hw | ws tail Hw | ws tail Hw Hr | ws c tail Hw H1 H2 H3 H4
         | ws sign zs tail Hw Hs Hne Hz Hr].
  - left. unfold parseInt. now rewrite trimStart_all_ws.
  - right. unfold parseInt. rewrite trimStart_ws by assumption.
    change (trimStart (lit "-" ++ tail)) with (45%N :: tail). cbv iota.
    change (N.eqb 45 45) with true. cbn [orb]. cbv iota.
    destruct (readDigits 10 tail None); [apply positive_negative | reflexivity].
  - left. unfold parseInt. rewrite trimStart_ws by assumption.
    change (trimStart (lit "+" ++ tail)) with (43%N :: tail). cbv iota.
    change (N.eqb 43 45) with false. change (N.eqb 43 43) with true.
    cbn [orb]. cbv iota. now rewrite readDigits_none.
  - left. unfold parseInt. rewrite trimStart_ws by assumption.
    cbn [trimStart]. rewrite H1.
    rewrite (proj2 (N.eqb_neq c 45)), (proj2 (N.eqb_neq c 43)) by assumption.
    cbn [orb]. cbn [readDigits]. now rewrite digitOf_decimal, H2.
  - right. destruct (zeros_value zs Hz) as (Hzd & Hz0).
    rewrite parseInt_digit_run, Hz0 by assumption. reflexivity.
Qed.

(** Every text reads as a numeral or as no number above zero. *)
Lemma digit_run (s : jsstring) :
  exists ds rest, s = ds ++ rest /\ forallb isDigit ds = true /\ noDigitNext rest.
Proof.
  induction s as [|c s (ds & rest & E & Hd & Hr)]; [exists [], []; repeat split|].
  destruct (isDigit c) eqn:Ec.
  - exists (c :: ds), rest. cbn [app forallb]. rewrite Ec, Hd, E. repeat split. exact Hr.
  - exists [], (c :: s). repeat split. exact Ec.
Qed.

Lemma zero_run (ds : jsstring) :
  forallb isDigit ds = true ->
  exists zs num, ds = zs ++ num /\ forallb (N.eqb 48) zs = true
                 /\ (num = [] \/ numeral num = true).
Proof.
  induction ds as [|c ds IH]; [exists [], []; repeat split; auto|].
  cbn [forallb]. rewrite andb_true_iff. intros (Hc & Hd).
  destruct (N.eqb_spec 48 c) as [<-|Hne].
  - destruct (IH Hd) as (zs & num & -> & Hz & Hn).
    exists (48%N :: zs), num. cbn [app forallb]. rewrite Hz. repeat split. exact Hn.
  - exists [], (c :: ds). repeat split. right. unfold numeral. cbn [forallb].
    rewrite Hc, Hd. cbn [andb]. apply negb_true_iff, N.eqb_neq. congruence.
Qed.

Lemma readings_cover (d : jsstring) :
  ReadsNoPositive d \/ exists num, ReadsNumeral d num.
Proof.
  destruct (trimStart_split d) as (ws & E & Hw).
  pose proof (trimStart_head d) as Hh. rewrite E. clear E.
  assert (R : forall sign body,
             sign = [] \/ sign = lit "+" ->
             (sign = [] -> exists c tail, body = c :: tail /\ isDigit c = true) ->
             ReadsNoPositive (ws ++ sign ++ body)
             \/ exists num, ReadsNumeral (ws ++ sign ++ body) num).
  { intros sign body Hs Hb.
    destruct (digit_run body) as (ds & rest & -> & Hd & Hr).
    destruct (zero_run ds Hd) as (zs & num & -> & Hz & [-> | Hn]).
    - rewrite app_nil_r. destruct zs as [|z zs].
      + destruct Hs as [-> | ->].
        * destruct (Hb eq_refl) as (c & tail & E & Hc).
          cbn [app] in E. rewrite E in Hr. cbn [noDigitNext] in Hr. congruence.
        * left. now apply reads_plus.
      + left. apply reads_zero; auto. discriminate.
    - right. exists num, ws, sign, zs, rest. rewrite <- app_assoc. auto 10. }
  destruct (trimStart d) as [|c body].
  - left. rewrite app_nil_r. now apply reads_nothing.
  - destruct (N.eqb_spec c 45) as [->|H45]; [left; now apply (reads_minus ws body)|].
    destruct (N.eqb_spec c 43) as [->|H43].
    { apply (R (lit "+") body); [auto | discriminate]. }
    destruct (isDigit c) eqn:Hc.
    + apply (R [] (c :: body)); [auto | eauto].
    + left. now apply reads_other.
Qed.

Lemma durationConstraint_positive (d : jsstring) :
  Number.isNaN (parseInt d 10) = false ->
  Number.positive (parseInt d 10) = true ->
  GeminiService.durationConstraint (Some d)
  = template [ nl; lit "- The total length should be approximately ";
               Number.toString (parseInt d 10); lit " seconds." ].
Proof.
  intros Hn Hp. unfold GeminiService.durationConstraint.
  destruct d as [|c d]; [discriminate Hn|].
  cbn [JsString.falsy]. now rewrite Hn, Hp.
Qed.

Lemma durationConstraint_absent (d : jsstring) :
  Number.isNaN (parseInt d 10) = true \/ Number.positive (parseInt d 10) = false ->
  GeminiService.durationConstraint (Some d) = [].
Proof.
  intros H. unfold GeminiService.durationConstraint.
  destruct (JsString.falsy d); [reflexivity|].
  destruct H as [-> | ->]; [reflexivity|]. now rewrite andb_false_r.
Qed.

Lemma narrationPrompt_duration (r : NarrationRequest.t) :
  Contains (GeminiService.narrationPrompt r)
           (GeminiService.durationConstraint (NarrationRequest.duration r)).
Proof. apply Contains_template. in_pieces. Qed.

Lemma clause_names (x : jsstring) :
  Contains (template [ nl; lit "- The total length should be approximately ";
                       x; lit " seconds." ])
           (lit "approximately " ++ x ++ lit " seconds").
Proof.
  exists (nl ++ lit "- The total length should be "), (lit ".").
  unfold template. cbn [List.concat].
  change (lit "- The total length should be approximately ")
    with (lit "- The total length should be " ++ lit "approximately ").
  change (lit " seconds.") with (lit " seconds" ++ lit ".").
  now rewrite <- !app_assoc.
Qed.

(** A text that reads as a numeral below 2^53 is parsed as that whole
    number, and the number is printed as the numeral. *)
Lemma parseInt_numeral_positive (d num : jsstring) :
  ReadsNumeral d num -> digitsValue num < 2 ^ 53 ->
  parseInt d 10 = Number.of_Z (digitsValue num)
  /\ Number.isNaN (parseInt d 10) = false
  /\ Number.positive (parseInt d 10) = true
  /\ Number.toString (parseInt d 10) = num.
Proof.
  intros Hr Hv.
  assert (Hn : numeral num = true) by (destruct Hr as (? & ? & ? & ? & H); apply H).
  pose proof (numeral_bounds num Hn) as Hb.
  assert (H0 : 0 < digitsValue num).
  { pose proof (pow10_pos (Z.of_nat (List.length num) - 1)) as Hp.
    unfold numeral in Hn. destruct num; [now rewrite andb_false_r in Hn|].
    cbn [List.length] in *. lia. }
  rewrite (parseInt_numeral d num Hr). split; [|split; [|split]].
  - unfold Number.of_Z. rewrite (proj2 (Z.ltb_ge _ 0)), Z.abs_eq by lia. reflexivity.
  - rewrite of_ratio_integer by lia. reflexivity.
  - rewrite of_ratio_integer by lia. cbn [Number.positive negb andb].
    destruct (log2_below_53 _ (conj H0 Hv)) as (_ & _ & HP & _).
    apply Z.ltb_lt. nia.
  - rewrite toString_integer by lia. now apply decimal_unique.
Qed.

Lemma durationConstraint_numeral (d num : jsstring) :
  ReadsNumeral d num -> digitsValue num < 2 ^ 53 ->
  GeminiService.durationConstraint (Some d)
  = template [ nl; lit "- The total length should be approximately ";
               num; lit " seconds." ].
Proof.
  intros Hr Hv.
  destruct (parseInt_numeral_positive d num Hr Hv) as (_ & Hn & Hp & Ht).
  rewrite durationConstraint_positive by assumption. now rewrite Ht.
Qed.

Lemma durationConstraint_unread (d : jsstring) :
  ReadsNoPositive d -> GeminiService.durationConstraint (Some d) = [].
Proof.
  intros H. apply durationConstraint_absent. now apply parseInt_noPositive.
Qed.

(** C3, as stated, fails.  The duration of twenty-two digits reads as the
    positive integer 10^21, and the instruction names it in exponent
    notation, "approximately 1e+21 seconds", not as the integer.  The
    duration 9007199254740993, which is 2^53 + 1, is named as
    9007199254740992. *)
Lemma large_duration_not_in_digits :
  ReadsNumeral (lit "1000000000000000000000") (lit "1000000000000000000000")
  /\ parseInt (lit "1000000000000000000000") 10 = Number.of_Z (10 ^ 21)
  /\ Number.positive (parseInt (lit "1000000000000000000000") 10) = true
  /\ (exists text,
         instructionSent emptyObjectModel
           (Narration (stormyNight (Some (lit "1000000000000000000000"))))
         = [text]
         /\ Contains text (lit "approximately 1e+21 seconds")
         /\ ~ Contains text (lit "approximately 1000000000000000000000 seconds"))
  /\ (exists text,
         instructionSent emptyObjectModel
           (Narration (stormyNight (Some (lit "9007199254740993"))))
         = [text]
         /\ Contains text (lit "approximately 9007199254740992 seconds")
         /\ ~ Contains text (lit "approximately 9007199254740993 seconds")).
Proof.
  split.
  { exists [], [], [], []. repeat split; auto. }
  split; [vm_compute; reflexivity|]. split; [vm_compute; reflexivity|].
  split.
  - exists (GeminiService.narrationPrompt
              (stormyNight (Some (lit "1000000000000000000000")))).
    split; [apply instructionSent_userPrompt|]. split.
    + apply (Contains_trans _ _ _ (narrationPrompt_duration _)).
      exists (nl ++ lit "- The total length should be "), (lit ".").
      vm_compute. reflexivity.
    + intros H. apply Contains_containsb in H. vm_compute in H. discriminate.
  - exists (GeminiService.narrationPrompt
              (stormyNight (Some (lit "9007199254740993")))).
    split; [apply instructionSent_userPrompt|]. split.
    + apply (Contains_trans _ _ _ (narrationPrompt_duration _)).
      exists (nl ++ lit "- The total length should be "), (lit ".").
      vm_compute. reflexivity.
    + intros H. apply Contains_containsb in H. vm_compute in H. discriminate.
Qed.

(** C3, amended.  A narration request whose duration reads as a numeral
    below 2^53 (after white space and an optional plus sign, with or
    without leading zeros, up to the first character that is not a digit)
    is sent an instruction that holds "approximately N seconds", N being
    that numeral: the decimal digits of the integer [parseInt] returns.
    For any duration [parseInt] reads as a number above zero, the clause
    holds that number as a template literal prints it: for the duration
    of a one and twenty-one zeros, "approximately 1e+21 seconds".  A narration
    request whose duration is absent, reads as no number above zero, is
    read as NaN or as a number not above zero, has an empty duration
    clause: its instruction is the one of the same request without a
    duration. *)
Theorem narration_duration_clause (ai : Model) (r : NarrationRequest.t) :
  (forall d num,
      NarrationRequest.duration r = Some d ->
      ReadsNumeral d num ->
      digitsValue num < 2 ^ 53 ->
      parseInt d 10 = Number.of_Z (digitsValue num)
      /\ exists text,
          instructionSent ai (Narration r) = [text]
          /\ Contains text (lit "approximately " ++ num ++ lit " seconds"))
  /\ (forall d,
         NarrationRequest.duration r = Some d ->
         Number.isNaN (parseInt d 10) = false ->
         Number.positive (parseInt d 10) = true ->
         exists text,
           instructionSent ai (Narration r) = [text]
           /\ Contains text
                (lit "approximately " ++ Number.toString (parseInt d 10)
                   ++ lit " seconds"))
  /\ (NarrationRequest.duration r = Some (lit "1000000000000000000000") ->
      exists text,
        instructionSent ai (Narration r) = [text]
        /\ Contains text (lit "approximately 1e+21 seconds"))
  /\ (NarrationRequest.duration r = None
      \/ (exists d, NarrationRequest.duration r = Some d
                    /\ (ReadsNoPositive d
                        \/ Number.isNaN (parseInt d 10) = true
                        \/ Number.positive (parseInt d 10) = false)) ->
      GeminiService.durationConstraint (NarrationRequest.duration r) = []
      /\ instructionSent ai (Narration r)
         = instructionSent ai (Narration (withoutDuration r))).
Proof.
  pose proof (narrationPrompt_duration r) as C.
  split; [|split; [|split]].
  - intros d num Hd Hr Hv.
    split; [apply (parseInt_numeral_positive d num Hr Hv)|].
    exists (GeminiService.narrationPrompt r). split; [reflexivity|].
    apply (Contains_trans _ _ _ C).
    rewrite Hd, (durationConstraint_numeral d num) by assumption.
    apply clause_names.
  - intros d Hd Hn Hp. exists (GeminiService.narrationPrompt r).
    split; [reflexivity|].
    apply (Contains_trans _ _ _ C).
    rewrite Hd, durationConstraint_positive by assumption. apply clause_names.
  - intros Hd. exists (GeminiService.narrationPrompt r). split; [reflexivity|].
    apply (Contains_trans _ _ _ C). rewrite Hd.
    exists (nl ++ lit "- The total length should be "), (lit ".").
    vm_compute. reflexivity.
  - intros H.
    assert (E : GeminiService.durationConstraint (NarrationRequest.duration r) = []).
    { destruct H as [-> | (d & -> & [H | H])]; [reflexivity | |].
      - now apply durationConstraint_unread.
      - now apply durationConstraint_absent. }
    split; [exact E|].
    rewrite !instructionSent_userPrompt. cbn [GeminiService.userPrompt].
    unfold GeminiService.narrationPrompt. now rewrite E.
Qed.

Lemma narration_duration_clause_witness :
  (exists text,
      instructionSent emptyObjectModel
        (Narration (stormyNight (Some (lit " 030 s")))) = [text]
      /\ Contains text (lit "approximately 30 seconds"))
  /\ instructionSent emptyObjectModel (Narration (stormyNight (Some (lit "-5"))))
     = instructionSent emptyObjectModel (Narration (stormyNight None))
  /\ instructionSent emptyObjectModel (Narration (stormyNight (Some (lit "soon"))))
     = instructionSent emptyObjectModel (Narration (stormyNight None)).
Proof.
  split; [|split].
  - refine (proj2 (proj1 (narration_duration_clause emptyObjectModel
                    (stormyNight (Some (lit " 030 s"))))
                 (lit " 030 s") (lit "30") _ _ _)).
    + reflexivity.
    + exists (lit " "), [], (lit "0"), (lit " s"). repeat split; auto.
    + vm_compute. reflexivity.
  - apply (proj2 (proj2 (proj2 (narration_duration_clause emptyObjectModel
                                  (stormyNight (Some (lit "-5"))))))).
    right. exists (lit "-5"). split; [reflexivity|]. left.
    apply (reads_minus [] (lit "5")). reflexivity.
  - apply (proj2 (proj2 (proj2 (narration_duration_clause emptyObjectModel
                                  (stormyNight (Some (lit "soon"))))))).
    right. exists (lit "soon"). split; [reflexivity|]. left.
    apply (reads_other [] 115%N (lit "oon")); try reflexivity; discriminate.
Defined.

(** ** [JSON.parse] diagnostics *)

Lemma message_head (e : Json.syntaxError) :
  exists rest, Json.message e = 85%N :: rest.
Proof.
  destruct e as [|pos t]; [eexists; reflexivity|].
  destruct t as [| | | | | |s|x| | | |[c|]]; eexists; reflexivity.
Qed.

(** No diagnostic of [JSON.parse] is itself JSON text. *)
Lemma diagnostic_not_json (text d : jsstring) :
  Json.parse text = inr d -> exists d', Json.parse d = inr d'.
Proof.
  unfold Json.parse at 1.
  destruct (Json.run _ _) as [v|e]; [discriminate|]. intros [= <-].
  destruct (message_head e) as (rest & ->).
  eexists. reflexivity.
Qed.

(** ** Response handling of [generatePrompt] *)

Lemma generatePrompt_result (ai : Model) (request : PromptRequest) :
  result (GeminiService.generatePrompt ai request)
  = match GeminiService.readResponse
            (ai (GeminiService.generatePromptParams request)) with
    | inl prompt => inl prompt
    | inr e => inr (GeminiService.rethrow e)
    end.
Proof. reflexivity. Qed.

Lemma startsWith_apiErrorPrefix (suffix : jsstring) :
  startsWith (App.apiErrorPrefix ++ suffix) App.apiErrorPrefix = true.
Proof. apply startsWith_app. Qed.

(** The display of an error that carries the marker of [generatePrompt]. *)
Lemma prettyErrorMessage_marked (T : UiText) (suffix : jsstring) :
  App.prettyErrorMessage T (Some (App.apiErrorPrefix ++ suffix))
  = match Json.parse suffix with
    | inl parsed =>
        match Json.getOpt (Json.getOpt (Some parsed) (lit "error")) (lit "message") with
        | Some m =>
            if Json.truthy m
            then match Json.toString m with
                 | Some message =>
                     Some (template [ geminiErrorPrefix T; lit ": "; message ])
                 | None =>
                     Some (template [ geminiErrorPrefix T; lit ": "; suffix ])
                 end
            else Some (App.apiErrorPrefix ++ suffix)
        | None => Some (App.apiErrorPrefix ++ suffix)
        end
    | inr _ => Some (template [ geminiErrorPrefix T; lit ": "; suffix ])
    end.
Proof.
  unfold App.prettyErrorMessage.
  rewrite startsWith_apiErrorPrefix. reflexivity.
Qed.

(** C4, as stated, fails.  A response with empty text, on which
    [JSON.parse] fails, and a call rejected with an [Error] of the same
    message make [generatePrompt] throw the same [Error]: the caller cannot
    tell the two apart.  And a response whose text is an error body is
    not surfaced as an error at all: it parses, and is returned as a
    prompt with the fallback text. *)
Lemma parse_failure_not_distinct :
  let request := Narration (stormyNight None) in
  let emptyText : Model := fun _ => Resolved (Some []) in
  let rejected : Model :=
    fun _ => Rejected (JsError (lit "Unexpected end of JSON input")) in
  let errorText : Model :=
    fun _ => Resolved (Some (errorBody (lit "quota exceeded"))) in
  Json.parse (trim []) = inr (lit "Unexpected end of JSON input")
  /\ result (GeminiService.generatePrompt emptyText request)
     = inr (lit "Gemini API Error: Unexpected end of JSON input")
  /\ result (GeminiService.generatePrompt rejected request)
     = result (GeminiService.generatePrompt emptyText request)
  /\ result (GeminiService.generatePrompt errorText request)
     = inl {| json := Json.JObject
                        [ (lit "error",
                           Json.JObject
                             [ (lit "message", Json.JString (lit "quota exceeded")) ]) ];
              integrated := Json.JString GeminiService.integratedFallback |}.
Proof. repeat split. Qed.

(** C4, amended.  When [JSON.parse] fails on the response of the main
    generation path, [generatePrompt] throws an [Error] whose message is
    "Gemini API Error: " followed by the parse diagnostic; a call rejected
    with an [Error] throws one of the same form, with the message of the
    rejection.  There is one kind of error.  A parse failure is told from
    a rejection with an error body by the text only: the diagnostic is not
    JSON, so the two messages differ, and the display shows the diagnostic
    whole after the localised prefix. *)
Theorem parse_failure_surfaced
        (T : UiText) (ai : Model) (request : PromptRequest) :
  (forall text d,
      ai (GeminiService.generatePromptParams request) = Resolved (Some text) ->
      Json.parse (trim text) = inr d ->
      result (GeminiService.generatePrompt ai request)
      = inr (lit "Gemini API Error: " ++ d)
      /\ App.prettyErrorMessage T (Some (lit "Gemini API Error: " ++ d))
         = Some (template [ geminiErrorPrefix T; lit ": "; d ]))
  /\ (forall m,
         ai (GeminiService.generatePromptParams request) = Rejected (JsError m) ->
         result (GeminiService.generatePrompt ai request)
         = inr (lit "Gemini API Error: " ++ m))
  /\ (forall text d body parsed,
         Json.parse (trim text) = inr d ->
         Json.parse body = inl parsed ->
         lit "Gemini API Error: " ++ d <> lit "Gemini API Error: " ++ body).
Proof.
  split; [|split].
  - intros text d Hai Hp. split.
    + rewrite generatePrompt_result, Hai.
      unfold GeminiService.readResponse. now rewrite Hp.
    + change (lit "Gemini API Error: ") with App.apiErrorPrefix.
      rewrite prettyErrorMessage_marked.
      destruct (diagnostic_not_json _ _ Hp) as (d' & ->). reflexivity.
  - intros m Hai. rewrite generatePrompt_result, Hai. reflexivity.
  - intros text d body parsed Hd Hb E. apply app_inv_head in E. subst body.
    destruct (diagnostic_not_json _ _ Hd) as (d' & Hd'). congruence.
Qed.

Lemma parse_failure_surfaced_witness :
  (result (GeminiService.generatePrompt
             (fun _ => Resolved (Some (lit "{oops")))
             (Narration (stormyNight None)))
   = inr (lit "Gemini API Error: Unexpected token o in JSON at position 1")
   /\ App.prettyErrorMessage englishText
        (Some (lit "Gemini API Error: Unexpected token o in JSON at position 1"))
      = Some (lit "Gemini API error: Unexpected token o in JSON at position 1"))
  /\ result (GeminiService.generatePrompt
               (fun _ => Rejected (JsError (lit "fetch failed")))
               (Narration (stormyNight None)))
     = inr (lit "Gemini API Error: fetch failed")
  /\ lit "Gemini API Error: Unexpected token o in JSON at position 1"
     <> lit "Gemini API Error: " ++ errorBody (lit "quota exceeded").
Proof.
  split; [|split].
  - apply (proj1 (parse_failure_surfaced englishText
                    (fun _ => Resolved (Some (lit "{oops")))
                    (Narration (stormyNight None))) (lit "{oops"));
      reflexivity.
  - apply (proj1 (proj2 (parse_failure_surfaced englishText
                           (fun _ => Rejected (JsError (lit "fetch failed")))
                           (Narration (stormyNight None))))).
    reflexivity.
  - eapply (proj2 (proj2 (parse_failure_surfaced englishText emptyObjectModel
                            (Narration (stormyNight None))))
                  (lit "{oops"));
      reflexivity.
Defined.

Lemma get_missing (v : Json.value) (k : jsstring) :
  v <> Json.JNull -> hasProperty v k = false -> Json.get v k = inl None.
Proof.
  destruct v; simpl; try reflexivity; [congruence|].
  destruct (Json.lookup k members); [discriminate | reflexivity].
Qed.

(** C6, as stated, fails.  The response [null] parses and has no
    [integrated_text]; reading the field of [null] throws, and
    [generatePrompt] fails. *)
Lemma null_response_fails :
  let ai : Model := fun _ => Resolved (Some (lit "null")) in
  Json.parse (trim (lit "null")) = inl Json.JNull
  /\ hasProperty Json.JNull (lit "integrated_text") = false
  /\ result (GeminiService.generatePrompt ai (Narration (stormyNight None)))
     = inr (lit "Gemini API Error: Cannot read properties of null (reading 'integrated_text')").
Proof. repeat split. Qed.

(** C6, amended.  For a response that parses to a JSON value other than
    [null] without an [integrated_text] property, [generatePrompt] does not
    fail: it makes its one call and returns the parsed value as [json] and
    the fixed fallback string as [integrated]. *)
Theorem missing_integrated_text_fallback
        (ai : Model) (request : PromptRequest) (text : jsstring) (v : Json.value) :
  ai (GeminiService.generatePromptParams request) = Resolved (Some text) ->
  Json.parse (trim text) = inl v ->
  v <> Json.JNull ->
  hasProperty v (lit "integrated_text") = false ->
  result (GeminiService.generatePrompt ai request)
  = inl {| json := v;
           integrated := Json.JString (lit "Failed to generate integrated text.") |}.
Proof.
  intros Hai Hp Hv Hf.
  rewrite generatePrompt_result, Hai. unfold GeminiService.readResponse.
  rewrite Hp, (get_missing v _ Hv Hf). reflexivity.
Qed.

Lemma missing_integrated_text_fallback_witness :
  result (GeminiService.generatePrompt (fun _ => Resolved (Some partialResponse))
                                       (Narration (stormyNight None)))
  = inl {| json := Json.JObject [ (lit "scenario", Json.JString (lit "storm")) ];
           integrated := Json.JString (lit "Failed to generate integrated text.") |}.
Proof.
  apply (missing_integrated_text_fallback
           (fun _ => Resolved (Some partialResponse))
           (Narration (stormyNight None)) partialResponse);
    [reflexivity | reflexivity | discriminate | reflexivity].
Defined.

(** C10.  When the response parses to an object whose [integrated_text] is
    the empty string, the [integrated] field of the result is the fallback
    string, not the empty string; the same holds for every falsy
    [integrated_text] ([null], [false], zero). *)
Theorem empty_integrated_text_fallback
        (ai : Model) (request : PromptRequest) (text : jsstring)
        (members : list (jsstring * Json.value)) (x : Json.value) :
  ai (GeminiService.generatePromptParams request) = Resolved (Some text) ->
  Json.parse (trim text) = inl (Json.JObject members) ->
  Json.lookup (lit "integrated_text") members = Some x ->
  x = Json.JString [] \/ Json.truthy x = false ->
  result (GeminiService.generatePrompt ai request)
  = inl {| json := Json.JObject members;
           integrated := Json.JString (lit "Failed to generate integrated text.") |}
  /\ Json.JString (lit "Failed to generate integrated text.") <> Json.JString [].
Proof.
  intros Hai Hp Hl Hx.
  assert (Hf : Json.truthy x = false) by (destruct Hx as [-> | H]; auto).
  split; [|discriminate].
  rewrite generatePrompt_result, Hai. unfold GeminiService.readResponse.
  rewrite Hp. cbn [Json.get]. now rewrite Hl, Hf.
Qed.

Lemma empty_integrated_text_fallback_witness :
  result (GeminiService.generatePrompt
            (fun _ => Resolved (Some emptyIntegratedResponse))
            (Narration (stormyNight None)))
  = inl {| json := Json.JObject [ (lit "integrated_text", Json.JString []) ];
           integrated := Json.JString (lit "Failed to generate integrated text.") |}.
Proof.
  apply (empty_integrated_text_fallback
           (fun _ => Resolved (Some emptyIntegratedResponse))
           (Narration (stormyNight None)) emptyIntegratedResponse
           [ (lit "integrated_text", Json.JString []) ] (Json.JString []));
    [reflexivity | reflexivity | reflexivity | left; reflexivity].
Defined.

(** ** The displayed error *)

(** C7, as stated, fails.  The suffix [{"error":{"message":""}}] decodes
    to an object that contains [error.message], and the display is the
    error string as it came, marker and JSON included, not the localised
    prefix with the message. *)
Lemma empty_message_shown_raw :
  let e := lit "Gemini API Error: " ++ errorBody [] in
  Json.parse (errorBody [])
  = inl (Json.JObject
           [ (lit "error", Json.JObject [ (lit "message", Json.JString []) ]) ])
  /\ App.prettyErrorMessage englishText (Some e) = Some e
  /\ e <> geminiErrorPrefix englishText ++ []
  /\ e <> template [ geminiErrorPrefix englishText; lit ": "; [] ].
Proof.
  repeat split; apply eqb_neq; vm_compute; reflexivity.
Qed.

(** C7, amended.  For an error string that starts with
    "Gemini API Error: ": when the suffix JSON-decodes to a value whose
    [error.message] is a non-empty string, the display is the localised
    prefix, ": " and that message (so the suffix
    [{"error":{"message":"quota exceeded"}}] shows the prefix and
    ": quota exceeded"); when the suffix does not JSON-decode, the display
    is the localised prefix, ": " and the suffix; when it decodes without
    a truthy [error.message], the display is the error string unchanged. *)
Theorem prettyErrorMessage_marked_error (T : UiText) (suffix : jsstring) :
  (forall parsed s,
      Json.parse suffix = inl parsed ->
      Json.getOpt (Json.getOpt (Some parsed) (lit "error")) (lit "message")
      = Some (Json.JString s) ->
      s <> [] ->
      App.prettyErrorMessage T (Some (lit "Gemini API Error: " ++ suffix))
      = Some (geminiErrorPrefix T ++ lit ": " ++ s))
  /\ (forall d,
         Json.parse suffix = inr d ->
         App.prettyErrorMessage T (Some (lit "Gemini API Error: " ++ suffix))
         = Some (geminiErrorPrefix T ++ lit ": " ++ suffix))
  /\ (forall parsed,
         Json.parse suffix = inl parsed ->
         match Json.getOpt (Json.getOpt (Some parsed) (lit "error")) (lit "message") with
         | Some m => Json.truthy m = false
         | None => True
         end ->
         App.prettyErrorMessage T (Some (lit "Gemini API Error: " ++ suffix))
         = Some (lit "Gemini API Error: " ++ suffix))
  /\ App.prettyErrorMessage T
       (Some (lit "Gemini API Error: " ++ errorBody (lit "quota exceeded")))
     = Some (geminiErrorPrefix T ++ lit ": quota exceeded").
Proof.
  change (lit "Gemini API Error: ") with App.apiErrorPrefix.
  repeat split.
  - intros parsed s Hp Hm Hs. rewrite prettyErrorMessage_marked, Hp, Hm.
    destruct s; [congruence|]. unfold template. simpl.
    now rewrite app_nil_r.
  - intros d Hp. rewrite prettyErrorMessage_marked, Hp.
    unfold template. simpl. now rewrite app_nil_r.
  - intros parsed Hp Hm. rewrite prettyErrorMessage_marked, Hp.
    destruct (Json.getOpt _ _) as [m|]; [now rewrite Hm | reflexivity].
Qed.

Lemma prettyErrorMessage_marked_error_witness :
  App.prettyErrorMessage englishText
    (Some (lit "Gemini API Error: " ++ errorBody (lit "quota exceeded")))
  = Some (lit "Gemini API error: quota exceeded")
  /\ App.prettyErrorMessage englishText
       (Some (lit "Gemini API Error: " ++ lit "fetch failed"))
     = Some (lit "Gemini API error: fetch failed")
  /\ App.prettyErrorMessage englishText
       (Some (lit "Gemini API Error: " ++ lit "{}"))
     = Some (lit "Gemini API Error: {}").
Proof.
  destruct (prettyErrorMessage_marked_error englishText
              (errorBody (lit "quota exceeded"))) as (H1 & _).
  destruct (prettyErrorMessage_marked_error englishText (lit "fetch failed"))
    as (_ & H2 & _).
  destruct (prettyErrorMessage_marked_error englishText (lit "{}"))
    as (_ & _ & H3 & _).
  split; [|split].
  - eapply (H1 _ (lit "quota exceeded")); [reflexivity | reflexivity | discriminate].
  - apply (H2 (lit "Unexpected token e in JSON at position 1")). reflexivity.
  - apply (H3 (Json.JObject [])); [reflexivity | exact I].
Defined.

(** ** The narrator-details helper *)

Lemma narratorDetails_result (ai : Model) (scenario : jsstring) (lang : Language) :
  result (GeminiService.generateNarratorDetailsSuggestion ai scenario lang)
  = match GeminiService.readNarratorDetails
            (ai (GeminiService.narratorDetailsParams scenario lang)) with
    | inl details => inl details
    | inr _ => inr GeminiService.narratorDetailsFailure
    end.
Proof. reflexivity. Qed.

(** C8, as stated, fails.  The response [{}] parses, and the helper
    returns it: a result with none of the four fields. *)
Lemma empty_details_returned :
  let ai : Model := fun _ => Resolved (Some (lit "{}")) in
  result (GeminiService.generateNarratorDetailsSuggestion ai (lit "A storm") en)
  = inl (Json.JObject [])
  /\ hasProperty (Json.JObject []) (lit "persona") = false.
Proof. repeat split. Qed.

(** C8, amended.  When [JSON.parse] fails on the response, the helper
    throws the [Error] "Failed to generate narrator details." and no value
    is substituted; when it succeeds, the helper returns the parsed value
    as it is, without looking at its fields.  The four fields are named
    and required in the schema sent with the request. *)
Theorem narrator_details_no_fallback
        (ai : Model) (scenario : jsstring) (lang : Language) :
  (forall text d,
      ai (GeminiService.narratorDetailsParams scenario lang) = Resolved (Some text) ->
      Json.parse (trim text) = inr d ->
      result (GeminiService.generateNarratorDetailsSuggestion ai scenario lang)
      = inr (lit "Failed to generate narrator details."))
  /\ (forall text v,
         ai (GeminiService.narratorDetailsParams scenario lang) = Resolved (Some text) ->
         Json.parse (trim text) = inl v ->
         result (GeminiService.generateNarratorDetailsSuggestion ai scenario lang)
         = inl v)
  /\ map responseSchema
         (calls (GeminiService.generateNarratorDetailsSuggestion ai scenario lang))
     = [ Some (OBJECT [ (lit "persona", STRING); (lit "emotion", STRING);
                        (lit "tone", STRING); (lit "environment", STRING) ]
                      [ lit "persona"; lit "emotion"; lit "tone";
                        lit "environment" ]) ].
Proof.
  repeat split.
  - intros text d Hai Hp. rewrite narratorDetails_result, Hai.
    unfold GeminiService.readNarratorDetails. now rewrite Hp.
  - intros text v Hai Hp. rewrite narratorDetails_result, Hai.
    unfold GeminiService.readNarratorDetails. now rewrite Hp.
Qed.

Lemma narrator_details_no_fallback_witness :
  result (GeminiService.generateNarratorDetailsSuggestion
            (fun _ => Resolved (Some (lit "{oops"))) (lit "A storm") ko)
  = inr (lit "Failed to generate narrator details.")
  /\ result (GeminiService.generateNarratorDetailsSuggestion
               (fun _ => Resolved (Some partialResponse)) (lit "A storm") en)
     = inl (Json.JObject [ (lit "scenario", Json.JString (lit "storm")) ]).
Proof.
  split.
  - apply (proj1 (narrator_details_no_fallback
                    (fun _ => Resolved (Some (lit "{oops"))) (lit "A storm") ko)
                 (lit "{oops") (lit "Unexpected token o in JSON at position 1"));
      reflexivity.
  - apply (proj1 (proj2 (narrator_details_no_fallback
                           (fun _ => Resolved (Some partialResponse))
                           (lit "A storm") en))
                 partialResponse);
      reflexivity.
Defined.

(** ** Submission *)

Lemma validCharacter_false (c : Character.t) :
  App.validCharacter c = false
  <-> trim (Character.name c) = [] \/ trim (Character.persona c) = [].
Proof.
  unfold App.validCharacter.
  rewrite andb_false_iff, !negb_false_iff, !eqb_eq. reflexivity.
Qed.

Lemma filter_nil {A} (f : A -> bool) (l : list A) :
  (forall x, In x l -> f x = false) -> filter f l = [].
Proof.
  induction l as [|x l IH]; intros H; [reflexivity|]. simpl.
  rewrite (H x) by (left; reflexivity). apply IH. intros y Hy. apply H. now right.
Qed.

Lemma buildRequest_none (st : App.State) :
  App.speechType st <> NARRATION ->
  (forall c, In c (App.characters st) ->
             trim (Character.name c) = [] \/ trim (Character.persona c) = []) ->
  App.buildRequest st = None.
Proof.
  intros Ht Hc. unfold App.buildRequest.
  rewrite (filter_nil App.validCharacter (App.characters st))
    by (intros c Hin; apply validCharacter_false; auto).
  destruct (App.speechType st); [congruence | reflexivity | reflexivity].
Qed.

(** C5.  In a dialogue mode, when no character has both a name and a
    persona that [trim] leaves non-empty, [handleSubmit] builds no request
    and makes no call to the model: the log of calls is unchanged, the error
    of the form is the need-a-character message of the localisation table,
    and the form is neither loading nor showing a result. *)
Theorem no_valid_character_rejected
        (T : UiText) (ai : Model) (st : App.State)
        (log : list GenerateContentParams) :
  App.speechType st <> NARRATION ->
  (forall c, In c (App.characters st) ->
             trim (Character.name c) = [] \/ trim (Character.persona c) = []) ->
  App.buildRequest st = None
  /\ snd (App.handleSubmit T ai st log) = log
  /\ App.error (fst (App.handleSubmit T ai st log)) = Some (errorCharacterNeeded T)
  /\ App.isLoading (fst (App.handleSubmit T ai st log)) = false
  /\ App.generatedPrompt (fst (App.handleSubmit T ai st log)) = None.
Proof.
  intros Ht Hc. pose proof (buildRequest_none st Ht Hc) as E.
  unfold App.handleSubmit. rewrite E. repeat split; auto.
Qed.

Lemma no_valid_character_rejected_witness :
  calls (App.handleSubmit englishText emptyObjectModel
           (freshDialogueForm (lit "   ") (lit "a pilot"))) = []
  /\ App.error (result (App.handleSubmit englishText emptyObjectModel
                          (freshDialogueForm (lit "   ") (lit "a pilot"))))
     = Some (lit "Please add at least one character.").
Proof.
  destruct (no_valid_character_rejected englishText emptyObjectModel
              (freshDialogueForm (lit "   ") (lit "a pilot")) [])
    as (_ & H1 & H2 & _).
  - discriminate.
  - intros c [<- | [<- | []]]; [left | left]; reflexivity.
  - split; [exact H1 | exact H2].
Defined.

(** With a valid character the request goes out: one call. *)
Lemma valid_character_submitted :
  List.length (calls (App.handleSubmit englishText emptyObjectModel
                        (freshDialogueForm (lit "Alice") (lit "a pilot")))) = 1%nat.
Proof. reflexivity. Qed.

(** ** Removing a character *)

(** C9.  Removing the character [id] keeps the script lines in number and
    order; a line that referred to [id] is left unassigned, any other line
    keeps its character, and every line keeps its identity, text, emotion
    and tone.  Afterwards no character of the form has the identity [id],
    no assigned line refers to [id], and if every assigned line referred to
    a character of the form before, every assigned line does so after. *)
Theorem handleRemoveCharacter_clears_references (id : jsstring) (st : App.State) :
  let st' := App.handleRemoveCharacter id st in
  (forall i l,
      nth_error (App.script st) i = Some l ->
      exists l',
        nth_error (App.script st') i = Some l'
        /\ ScriptLine.id l' = ScriptLine.id l
        /\ ScriptLine.line l' = ScriptLine.line l
        /\ ScriptLine.emotion l' = ScriptLine.emotion l
        /\ ScriptLine.tone l' = ScriptLine.tone l
        /\ ScriptLine.characterId l'
           = if JsString.eqb (ScriptLine.characterId l) id then []
             else ScriptLine.characterId l)
  /\ List.length (App.script st') = List.length (App.script st)
  /\ (forall c, In c (App.characters st') ->
                In c (App.characters st) /\ Character.id c <> id)
  /\ (forall l', In l' (App.script st') ->
                 ScriptLine.characterId l' <> [] ->
                 ScriptLine.characterId l' <> id)
  /\ (noDanglingReference st -> noDanglingReference st').
Proof.
  set (clear := fun l => if JsString.eqb (ScriptLine.characterId l) id
                         then App.clearCharacter l else l).
  assert (Hs : App.script (App.handleRemoveCharacter id st)
               = map clear (App.script st)) by reflexivity.
  assert (Hc : App.characters (App.handleRemoveCharacter id st)
               = filter (fun c => negb (JsString.eqb (Character.id c) id))
                        (App.characters st)) by reflexivity.
  assert (Hin : forall l', In l' (map clear (App.script st)) ->
                           ScriptLine.characterId l' <> [] ->
                           In l' (App.script st)
                           /\ ScriptLine.characterId l' <> id).
  { intros l' H Hne. apply in_map_iff in H. destruct H as (l & <- & H).
    unfold clear in *.
    destruct (JsString.eqb (ScriptLine.characterId l) id) eqn:E.
    - exfalso. apply Hne. reflexivity.
    - split; [exact H | now apply eqb_neq]. }
  cbv zeta. rewrite Hs, Hc. repeat split.
  - intros i l Hi. exists (clear l). split.
    + rewrite nth_error_map, Hi. reflexivity.
    + unfold clear.
      destruct (JsString.eqb (ScriptLine.characterId l) id); repeat split.
  - apply length_map.
  - apply filter_In in H. tauto.
  - apply filter_In in H. destruct H as (_ & H).
    apply negb_true_iff in H. now apply eqb_neq.
  - intros l' H Hne. now apply Hin.
  - intros Hinv l' H Hne. destruct (Hin l' H Hne) as (Hl & Hid).
    destruct (Hinv l' Hl Hne) as (c & Hcin & Hcid).
    exists c. split; [|exact Hcid].
    apply filter_In. split; [exact Hcin|].
    apply negb_true_iff, eqb_neq. congruence.
Qed.

Lemma handleRemoveCharacter_clears_references_witness :
  noDanglingReference twoCharacterForm
  /\ noDanglingReference (App.handleRemoveCharacter (lit "char-2") twoCharacterForm)
  /\ App.script (App.handleRemoveCharacter (lit "char-2") twoCharacterForm)
     = [ helloLine (lit "char-1"); helloLine []; helloLine [] ].
Proof.
  assert (H : noDanglingReference twoCharacterForm).
  { intros l [<- | [<- | [<- | []]]] Hne.
    - eexists; split; [left; reflexivity | reflexivity].
    - eexists; split; [right; left; reflexivity | reflexivity].
    - exfalso; apply Hne; reflexivity. }
  split; [exact H|]. split; [|reflexivity].
  apply (handleRemoveCharacter_clears_references (lit "char-2") twoCharacterForm).
  exact H.
Defined.

(* ================================================================== *)
(** * Further properties of the request builder *)

Lemma dialogue_prompt_duration (r : DialogueRequest.t) :
  Contains (GeminiService.userPrompt (Dialogue r))
           (GeminiService.durationConstraint (DialogueRequest.duration r)).
Proof.
  cbn [GeminiService.userPrompt].
  destruct (GeminiService.hasScript r); apply Contains_template; in_pieces.
Qed.

(** X1.  The duration clause of a dialogue, in both sub-modes: a
    duration that reads as a numeral below 2^53 puts "approximately N
    seconds" in the instruction, N being that numeral; any duration
    [parseInt] reads as a number above zero puts the clause there with the
    number as a template literal prints it; an absent duration, one that
    reads as no number above zero, one read as NaN or as a number not above
    zero leaves the instruction as it is without a duration. *)
Theorem dialogue_duration_clause (ai : Model) (r : DialogueRequest.t) :
  (forall d num,
      DialogueRequest.duration r = Some d ->
      ReadsNumeral d num ->
      digitsValue num < 2 ^ 53 ->
      exists text,
        instructionSent ai (Dialogue r) = [text]
        /\ Contains text (lit "approximately " ++ num ++ lit " seconds"))
  /\ (forall d,
         DialogueRequest.duration r = Some d ->
         Number.isNaN (parseInt d 10) = false ->
         Number.positive (parseInt d 10) = true ->
         exists text,
           instructionSent ai (Dialogue r) = [text]
           /\ Contains text
                (lit "approximately " ++ Number.toString (parseInt d 10)
                   ++ lit " seconds"))
  /\ (DialogueRequest.duration r = None
      \/ (exists d, DialogueRequest.duration r = Some d
                    /\ (ReadsNoPositive d
                        \/ Number.isNaN (parseInt d 10) = true
                        \/ Number.positive (parseInt d 10) = false)) ->
      instructionSent ai (Dialogue r)
      = instructionSent ai (Dialogue (withoutDialogueDuration r))).
Proof.
  pose proof (dialogue_prompt_duration r) as C.
  split; [|split].
  - intros d num Hd Hr Hv. exists (GeminiService.userPrompt (Dialogue r)).
    split; [reflexivity|]. apply (Contains_trans _ _ _ C).
    rewrite Hd, (durationConstraint_numeral d num) by assumption.
    apply clause_names.
  - intros d Hd Hn Hp. exists (GeminiService.userPrompt (Dialogue r)).
    split; [reflexivity|]. apply (Contains_trans _ _ _ C).
    rewrite Hd, durationConstraint_positive by assumption. apply clause_names.
  - intros H.
    assert (E : GeminiService.durationConstraint (DialogueRequest.duration r) = []).
    { destruct H as [-> | (d & -> & [H | H])]; [reflexivity | |].
      - now apply durationConstraint_unread.
      - now apply durationConstraint_absent. }
    rewrite !instructionSent_userPrompt. cbn [GeminiService.userPrompt].
    change (GeminiService.hasScript (withoutDialogueDuration r))
      with (GeminiService.hasScript r).
    unfold GeminiService.formatScriptPrompt, GeminiService.fromScratchPrompt.
    now rewrite E.
Qed.

Lemma dialogue_duration_clause_witness :
  (exists text,
      instructionSent emptyObjectModel
        (Dialogue (timedRequest [helloLine (lit "char-1")] (lit "+45sec")))
      = [text]
      /\ Contains text (lit "approximately 45 seconds"))
  /\ instructionSent emptyObjectModel (Dialogue (timedRequest [] (lit "0")))
     = instructionSent emptyObjectModel
         (Dialogue (withoutDialogueDuration (timedRequest [] (lit "0")))).
Proof.
  split.
  - refine (proj1 (dialogue_duration_clause emptyObjectModel
                     (timedRequest [helloLine (lit "char-1")] (lit "+45sec")))
                  (lit "+45sec") (lit "45") _ _ _).
    + reflexivity.
    + exists [], (lit "+"), [], (lit "sec"). repeat split; auto.
    + vm_compute. reflexivity.
  - apply (proj2 (proj2 (dialogue_duration_clause emptyObjectModel
                           (timedRequest [] (lit "0"))))).
    right. exists (lit "0"). split; [reflexivity|]. left.
    apply (reads_zero [] [] (lit "0") []);
      [reflexivity | left; reflexivity | discriminate | reflexivity | exact I].
Defined.

(** A run of pieces of a template occurs in the text. *)
Lemma Contains_run (before run after : list jsstring) :
  Contains (template (before ++ run ++ after)) (template run).
Proof.
  exists (template before), (template after).
  unfold template. now rewrite !concat_app.
Qed.

(** A piece without the indentation before it. *)
Lemma Contains_indented (text indent piece : jsstring) :
  Contains text (indent ++ piece) -> Contains text piece.
Proof.
  intros H. eapply Contains_trans; [exact H|].
  exists indent, []. now rewrite app_nil_r.
Qed.

(** X2.  The instruction of a narration holds each of the five fields of
    the request, word for word, after its label and up to the end of the
    line. *)
Theorem narration_fields_embedded (ai : Model) (r : NarrationRequest.t) :
  exists text,
    instructionSent ai (Narration r) = [text]
    /\ Contains text (lit "- Scenario: " ++ NarrationRequest.scenario r ++ nl)
    /\ Contains text (lit "- Narrator's Persona: " ++ NarrationRequest.persona r ++ nl)
    /\ Contains text (lit "- Primary Emotion: " ++ NarrationRequest.emotion r ++ nl)
    /\ Contains text (lit "- Vocal Tones: " ++ NarrationRequest.tone r ++ nl)
    /\ Contains text (lit "- Environment: " ++ NarrationRequest.environment r ++ nl).
Proof.
  exists (GeminiService.narrationPrompt r). split; [reflexivity|].
  unfold GeminiService.narrationPrompt.
  repeat split; apply Contains_indented with (indent := lit "      ").
  - eapply Contains_trans;
      [ apply (Contains_run [_; _; _] [_; _; _]) | ].
    unfold template. cbn [List.concat]. rewrite app_nil_r. apply Contains_refl.
  - eapply Contains_trans;
      [ apply (Contains_run [_; _; _; _; _; _] [_; _; _]) | ].
    unfold template. cbn [List.concat]. rewrite app_nil_r. apply Contains_refl.
  - eapply Contains_trans;
      [ apply (Contains_run [_; _; _; _; _; _; _; _; _] [_; _; _]) | ].
    unfold template. cbn [List.concat]. rewrite app_nil_r. apply Contains_refl.
  - eapply Contains_trans;
      [ apply (Contains_run [_; _; _; _; _; _; _; _; _; _; _; _] [_; _; _]) | ].
    unfold template. cbn [List.concat]. rewrite app_nil_r. apply Contains_refl.
  - eapply Contains_trans;
      [ apply (Contains_run [_; _; _; _; _; _; _; _; _; _; _; _; _; _; _] [_; _; _]) | ].
    unfold template. cbn [List.concat]. rewrite app_nil_r. apply Contains_refl.
Qed.

Lemma characterDescriptions_entry (r : DialogueRequest.t) (c : Character.t) :
  In c (DialogueRequest.characters r) ->
  Contains (GeminiService.characterDescriptions r)
           (lit "- " ++ Character.name c ++ lit ": " ++ Character.persona c).
Proof.
  intros H. apply Contains_join.
  apply in_map_iff. exists c. split; [|exact H].
  unfold template. cbn [List.concat]. now rewrite app_nil_r.
Qed.

(** X3.  In both sub-modes the instruction of a dialogue holds the scenario
    after its label and, for every character of the request, the entry
    "- name: persona". *)
Theorem roster_embedded (ai : Model) (r : DialogueRequest.t) :
  exists text,
    instructionSent ai (Dialogue r) = [text]
    /\ Contains text (lit "- Scenario: " ++ DialogueRequest.scenario r ++ nl)
    /\ forall c, In c (DialogueRequest.characters r) ->
                 Contains text (lit "- " ++ Character.name c ++ lit ": "
                                  ++ Character.persona c).
Proof.
  exists (GeminiService.userPrompt (Dialogue r)). split; [reflexivity|].
  cbn [GeminiService.userPrompt].
  destruct (GeminiService.hasScript r);
    unfold GeminiService.formatScriptPrompt, GeminiService.fromScratchPrompt;
    (split;
     [ apply Contains_indented with (indent := lit "          ");
       eapply Contains_trans;
       [ apply (Contains_run [_; _; _] [_; _; _]) | ];
       unfold template; cbn [List.concat]; rewrite app_nil_r; apply Contains_refl
     | intros c Hc;
       apply Contains_trans with (t := GeminiService.characterDescriptions r);
       [ apply Contains_template; in_pieces
       | now apply characterDescriptions_entry ] ]).
Qed.

Lemma roster_embedded_witness :
  exists text,
    instructionSent emptyObjectModel (Dialogue (requestWithScript [])) = [text]
    /\ Contains text (lit "- Alice: a pilot").
Proof.
  destruct (roster_embedded emptyObjectModel (requestWithScript []))
    as (text & E & _ & H).
  exists text. split; [exact E|]. apply (H alice). left; reflexivity.
Defined.

(** ** The names of the speakers *)

(** Insert, then look up. *)
Lemma Map_get_set (m : list (jsstring * jsstring)) (k v k' : jsstring) :
  Map_get (Map_set k v m) k'
  = if JsString.eqb k k' then Some v else Map_get m k'.
Proof.
  induction m as [|[k0 v0] m IH]; cbn [Map_set Map_get].
  - destruct (JsString.eqb k k'); reflexivity.
  - destruct (JsString.eqb k0 k) eqn:E0; cbn [Map_get].
    + apply eqb_eq in E0. subst k0.
      destruct (JsString.eqb k k'); reflexivity.
    + rewrite IH. destruct (JsString.eqb k0 k') eqn:E1; [|reflexivity].
      apply eqb_eq in E1. subst k0.
      destruct (JsString.eqb k k') eqn:E2; [|reflexivity].
      apply eqb_eq in E2. subst k'. rewrite eqb_refl in E0. discriminate.
Qed.

Lemma find_append {A} (f : A -> bool) (l1 l2 : list A) :
  find f (l1 ++ l2)
  = match find f l1 with Some x => Some x | None => find f l2 end.
Proof.
  induction l1 as [|x l1 IH]; [reflexivity|]. cbn [app find].
  destruct (f x); [reflexivity | exact IH].
Qed.

Lemma Map_get_fold (entries : list (jsstring * jsstring))
      (m : list (jsstring * jsstring)) (k : jsstring) :
  Map_get (fold_left (fun m e => Map_set (fst e) (snd e) m) entries m) k
  = match find (fun e => JsString.eqb (fst e) k) (rev entries) with
    | Some e => Some (snd e)
    | None => Map_get m k
    end.
Proof.
  revert m. induction entries as [|e entries IH]; intros m; [reflexivity|].
  cbn [fold_left rev]. rewrite IH, find_append.
  destruct (find _ (rev entries)); [reflexivity|].
  cbn [find]. rewrite Map_get_set.
  destruct (JsString.eqb (fst e) k); reflexivity.
Qed.

(** The map of a request gives, for an identifier, the name of the last
    character of the request that has it. *)
Lemma characterMap_get (r : DialogueRequest.t) (k : jsstring) :
  Map_get (GeminiService.characterMap r) k
  = option_map Character.name
      (find (fun c => JsString.eqb (Character.id c) k)
            (rev (DialogueRequest.characters r))).
Proof.
  unfold GeminiService.characterMap, Map_new.
  rewrite Map_get_fold, <- map_rev.
  induction (rev (DialogueRequest.characters r)) as [|c cs IH]; [reflexivity|].
  cbn [map find fst]. destruct (JsString.eqb (Character.id c) k); [reflexivity|].
  exact IH.
Qed.

Lemma find_none_iff {A} (f : A -> bool) (l : list A) :
  find f l = None <-> forall x, In x l -> f x = false.
Proof.
  split; [apply find_none|].
  induction l as [|x l IH]; intros H; [reflexivity|]. cbn [find].
  rewrite (H x) by (left; reflexivity). apply IH. intros y Hy. apply H. now right.
Qed.

Lemma NoDup_map_inj {A B} (f : A -> B) (l : list A) (x y : A) :
  NoDup (map f l) -> In x l -> In y l -> f x = f y -> x = y.
Proof.
  induction l as [|a l IH]; intros Hnd Hx Hy E; [destruct Hx|].
  cbn [map] in Hnd. inversion Hnd as [|? ? Hna Hnd']; subst.
  destruct Hx as [-> | Hx], Hy as [-> | Hy]; auto.
  - exfalso. apply Hna. rewrite E. now apply in_map.
  - exfalso. apply Hna. rewrite <- E. now apply in_map.
Qed.

Lemma charName_unknown (r : DialogueRequest.t) (l : ScriptLine.t) :
  (forall c, In c (DialogueRequest.characters r) ->
             Character.id c <> ScriptLine.characterId l) ->
  GeminiService.charName r l = lit "Unknown Character".
Proof.
  intros H. unfold GeminiService.charName. rewrite characterMap_get.
  assert (E : find (fun c => JsString.eqb (Character.id c) (ScriptLine.characterId l))
                   (rev (DialogueRequest.characters r)) = None).
  { apply find_none_iff. intros c Hc. apply eqb_neq, H. now apply in_rev. }
  now rewrite E.
Qed.

(** X4.  The speaker of a script line.  When no character of the request
    has the identifier of the line (an unassigned line among them), the
    speaker is "Unknown Character".  When the identifiers of the characters
    are distinct and one has the identifier of the line, the speaker is its
    name, or "Unknown Character" if the name is empty. *)
Theorem charName_resolution (r : DialogueRequest.t) (l : ScriptLine.t) :
  ((forall c, In c (DialogueRequest.characters r) ->
              Character.id c <> ScriptLine.characterId l) ->
   GeminiService.charName r l = lit "Unknown Character")
  /\ (forall c,
         NoDup (map Character.id (DialogueRequest.characters r)) ->
         In c (DialogueRequest.characters r) ->
         Character.id c = ScriptLine.characterId l ->
         GeminiService.charName r l
         = if JsString.falsy (Character.name c) then lit "Unknown Character"
           else Character.name c).
Proof.
  split; [apply charName_unknown|].
  unfold GeminiService.charName. rewrite characterMap_get.
  - intros c Hnd Hc Hid.
    destruct (find _ (rev (DialogueRequest.characters r))) as [c'|] eqn:E.
    + apply find_some in E. destruct E as (Hc' & E). apply eqb_eq in E.
      apply in_rev in Hc'.
      assert (c' = c) by (eapply NoDup_map_inj; eauto; congruence).
      subst c'. reflexivity.
    + exfalso. apply in_rev in Hc.
      pose proof (find_none _ _ E c Hc) as F. cbv beta in F.
      rewrite Hid, eqb_refl in F. discriminate.
Qed.

Lemma charName_resolution_witness :
  GeminiService.charName (requestWithScript []) (helloLine (lit "char-9"))
  = lit "Unknown Character"
  /\ GeminiService.charName (requestWithScript []) (helloLine (lit "char-1"))
     = lit "Alice".
Proof.
  split.
  - apply (proj1 (charName_resolution (requestWithScript [])
                                      (helloLine (lit "char-9")))).
    intros c [<- | []]. discriminate.
  - apply (proj2 (charName_resolution (requestWithScript [])
                                      (helloLine (lit "char-1"))) alice).
    + repeat constructor. intros [].
    + left; reflexivity.
    + reflexivity.
Defined.

Lemma scriptEntry_in_prompt (r : DialogueRequest.t) (l : ScriptLine.t) :
  In l (DialogueRequest.script r) ->
  trim (ScriptLine.line l) <> [] ->
  Contains (GeminiService.userPrompt (Dialogue r)) (GeminiService.scriptEntry r l).
Proof.
  intros Hin Ht. cbn [GeminiService.userPrompt].
  assert (E : GeminiService.hasScript r = true) by (apply hasScript_true; eauto).
  rewrite E.
  apply Contains_trans with (t := GeminiService.scriptContent r).
  - apply Contains_template. in_pieces.
  - apply Contains_join, in_map, filter_In. split; auto. now apply nonBlank_true.
Qed.

Lemma scriptEntry_spoken (r : DialogueRequest.t) (l : ScriptLine.t) :
  Contains (GeminiService.scriptEntry r l) (spokenBy (GeminiService.charName r l) l).
Proof.
  unfold GeminiService.scriptEntry, spokenBy.
  pose proof (Contains_run [] [GeminiService.charName r l; lit ": "; quote;
                                ScriptLine.line l; quote]) as H.
  cbn [app] in H. eapply Contains_trans; [apply H|].
  unfold template. cbn [List.concat]. rewrite app_nil_r. apply Contains_refl.
Qed.

(** X5.  A line of the form that has text and is assigned to a character
    which [handleSubmit] leaves out (none of the characters with a name and
    a persona has its identifier) is still submitted, and the instruction
    gives it to "Unknown Character". *)
Theorem dropped_character_unknown
        (ai : Model) (st : App.State) (r : DialogueRequest.t) (l : ScriptLine.t) :
  App.buildRequest st = Some (Dialogue r) ->
  In l (App.script st) ->
  trim (ScriptLine.line l) <> [] ->
  ScriptLine.characterId l <> [] ->
  (forall c, In c (App.characters st) -> App.validCharacter c = true ->
             Character.id c <> ScriptLine.characterId l) ->
  exists text,
    instructionSent ai (Dialogue r) = [text]
    /\ Contains text (spokenBy (lit "Unknown Character") l).
Proof.
  intros Hb Hin Ht Hc Hno.
  destruct (buildRequest_dialogue st r Hb) as (Hs & Hcs & _).
  exists (GeminiService.userPrompt (Dialogue r)). split; [reflexivity|].
  assert (Hl : In l (DialogueRequest.script r)).
  { rewrite Hs. apply filter_In. split; auto. now apply submittedLine_true. }
  assert (Hn : GeminiService.charName r l = lit "Unknown Character").
  { apply charName_unknown. rewrite Hcs.
    intros c Hcin. apply filter_In in Hcin. destruct Hcin. auto. }
  apply Contains_trans with (t := GeminiService.scriptEntry r l);
    [apply scriptEntry_in_prompt; assumption|].
  rewrite <- Hn. apply scriptEntry_spoken.
Qed.

Lemma dropped_character_unknown_witness :
  exists text,
    instructionSent emptyObjectModel
      (Dialogue {| DialogueRequest.type := MULTI;
                   DialogueRequest.scenario := lit "Take-off";
                   DialogueRequest.characters :=
                     [ blankCharacter (lit "char-1") (lit "Alice") (lit "a pilot") ];
                   DialogueRequest.script := [ helloLine (lit "char-2") ];
                   DialogueRequest.duration := Some [] |})
    = [text]
    /\ Contains text (lit "Unknown Character: " ++ quote ++ lit "Hello" ++ quote).
Proof.
  apply (dropped_character_unknown emptyObjectModel formWithNamelessPersona _
                                   (helloLine (lit "char-2"))).
  - reflexivity.
  - left; reflexivity.
  - discriminate.
  - discriminate.
  - intros c [<- | [<- | []]] H; [discriminate | discriminate H].
Defined.

(* ================================================================== *)
(** * Further properties of the response handling *)

(** ** [trim] *)

Lemma trimStart_app (s t : jsstring) :
  trimStart (s ++ t)
  = match trimStart s with [] => trimStart t | _ :: _ => trimStart s ++ t end.
Proof.
  induction s as [|c s IH]; [reflexivity|]. cbn [app trimStart].
  destruct (isWhiteSpace c); [exact IH | reflexivity].
Qed.

Lemma trimEnd_ws (s ws : jsstring) :
  forallb isWhiteSpace ws = true -> trimEnd (s ++ ws) = trimEnd s.
Proof.
  intros H. unfold trimEnd. rewrite rev_app_distr, trimStart_ws; auto.
  now apply forallb_rev.
Qed.

(** White space around a text does not change what [trim] gives. *)
Lemma trim_padded (ws1 s ws2 : jsstring) :
  forallb isWhiteSpace ws1 = true -> forallb isWhiteSpace ws2 = true ->
  trim (ws1 ++ s ++ ws2) = trim s.
Proof.
  intros H1 H2. unfold trim. rewrite trimStart_ws by assumption.
  rewrite trimStart_app. destruct (trimStart s) as [|c a] eqn:E.
  - now rewrite trimStart_all_ws.
  - now rewrite trimEnd_ws.
Qed.

Lemma trimStart_fixed (s : jsstring) :
  match s with [] => True | c :: _ => isWhiteSpace c = false end ->
  trimStart s = s.
Proof. destruct s as [|c s]; [reflexivity|]. cbn [trimStart]. now intros ->. Qed.

(** What [trim] gives is trimmed. *)
Lemma trim_trimmed (s : jsstring) : trimmed (trim s).
Proof.
  unfold trimmed, trim at 1 2.
  set (a := trimStart s). set (b := trimEnd a).
  assert (Hb : trimEnd b = b).
  { unfold b, trimEnd. rewrite rev_involutive.
    rewrite (trimStart_fixed (trimStart (rev a))); [reflexivity|].
    apply trimStart_head. }
  assert (Ha : trimStart b = b).
  { apply trimStart_fixed.
    destruct (trimStart_split (rev a)) as (ws & E & _).
    apply (f_equal (@rev _)) in E. rewrite rev_involutive, rev_app_distr in E.
    fold (trimEnd a) in E. fold b in E.
    pose proof (trimStart_head s) as Hh. fold a in Hh.
    destruct b as [|c b']; [exact I|]. rewrite E in Hh. exact Hh. }
  unfold trim. fold a. fold b. now rewrite Ha, Hb.
Qed.

(** ** [generatePrompt] *)

Lemma generatePrompt_returned
      (ai : Model) (request : PromptRequest) (p : GeneratedPrompt) :
  result (GeminiService.generatePrompt ai request) = inl p ->
  exists text,
    ai (GeminiService.generatePromptParams request) = Resolved (Some text)
    /\ Json.parse (trim text) = inl (json p)
    /\ json p <> Json.JNull
    /\ integrated p
       = match Json.getOpt (Some (json p)) (lit "integrated_text") with
         | Some v => if Json.truthy v then v
                     else Json.JString (lit "Failed to generate integrated text.")
         | None => Json.JString (lit "Failed to generate integrated text.")
         end.
Proof.
  rewrite generatePrompt_result.
  destruct (ai (GeminiService.generatePromptParams request)) as [[text|]|e];
    cbn [GeminiService.readResponse]; try discriminate.
  destruct (Json.parse (trim text)) as [v|d] eqn:Hp; [|discriminate].
  destruct v; cbn [Json.get]; try discriminate;
    intros [= <-]; exists text; cbn [json integrated Json.getOpt];
    (repeat split; [exact Hp | discriminate]).
Qed.

(** X6.  [generatePrompt] returns a prompt exactly when the call resolves
    with a text that, once trimmed, parses to a JSON value other than
    [null]: the [json] of the prompt is that value, and its [integrated] is
    the [integrated_text] of the value when that is truthy, the fallback
    string otherwise.  In every other case (rejection, undefined text, text
    that does not parse, the text [null]) it throws. *)
Theorem generatePrompt_success_iff
        (ai : Model) (request : PromptRequest) (p : GeneratedPrompt) :
  result (GeminiService.generatePrompt ai request) = inl p
  <-> exists text,
      ai (GeminiService.generatePromptParams request) = Resolved (Some text)
      /\ Json.parse (trim text) = inl (json p)
      /\ json p <> Json.JNull
      /\ integrated p
         = match Json.getOpt (Some (json p)) (lit "integrated_text") with
           | Some v => if Json.truthy v then v
                       else Json.JString (lit "Failed to generate integrated text.")
           | None => Json.JString (lit "Failed to generate integrated text.")
           end.
Proof.
  split; [apply generatePrompt_returned|].
  rewrite generatePrompt_result.
  intros (text & -> & Hp & Hv & Hi). cbn [GeminiService.readResponse].
  rewrite Hp. destruct p as [v i]. cbn [json integrated] in *. subst i.
  destruct v; cbn [Json.get Json.getOpt]; try reflexivity. congruence.
Qed.

(** A response with its integrated text, between blank lines. *)
Lemma generatePrompt_success_iff_witness :
  result (GeminiService.generatePrompt
            (answering (nl ++ emptyIntegratedResponse ++ nl))
            (Narration (stormyNight None)))
  = inl {| json := Json.JObject [ (lit "integrated_text", Json.JString []) ];
           integrated := Json.JString (lit "Failed to generate integrated text.") |}.
Proof.
  apply (proj2 (generatePrompt_success_iff
                  (answering (nl ++ emptyIntegratedResponse ++ nl))
                  (Narration (stormyNight None)) _)).
  exists (nl ++ emptyIntegratedResponse ++ nl).
  repeat split. discriminate.
Defined.

(** X7.  The [integrated] of a prompt that [generatePrompt] returns is
    never falsy: it is never the empty string, [null], [false] or zero,
    whatever the response. *)
Theorem integrated_truthy
        (ai : Model) (request : PromptRequest) (p : GeneratedPrompt) :
  result (GeminiService.generatePrompt ai request) = inl p ->
  Json.truthy (integrated p) = true.
Proof.
  intros H. apply generatePrompt_returned in H.
  destruct H as (text & _ & _ & _ & ->).
  destruct (Json.getOpt _ _) as [v|]; [|reflexivity].
  destruct (Json.truthy v) eqn:E; [exact E | reflexivity].
Qed.

Lemma integrated_truthy_witness :
  Json.truthy (Json.JString (lit "Failed to generate integrated text.")) = true.
Proof.
  apply (integrated_truthy (answering emptyIntegratedResponse)
                           (Narration (stormyNight None))
                           {| json := Json.JObject
                                        [ (lit "integrated_text", Json.JString []) ];
                              integrated :=
                                Json.JString
                                  (lit "Failed to generate integrated text.") |}).
  reflexivity.
Defined.

(** X8.  White space around the text of the response (spaces, line
    breaks, a byte order mark) does not change what [generatePrompt]
    returns or throws. *)
Theorem response_padding_ignored
        (request : PromptRequest) (ws1 text ws2 : jsstring) :
  forallb isWhiteSpace ws1 = true ->
  forallb isWhiteSpace ws2 = true ->
  result (GeminiService.generatePrompt (answering (ws1 ++ text ++ ws2)) request)
  = result (GeminiService.generatePrompt (answering text) request).
Proof.
  intros H1 H2. rewrite !generatePrompt_result. unfold answering.
  cbn [GeminiService.readResponse]. now rewrite trim_padded.
Qed.

Lemma response_padding_ignored_witness :
  result (GeminiService.generatePrompt
            (answering ([65279%N; 10%N] ++ partialResponse ++ [13%N; 10%N; 32%N]))
            (Narration (stormyNight None)))
  = result (GeminiService.generatePrompt (answering partialResponse)
                                         (Narration (stormyNight None))).
Proof.
  apply (response_padding_ignored (Narration (stormyNight None))
                                  [65279%N; 10%N] partialResponse
                                  [13%N; 10%N; 32%N]);
    reflexivity.
Defined.

(* ================================================================== *)
(** * The suggestion helpers *)

Lemma scenarioSuggestion_result (ai : Model) (theme : jsstring) (lang : Language) :
  result (Suggestions.generateScenarioSuggestion ai theme lang)
  = match Suggestions.readText
            (ai (Suggestions.flashParams (Suggestions.scenarioPrompt theme lang))) with
    | inl text => inl text
    | inr _ => inr Suggestions.scenarioFailure
    end.
Proof. reflexivity. Qed.

Lemma imageTouchSuggestion_result
      (ai : Model) (characterName characterPersona : jsstring) (lang : Language) :
  result (Suggestions.generateImageTouchSuggestion ai characterName
                                                   characterPersona lang)
  = match Suggestions.readText
            (ai (Suggestions.flashParams
                   (Suggestions.imageTouchPrompt characterName characterPersona
                                                 lang))) with
    | inl text => inl text
    | inr _ => inr Suggestions.imageTouchFailure
    end.
Proof. reflexivity. Qed.

(** X9.  [generateScenarioSuggestion] puts the theme, in double quotes, in
    the instruction of either language, and sends no schema.  When the call
    resolves with a text it returns the text trimmed, which neither starts
    nor ends with white space (and may be empty); in every other case it
    throws "Failed to generate scenario suggestion.", whatever the cause. *)
Theorem scenario_suggestion (ai : Model) (theme : jsstring) (lang : Language) :
  (exists params,
      calls (Suggestions.generateScenarioSuggestion ai theme lang) = [params]
      /\ responseSchema params = None
      /\ Contains (contents params) (quote ++ theme ++ quote))
  /\ (forall text,
         ai (Suggestions.flashParams (Suggestions.scenarioPrompt theme lang))
         = Resolved (Some text) ->
         result (Suggestions.generateScenarioSuggestion ai theme lang)
         = inl (trim text)
         /\ trimmed (trim text))
  /\ ((forall text,
          ai (Suggestions.flashParams (Suggestions.scenarioPrompt theme lang))
          <> Resolved (Some text)) ->
      result (Suggestions.generateScenarioSuggestion ai theme lang)
      = inr (lit "Failed to generate scenario suggestion.")).
Proof.
  split; [|split].
  - exists (Suggestions.flashParams (Suggestions.scenarioPrompt theme lang)).
    split; [reflexivity|]. split; [reflexivity|].
    cbn [contents Suggestions.flashParams].
    destruct lang; unfold Suggestions.scenarioPrompt.
    + pose proof (Contains_run [lit "Based on the theme "] [quote; theme; quote]) as H.
      cbn [app] in H. eapply Contains_trans; [apply H|].
      unfold template. cbn [List.concat]. rewrite app_nil_r. apply Contains_refl.
    + pose proof (Contains_run [Suggestions.koTheme] [quote; theme; quote]) as H.
      cbn [app] in H. eapply Contains_trans; [apply H|].
      unfold template. cbn [List.concat]. rewrite app_nil_r. apply Contains_refl.
  - intros text H. rewrite scenarioSuggestion_result, H.
    split; [reflexivity | apply trim_trimmed].
  - intros H. rewrite scenarioSuggestion_result.
    destruct (ai _) as [[text|]|e] eqn:E; [|reflexivity|reflexivity].
    exfalso. exact (H text eq_refl).
Qed.

Lemma scenario_suggestion_witness :
  result (Suggestions.generateScenarioSuggestion
            (answering (lit "  A storm gathers. ")) (lit "sea") ko)
  = inl (lit "A storm gathers.")
  /\ result (Suggestions.generateScenarioSuggestion (answering (lit "  "))
                                                    (lit "sea") en)
     = inl []
  /\ result (Suggestions.generateScenarioSuggestion
               (fun _ => Rejected (JsError (lit "quota exceeded"))) (lit "sea") en)
     = inr (lit "Failed to generate scenario suggestion.").
Proof.
  split; [|split].
  - apply (proj1 (proj2 (scenario_suggestion
                           (answering (lit "  A storm gathers. ")) (lit "sea") ko))
                 (lit "  A storm gathers. ")).
    reflexivity.
  - apply (proj1 (proj2 (scenario_suggestion (answering (lit "  ")) (lit "sea") en))
                 (lit "  ")).
    reflexivity.
  - apply (proj2 (proj2 (scenario_suggestion
                           (fun _ => Rejected (JsError (lit "quota exceeded")))
                           (lit "sea") en))).
    discriminate.
Defined.

(** X10.  [generateImageTouchSuggestion] puts the name and the persona of
    the character, word for word, in the instruction of either language.
    When the call resolves with a text it returns the text trimmed; in every
    other case it throws "Failed to generate image touch suggestion.". *)
Theorem image_touch_suggestion
        (ai : Model) (characterName characterPersona : jsstring) (lang : Language) :
  (exists params,
      calls (Suggestions.generateImageTouchSuggestion ai characterName
                                                      characterPersona lang)
      = [params]
      /\ responseSchema params = None
      /\ Contains (contents params) (quote ++ characterName ++ quote)
      /\ Contains (contents params) characterPersona)
  /\ (forall text,
         ai (Suggestions.flashParams
               (Suggestions.imageTouchPrompt characterName characterPersona lang))
         = Resolved (Some text) ->
         result (Suggestions.generateImageTouchSuggestion ai characterName
                                                          characterPersona lang)
         = inl (trim text)
         /\ trimmed (trim text))
  /\ ((forall text,
          ai (Suggestions.flashParams
                (Suggestions.imageTouchPrompt characterName characterPersona lang))
          <> Resolved (Some text)) ->
      result (Suggestions.generateImageTouchSuggestion ai characterName
                                                       characterPersona lang)
      = inr (lit "Failed to generate image touch suggestion.")).
Proof.
  split; [|split].
  - exists (Suggestions.flashParams
              (Suggestions.imageTouchPrompt characterName characterPersona lang)).
    split; [reflexivity|]. split; [reflexivity|].
    cbn [contents Suggestions.flashParams].
    destruct lang; unfold Suggestions.imageTouchPrompt; split;
      try solve [apply Contains_template; in_pieces].
    + pose proof (Contains_run [lit "For a character named "]
                               [quote; characterName; quote]) as H.
      cbn [app] in H. eapply Contains_trans; [apply H|].
      unfold template. cbn [List.concat]. rewrite app_nil_r. apply Contains_refl.
    + pose proof (Contains_run [Suggestions.koCharacterName]
                               [quote; characterName; quote]) as H.
      cbn [app] in H. eapply Contains_trans; [apply H|].
      unfold template. cbn [List.concat]. rewrite app_nil_r. apply Contains_refl.
  - intros text H. rewrite imageTouchSuggestion_result, H.
    split; [reflexivity | apply trim_trimmed].
  - intros H. rewrite imageTouchSuggestion_result.
    destruct (ai _) as [[text|]|e] eqn:E; [|reflexivity|reflexivity].
    exfalso. exact (H text eq_refl).
Qed.

Lemma image_touch_suggestion_witness :
  result (Suggestions.generateImageTouchSuggestion
            (answering (nl ++ lit "A raised eyebrow." ++ nl))
            (lit "Alice") (lit "a pilot") en)
  = inl (lit "A raised eyebrow.")
  /\ result (Suggestions.generateImageTouchSuggestion
               (fun _ => Resolved None) (lit "Alice") (lit "a pilot") ko)
     = inr (lit "Failed to generate image touch suggestion.").
Proof.
  split.
  - apply (proj1 (proj2 (image_touch_suggestion
                           (answering (nl ++ lit "A raised eyebrow." ++ nl))
                           (lit "Alice") (lit "a pilot") en))
                 (nl ++ lit "A raised eyebrow." ++ nl)).
    reflexivity.
  - apply (proj2 (proj2 (image_touch_suggestion
                           (fun _ => Resolved None)
                           (lit "Alice") (lit "a pilot") ko))).
    discriminate.
Defined.

(** X11.  [generateNarratorDetailsSuggestion] returns a value exactly when
    the call resolves with a text that parses once trimmed, and the value
    is what it parses to, [null] included; every failure (rejection,
    undefined text, text that does not parse) throws the one message
    "Failed to generate narrator details.". *)
Theorem narrator_details_outcome
        (ai : Model) (scenario : jsstring) (lang : Language) :
  (forall v,
      result (GeminiService.generateNarratorDetailsSuggestion ai scenario lang)
      = inl v
      <-> exists text,
          ai (GeminiService.narratorDetailsParams scenario lang)
          = Resolved (Some text)
          /\ Json.parse (trim text) = inl v)
  /\ (forall m,
         result (GeminiService.generateNarratorDetailsSuggestion ai scenario lang)
         = inr m ->
         m = lit "Failed to generate narrator details.").
Proof.
  rewrite narratorDetails_result. split.
  - intros v. split.
    + destruct (ai _) as [[text|]|e]; cbn [GeminiService.readNarratorDetails];
        try discriminate.
      destruct (Json.parse (trim text)) as [v'|d] eqn:Hp; [|discriminate].
      intros [= <-]. exists text. split; [reflexivity | exact Hp].
    + intros (text & -> & Hp). cbn [GeminiService.readNarratorDetails].
      now rewrite Hp.
  - intros m. destruct (GeminiService.readNarratorDetails _); [discriminate|].
    now intros [= <-].
Qed.

Lemma narrator_details_outcome_witness :
  result (GeminiService.generateNarratorDetailsSuggestion
            (answering (lit " null ")) (lit "A storm") en)
  = inl Json.JNull
  /\ lit "Failed to generate narrator details."
     = lit "Failed to generate narrator details.".
Proof.
  split.
  - apply (proj1 (narrator_details_outcome (answering (lit " null "))
                                           (lit "A storm") en)).
    exists (lit " null "). split; reflexivity.
  - symmetry.
    apply (proj2 (narrator_details_outcome
                    (fun _ => Rejected NotAnError) (lit "A storm") en)).
    reflexivity.
Defined.

(* ================================================================== *)
(** * Further properties of the form handlers *)

(** ** Submission *)

Lemma handleSubmit_result (T : UiText) (ai : Model) (st : App.State) :
  result (App.handleSubmit T ai st)
  = let st1 := App.setGeneratedPrompt None
                 (App.setError None (App.setIsLoading true st)) in
    match App.buildRequest st with
    | None => App.setIsLoading false
                (App.setError (Some (errorCharacterNeeded T)) st1)
    | Some request =>
        App.setIsLoading false
          match result (GeminiService.generatePrompt ai request) with
          | inl prompt => App.setGeneratedPrompt (Some prompt) st1
          | inr message =>
              App.setError (Some (or_else message (errorUnexpected T))) st1
          end
    end.
Proof.
  unfold App.handleSubmit. destruct (App.buildRequest st); reflexivity.
Qed.

Lemma handleSubmit_calls (T : UiText) (ai : Model) (st : App.State) :
  calls (App.handleSubmit T ai st)
  = match App.buildRequest st with
    | None => []
    | Some request => [GeminiService.generatePromptParams request]
    end.
Proof.
  unfold App.handleSubmit. destruct (App.buildRequest st); reflexivity.
Qed.

Lemma rethrow_nonempty (e : exn) : GeminiService.rethrow e <> [].
Proof. destruct e; discriminate. Qed.

Lemma marked_nonempty (T : UiText) (s : jsstring) :
  template [ geminiErrorPrefix T; lit ": "; s ] <> [].
Proof.
  unfold template. cbn [List.concat]. intros H.
  apply app_eq_nil in H. destruct H as (_ & H). discriminate.
Qed.

(** The alert of a non-empty error is not empty. *)
Lemma prettyErrorMessage_shown (T : UiText) (e : jsstring) :
  e <> [] ->
  exists shown, App.prettyErrorMessage T (Some e) = Some shown /\ shown <> [].
Proof.
  intros He. unfold App.prettyErrorMessage.
  destruct e as [|c e]; [congruence|]. cbn [JsString.falsy].
  destruct (startsWith _ _); [|eauto].
  destruct (Json.parse _); [|eauto using marked_nonempty].
  destruct (Json.getOpt _ _) as [m|]; [|eauto].
  destruct (Json.truthy m); [|eauto].
  destruct (Json.toString m); eauto using marked_nonempty.
Qed.

(** X12.  However a submission ends, the form is no longer loading.
    When the entry [errorCharacterNeeded] of the localisation table is not
    empty, it then holds either a result and no error, or no result and an
    error that is a non-empty string, for which the alert has a non-empty
    text: never both and never neither.  A failure clears the result of an
    earlier submission, a success the earlier error.  When that entry is
    empty, a refused submission leaves neither: no result, and the empty
    string as the error, for which nothing is shown. *)
Theorem handleSubmit_outcome (T : UiText) (ai : Model) (st : App.State) :
  let st' := result (App.handleSubmit T ai st) in
  App.isLoading st' = false
  /\ (errorCharacterNeeded T <> [] ->
      (App.generatedPrompt st' = None
       /\ exists e shown,
            App.error st' = Some e /\ e <> []
            /\ App.prettyErrorMessage T (App.error st') = Some shown
            /\ shown <> [])
      \/ ((exists prompt, App.generatedPrompt st' = Some prompt)
          /\ App.error st' = None
          /\ App.prettyErrorMessage T (App.error st') = None))
  /\ (errorCharacterNeeded T = [] ->
      App.buildRequest st = None ->
      App.generatedPrompt st' = None
      /\ App.error st' = Some []
      /\ App.prettyErrorMessage T (App.error st') = None).
Proof.
  cbv zeta. rewrite handleSubmit_result. cbv zeta.
  destruct (App.buildRequest st) as [request|].
  - split; [destruct (result _); reflexivity|]. split; [|discriminate]. intros _.
    rewrite generatePrompt_result.
    destruct (GeminiService.readResponse _) as [prompt|e].
    + right. split; [eexists; reflexivity|]. split; reflexivity.
    + left. split; [reflexivity|].
      pose proof (rethrow_nonempty e) as He.
      assert (E : or_else (GeminiService.rethrow e) (errorUnexpected T)
                  = GeminiService.rethrow e).
      { unfold or_else. destruct (GeminiService.rethrow e); [congruence | reflexivity]. }
      destruct (prettyErrorMessage_shown T _ He) as (shown & Hs & Hn).
      exists (GeminiService.rethrow e), shown.
      cbn [App.error App.setIsLoading App.setError]. rewrite E. auto.
  - split; [reflexivity|]. split.
    + intros Hne. left. split; [reflexivity|].
      destruct (prettyErrorMessage_shown T _ Hne) as (shown & Hs & Hn).
      exists (errorCharacterNeeded T), shown.
      cbn [App.error App.setIsLoading App.setError]. auto.
    + intros E _. cbn [App.error App.setIsLoading App.setError
                       App.generatedPrompt App.setGeneratedPrompt].
      rewrite E. repeat split.
Qed.

Lemma handleSubmit_outcome_witness :
  errorCharacterNeeded englishText <> []
  /\ App.generatedPrompt
       (result (App.handleSubmit englishText emptyObjectModel
                  (freshDialogueForm [] []))) = None
  /\ exists e shown,
      App.error (result (App.handleSubmit englishText emptyObjectModel
                           (freshDialogueForm [] []))) = Some e
      /\ e <> []
      /\ App.prettyErrorMessage englishText
           (App.error (result (App.handleSubmit englishText emptyObjectModel
                                 (freshDialogueForm [] [])))) = Some shown
      /\ shown <> [].
Proof.
  split; [discriminate|].
  destruct (handleSubmit_outcome englishText emptyObjectModel
              (freshDialogueForm [] [])) as (_ & H & _).
  destruct (H ltac:(discriminate)) as [H' | ((prompt & Hp) & _)].
  - exact H'.
  - vm_compute in Hp. discriminate Hp.
Defined.

(** X13.  A submission does not touch what the user filled in: mode,
    scenario, duration, narrator fields, characters and script are the same
    after it, whether it succeeds, fails or is refused. *)
Theorem handleSubmit_keeps_inputs (T : UiText) (ai : Model) (st : App.State) :
  sameInputs (result (App.handleSubmit T ai st)) st.
Proof.
  rewrite handleSubmit_result. cbv zeta.
  destruct (App.buildRequest st) as [request|];
    [destruct (result (GeminiService.generatePrompt ai request))|];
    repeat split.
Qed.

Lemma buildRequest_none_inv (st : App.State) :
  App.buildRequest st = None ->
  App.speechType st <> NARRATION
  /\ forall c, In c (App.characters st) -> App.validCharacter c = false.
Proof.
  unfold App.buildRequest. intros H.
  assert (E : filter App.validCharacter (App.characters st) = []).
  { destruct (App.speechType st); try discriminate;
      destruct (filter App.validCharacter (App.characters st)); auto; discriminate. }
  split.
  - destruct (App.speechType st); discriminate.
  - intros c Hc. destruct (App.validCharacter c) eqn:Ev; [|reflexivity].
    assert (In c []) by (rewrite <- E; apply filter_In; auto). contradiction.
Qed.

(** X14.  A submission makes at most one call to the model, and makes
    none exactly when the mode is a dialogue and no character has both a
    name and a persona.  A narration is always sent, with whatever the
    fields hold. *)
Theorem handleSubmit_call_count (T : UiText) (ai : Model) (st : App.State) :
  (List.length (calls (App.handleSubmit T ai st)) <= 1)%nat
  /\ (calls (App.handleSubmit T ai st) = []
      <-> App.speechType st <> NARRATION
          /\ forall c, In c (App.characters st) -> App.validCharacter c = false).
Proof.
  rewrite handleSubmit_calls. split.
  - destruct (App.buildRequest st); simpl; lia.
  - split.
    + destruct (App.buildRequest st) eqn:E; [discriminate|]. intros _.
      now apply buildRequest_none_inv.
    + intros (Ht & Hc). rewrite buildRequest_none; [reflexivity | exact Ht |].
      intros c Hin. apply validCharacter_false. auto.
Qed.

Lemma handleSubmit_call_count_witness :
  List.length (calls (App.handleSubmit englishText emptyObjectModel
                        emptyNarrationForm)) = 1%nat
  /\ calls (App.handleSubmit englishText emptyObjectModel
              (freshDialogueForm [] [])) = [].
Proof.
  split; [reflexivity|].
  apply (proj2 (handleSubmit_call_count englishText emptyObjectModel
                  (freshDialogueForm [] []))).
  split; [discriminate|].
  intros c [<- | [<- | []]]; reflexivity.
Defined.

(** ** Editing characters and lines *)

Lemma updateCharacter_id (field : Form.CharacterField) (value : jsstring)
      (c : Character.t) :
  Character.id (Form.updateCharacter field value c) = Character.id c.
Proof. destruct field; reflexivity. Qed.

Lemma updateLine_id (field : Form.ScriptField) (value : jsstring)
      (l : ScriptLine.t) :
  ScriptLine.id (Form.updateLine field value l) = ScriptLine.id l.
Proof. destruct field; reflexivity. Qed.

Lemma handleCharacterChange_ids (id : jsstring) (field : Form.CharacterField)
      (value : jsstring) (st : App.State) :
  map Character.id (App.characters (Form.handleCharacterChange id field value st))
  = map Character.id (App.characters st).
Proof.
  cbn [Form.handleCharacterChange App.setCharacters App.characters].
  rewrite map_map. apply map_ext. intros c.
  destruct (JsString.eqb (Character.id c) id);
    [apply updateCharacter_id | reflexivity].
Qed.

(** The invariant looks at the identifiers of the characters only. *)
Lemma noDanglingReference_ids (st st' : App.State) :
  map Character.id (App.characters st') = map Character.id (App.characters st) ->
  App.script st' = App.script st ->
  noDanglingReference st -> noDanglingReference st'.
Proof.
  intros Hc Hs H l Hl Hne. rewrite Hs in Hl.
  destruct (H l Hl Hne) as (c & Hcin & Hid).
  assert (Hin : In (ScriptLine.characterId l) (map Character.id (App.characters st')))
    by (rewrite Hc, <- Hid; now apply in_map).
  apply in_map_iff in Hin. destruct Hin as (c' & Hid' & Hc').
  exists c'. split; assumption.
Qed.

(** X15.  Editing a field of a character changes neither the identifier
    of any character nor their number or order, leaves the script and every
    character with another identifier as they were, and keeps every
    assigned line assigned to a character of the form.  With an identifier
    that no character has, nothing changes. *)
Theorem handleCharacterChange_keeps_references
        (id : jsstring) (field : Form.CharacterField) (value : jsstring)
        (st : App.State) :
  let st' := Form.handleCharacterChange id field value st in
  map Character.id (App.characters st') = map Character.id (App.characters st)
  /\ App.script st' = App.script st
  /\ (forall i c, nth_error (App.characters st) i = Some c ->
                  Character.id c <> id ->
                  nth_error (App.characters st') i = Some c)
  /\ ((forall c, In c (App.characters st) -> Character.id c <> id) ->
      App.characters st' = App.characters st)
  /\ (noDanglingReference st -> noDanglingReference st').
Proof.
  cbv zeta. split; [apply handleCharacterChange_ids|].
  split; [reflexivity|]. split; [|split].
  - intros i c Hi Hne.
    cbn [Form.handleCharacterChange App.setCharacters App.characters].
    rewrite nth_error_map, Hi. cbn [option_map].
    apply eqb_neq in Hne. now rewrite Hne.
  - intros H. cbn [Form.handleCharacterChange App.setCharacters App.characters].
    rewrite <- (map_id (App.characters st)) at 2. apply map_ext_in.
    intros c Hc. apply H, eqb_neq in Hc. now rewrite Hc.
  - apply noDanglingReference_ids;
      [apply handleCharacterChange_ids | reflexivity].
Qed.

Lemma handleCharacterChange_keeps_references_witness :
  nth_error (App.characters
               (Form.handleCharacterChange (lit "char-2") Form.name (lit "Robert")
                                           twoCharacterForm)) 0
  = Some (blankCharacter (lit "char-1") (lit "Alice") (lit "a pilot"))
  /\ App.characters (Form.handleCharacterChange (lit "char-9") Form.persona
                                                (lit "a spy") twoCharacterForm)
     = App.characters twoCharacterForm
  /\ noDanglingReference
       (Form.handleCharacterChange (lit "char-2") Form.name [] twoCharacterForm).
Proof.
  split; [|split].
  - apply (handleCharacterChange_keeps_references
             (lit "char-2") Form.name (lit "Robert") twoCharacterForm);
      [reflexivity | discriminate].
  - apply (handleCharacterChange_keeps_references
             (lit "char-9") Form.persona (lit "a spy") twoCharacterForm).
    intros c [<- | [<- | []]]; discriminate.
  - apply (handleCharacterChange_keeps_references
             (lit "char-2") Form.name [] twoCharacterForm).
    intros l [<- | [<- | [<- | []]]] Hne.
    + eexists; split; [left; reflexivity | reflexivity].
    + eexists; split; [right; left; reflexivity | reflexivity].
    + exfalso; apply Hne; reflexivity.
Defined.

(** X16.  Editing a field of a script line changes neither the
    identifiers of the lines nor their number or order, nor the characters.
    Editing the text, emotion or tone keeps every assigned line assigned to
    a character of the form; so does setting the character of a line to no
    character or to a character of the form. *)
Theorem handleScriptChange_keeps_references
        (id : jsstring) (field : Form.ScriptField) (value : jsstring)
        (st : App.State) :
  let st' := Form.handleScriptChange id field value st in
  map ScriptLine.id (App.script st') = map ScriptLine.id (App.script st)
  /\ App.characters st' = App.characters st
  /\ (field <> Form.characterId
      \/ value = []
      \/ (exists c, In c (App.characters st) /\ Character.id c = value) ->
      noDanglingReference st -> noDanglingReference st').
Proof.
  cbv zeta. split; [|split; [reflexivity|]].
  - cbn [Form.handleScriptChange App.setScript App.script].
    rewrite map_map. apply map_ext. intros l.
    destruct (JsString.eqb (ScriptLine.id l) id);
      [apply updateLine_id | reflexivity].
  - intros Hv H l' Hl' Hne.
    cbn [Form.handleScriptChange App.setScript App.script App.characters] in *.
    apply in_map_iff in Hl'. destruct Hl' as (l & <- & Hl).
    destruct (JsString.eqb (ScriptLine.id l) id); [|now apply H].
    destruct field; cbn [Form.updateLine ScriptLine.characterId] in *;
      try (now apply H).
    destruct Hv as [Hv | [-> | (c & Hc & <-)]];
      [congruence | congruence | exists c; split; auto].
Qed.

Lemma handleScriptChange_keeps_references_witness :
  noDanglingReference
    (Form.handleScriptChange (lit "line-1") Form.characterId (lit "char-2")
                             twoCharacterForm)
  /\ noDanglingReference
       (Form.handleScriptChange (lit "line-1") Form.line (lit "Goodbye")
                                twoCharacterForm).
Proof.
  assert (H : noDanglingReference twoCharacterForm).
  { intros l [<- | [<- | [<- | []]]] Hne.
    - eexists; split; [left; reflexivity | reflexivity].
    - eexists; split; [right; left; reflexivity | reflexivity].
    - exfalso; apply Hne; reflexivity. }
  split.
  - apply (handleScriptChange_keeps_references
             (lit "line-1") Form.characterId (lit "char-2") twoCharacterForm);
      [|exact H].
    right. right. eexists. split; [right; left; reflexivity | reflexivity].
  - apply (handleScriptChange_keeps_references
             (lit "line-1") Form.line (lit "Goodbye") twoCharacterForm);
      [|exact H].
    left. discriminate.
Defined.

Lemma filter_app_single {A} (f : A -> bool) (l : list A) (x : A) :
  f x = false -> filter f (l ++ [x]) = filter f l.
Proof.
  intros H. rewrite filter_app. cbn [filter]. rewrite H. apply app_nil_r.
Qed.

(** X17.  Adding a character or a script line, whatever identifier is
    drawn, does not change the request the next submission builds: the new
    entry is empty and is left out.  It keeps the other entries in place
    and keeps every assigned line assigned to a character of the form. *)
Theorem added_entries_not_submitted (uuid : jsstring) (st : App.State) :
  App.buildRequest (Form.handleAddCharacter uuid st) = App.buildRequest st
  /\ App.buildRequest (Form.handleAddScriptLine uuid st) = App.buildRequest st
  /\ App.characters (Form.handleAddCharacter uuid st)
     = App.characters st ++ [Form.newCharacter uuid]
  /\ App.script (Form.handleAddScriptLine uuid st)
     = App.script st ++ [Form.newScriptLine uuid]
  /\ (noDanglingReference st ->
      noDanglingReference (Form.handleAddCharacter uuid st)
      /\ noDanglingReference (Form.handleAddScriptLine uuid st)).
Proof.
  split; [|split; [|split; [reflexivity|split; [reflexivity|]]]].
  - unfold App.buildRequest.
    cbn [Form.handleAddCharacter App.setCharacters App.characters App.speechType
         App.scenario App.script App.duration App.persona App.emotion App.tone
         App.environment].
    now rewrite filter_app_single by reflexivity.
  - unfold App.buildRequest.
    cbn [Form.handleAddScriptLine App.setScript App.characters App.speechType
         App.scenario App.script App.duration App.persona App.emotion App.tone
         App.environment].
    now rewrite filter_app_single by reflexivity.
  - intros H. split; intros l Hl Hne.
    + destruct (H l Hl Hne) as (c & Hc & Hid). exists c. split; [|exact Hid].
      cbn [Form.handleAddCharacter App.setCharacters App.characters].
      apply in_or_app. now left.
    + cbn [Form.handleAddScriptLine App.setScript App.script App.characters] in *.
      apply in_app_or in Hl. destruct Hl as [Hl | [<- | []]]; [now apply H|].
      exfalso. apply Hne. reflexivity.
Qed.

Lemma added_entries_not_submitted_witness :
  noDanglingReference (Form.handleAddCharacter (lit "0000") twoCharacterForm)
  /\ noDanglingReference (Form.handleAddScriptLine (lit "0000") twoCharacterForm).
Proof.
  apply (added_entries_not_submitted (lit "0000") twoCharacterForm).
  intros l [<- | [<- | [<- | []]]] Hne.
  - eexists; split; [left; reflexivity | reflexivity].
  - eexists; split; [right; left; reflexivity | reflexivity].
  - exfalso; apply Hne; reflexivity.
Defined.

(** X18.  Removing a script line removes every line with that identifier
    and no other: the lines left are the other lines, in their order.  The
    characters stay, every assigned line stays assigned to a character of
    the form, and removing the same line again changes nothing. *)
Theorem handleRemoveScriptLine_removes (id : jsstring) (st : App.State) :
  let st' := Form.handleRemoveScriptLine id st in
  (forall l, In l (App.script st')
             <-> In l (App.script st) /\ ScriptLine.id l <> id)
  /\ App.characters st' = App.characters st
  /\ Form.handleRemoveScriptLine id st' = st'
  /\ (noDanglingReference st -> noDanglingReference st').
Proof.
  cbv zeta. split; [|split; [reflexivity|split]].
  - intros l. cbn [Form.handleRemoveScriptLine App.setScript App.script].
    rewrite filter_In, negb_true_iff, eqb_neq. reflexivity.
  - unfold Form.handleRemoveScriptLine, App.setScript.
    cbn [App.script App.speechType App.scenario App.duration App.persona
         App.emotion App.tone App.environment App.characters
         App.generatedPrompt App.isLoading App.error].
    f_equal. induction (App.script st) as [|l ls IH]; [reflexivity|].
    cbn [filter]. destruct (negb (JsString.eqb (ScriptLine.id l) id)) eqn:E;
      cbn [filter]; rewrite ?E, IH; reflexivity.
  - intros H l Hl Hne.
    cbn [Form.handleRemoveScriptLine App.setScript App.script App.characters] in *.
    apply filter_In in Hl. destruct Hl as (Hl & _). now apply H.
Qed.

Lemma handleRemoveScriptLine_removes_witness :
  noDanglingReference (Form.handleRemoveScriptLine (lit "line-1") twoCharacterForm)
  /\ App.script (Form.handleRemoveScriptLine (lit "line-1") twoCharacterForm) = [].
Proof.
  split; [|reflexivity].
  apply (handleRemoveScriptLine_removes (lit "line-1") twoCharacterForm).
  intros l [<- | [<- | [<- | []]]] Hne.
  - eexists; split; [left; reflexivity | reflexivity].
  - eexists; split; [right; left; reflexivity | reflexivity].
  - exfalso; apply Hne; reflexivity.
Defined.

(** X19.  After a character is removed, the next submission sends none of
    the lines that were assigned to it: every line of the request it builds
    is a line the form had before, unchanged, assigned to another
    character. *)
Theorem removed_character_lines_not_submitted
        (id : jsstring) (st : App.State) (r : DialogueRequest.t) (l : ScriptLine.t) :
  App.buildRequest (App.handleRemoveCharacter id st) = Some (Dialogue r) ->
  In l (DialogueRequest.script r) ->
  In l (App.script st)
  /\ ScriptLine.characterId l <> id
  /\ (forall c, In c (DialogueRequest.characters r) -> Character.id c <> id).
Proof.
  intros Hb Hl. destruct (buildRequest_dialogue _ _ Hb) as (Hs & Hc & _).
  rewrite Hs in Hl. apply filter_In in Hl. destruct Hl as (Hl & Hsub).
  apply submittedLine_true in Hsub. destruct Hsub as (_ & Hne).
  cbn [App.handleRemoveCharacter App.setScript App.setCharacters App.script
       App.characters] in Hl, Hc.
  apply in_map_iff in Hl. destruct Hl as (l0 & E & Hl0).
  destruct (JsString.eqb (ScriptLine.characterId l0) id) eqn:Eid.
  - subst l. exfalso. apply Hne. reflexivity.
  - subst l0. repeat split; [exact Hl0 | now apply eqb_neq |].
    intros c Hcin. rewrite Hc in Hcin. apply filter_In in Hcin.
    destruct Hcin as (Hcin & _). apply filter_In in Hcin.
    destruct Hcin as (_ & Hcin). apply negb_true_iff in Hcin. now apply eqb_neq.
Qed.

Lemma removed_character_lines_not_submitted_witness :
  In (helloLine (lit "char-1")) (App.script twoCharacterForm)
  /\ ScriptLine.characterId (helloLine (lit "char-1")) <> lit "char-2"
  /\ (forall c, In c [blankCharacter (lit "char-1") (lit "Alice") (lit "a pilot")] ->
                Character.id c <> lit "char-2").
Proof.
  apply (removed_character_lines_not_submitted
           (lit "char-2") twoCharacterForm
           {| DialogueRequest.type := MULTI;
              DialogueRequest.scenario := lit "Take-off";
              DialogueRequest.characters :=
                [blankCharacter (lit "char-1") (lit "Alice") (lit "a pilot")];
              DialogueRequest.script := [helloLine (lit "char-1")];
              DialogueRequest.duration := Some [] |}).
  - reflexivity.
  - left; reflexivity.
Defined.

(** ** The displayed error, without the marker *)

Lemma falsy_nil (s : jsstring) : JsString.falsy s = true <-> s = [].
Proof. destruct s; split; intros H; try reflexivity; discriminate. Qed.

(** X20.  The alert shows nothing exactly when the form has no error or
    an empty one.  An error that does not start with "Gemini API Error: "
    (a refused submission, a failed suggestion, the unknown-error message
    of [generatePrompt]) is shown as it is. *)
Theorem prettyErrorMessage_plain (T : UiText) :
  (forall e, App.prettyErrorMessage T e = None <-> e = None \/ e = Some [])
  /\ (forall s, s <> [] -> startsWith s (lit "Gemini API Error: ") = false ->
                App.prettyErrorMessage T (Some s) = Some s)
  /\ App.prettyErrorMessage T
       (Some (GeminiService.rethrow NotAnError))
     = Some (lit "An unknown error occurred while contacting the Gemini API.").
Proof.
  split; [|split; [|reflexivity]].
  - intros [s|]; [|split; auto]. unfold App.prettyErrorMessage. split.
    + destruct s as [|c s]; [auto|]. cbn [JsString.falsy].
      destruct (startsWith (c :: s) App.apiErrorPrefix); [|discriminate].
      destruct (Json.parse _); [|discriminate].
      destruct (Json.getOpt _ _) as [m|]; [|discriminate].
      destruct (Json.truthy m); [|discriminate].
      destruct (Json.toString m); discriminate.
    + intros [H | [= ->]]; [discriminate | reflexivity].
  - intros s Hs Hp. unfold App.prettyErrorMessage.
    change App.apiErrorPrefix with (lit "Gemini API Error: "). rewrite Hp.
    destruct s; [congruence | reflexivity].
Qed.

Lemma prettyErrorMessage_plain_witness :
  App.prettyErrorMessage englishText
    (Some (lit "Failed to generate scenario suggestion."))
  = Some (lit "Failed to generate scenario suggestion.")
  /\ App.prettyErrorMessage englishText (Some []) = None.
Proof.
  split.
  - apply (proj1 (proj2 (prettyErrorMessage_plain englishText)));
      [discriminate | reflexivity].
  - apply (proj1 (prettyErrorMessage_plain englishText)). right. reflexivity.
Defined.

Lemma falsy_nil' (s : jsstring) : s <> [] -> JsString.falsy s = false.
Proof. destruct s; [congruence | reflexivity]. Qed.

(** ** The suggestion handlers *)

(** X21.  With no theme typed in, asking for a scenario does nothing and
    calls nothing.  With a theme, one call is made; afterwards no
    suggestion is marked as pending, and characters and script are as
    before.  When the call resolves with a text, the scenario becomes the
    trimmed text and the error is cleared; in every other case the scenario
    is kept and the error is "Failed to generate scenario suggestion.",
    whatever the localisation table holds. *)
Theorem handleScenarioSuggestion_outcome
        (T : SuggestionText) (lang : Language) (ai : Model) (ui : Form.Ui) :
  let run := Form.handleScenarioSuggestion T lang ai ui in
  let params :=
    Suggestions.flashParams (Suggestions.scenarioPrompt (Form.scenarioTheme ui) lang) in
  (Form.scenarioTheme ui = [] -> calls run = [] /\ result run = ui)
  /\ (Form.scenarioTheme ui <> [] ->
      calls run = [params]
      /\ Form.isSuggesting (result run) = None
      /\ App.characters (Form.form (result run)) = App.characters (Form.form ui)
      /\ App.script (Form.form (result run)) = App.script (Form.form ui)
      /\ (forall text,
             ai params = Resolved (Some text) ->
             App.scenario (Form.form (result run)) = trim text
             /\ App.error (Form.form (result run)) = None)
      /\ ((forall text, ai params <> Resolved (Some text)) ->
          App.scenario (Form.form (result run)) = App.scenario (Form.form ui)
          /\ App.error (Form.form (result run))
             = Some (lit "Failed to generate scenario suggestion."))).
Proof.
  cbv zeta. unfold Form.handleScenarioSuggestion. split.
  - intros ->. split; reflexivity.
  - intros Hne. destruct (Form.scenarioTheme ui) as [|c theme] eqn:E; [congruence|].
    cbn [JsString.falsy]. unfold calls, result, bind, ret.
    unfold Suggestions.generateScenarioSuggestion, generateContent, bind, ret.
    cbn [fst snd app]. split; [reflexivity|]. split; [reflexivity|].
    destruct (ai _) as [[text|]|e] eqn:Hai; cbn [Suggestions.readText];
      (split; [reflexivity|]); (split; [reflexivity|]); split;
      try (intros t [= <-]; split; reflexivity);
      try (intros t F; discriminate F);
      try (intros F; exfalso; exact (F text eq_refl));
      try (intros _; split; reflexivity).
Qed.

Lemma handleScenarioSuggestion_outcome_witness :
  calls (Form.handleScenarioSuggestion englishSuggestionText en
           (answering (lit " A storm gathers. ")) (themedUi [])) = []
  /\ App.scenario (Form.form (result
       (Form.handleScenarioSuggestion englishSuggestionText en
          (answering (lit " A storm gathers. ")) (themedUi (lit "sea")))))
     = lit "A storm gathers."
  /\ App.error (Form.form (result
       (Form.handleScenarioSuggestion englishSuggestionText en
          (fun _ => Rejected NotAnError) (themedUi (lit "sea")))))
     = Some (lit "Failed to generate scenario suggestion.").
Proof.
  split; [|split].
  - apply (proj1 (handleScenarioSuggestion_outcome englishSuggestionText en
                    (answering (lit " A storm gathers. ")) (themedUi []))).
    reflexivity.
  - destruct (proj2 (handleScenarioSuggestion_outcome englishSuggestionText en
                       (answering (lit " A storm gathers. ")) (themedUi (lit "sea"))))
      as (_ & _ & _ & _ & H & _); [discriminate|].
    apply (H (lit " A storm gathers. ")). reflexivity.
  - destruct (proj2 (handleScenarioSuggestion_outcome englishSuggestionText en
                       (fun _ => Rejected NotAnError) (themedUi (lit "sea"))))
      as (_ & _ & _ & _ & _ & H); [discriminate|].
    apply H. discriminate.
Defined.

Lemma handleImageTouch_refused
      (T : SuggestionText) (lang : Language) (ai : Model) (id : jsstring)
      (ui : Form.Ui) :
  (match Form.findCharacter id (App.characters (Form.form ui)) with
   | None => True
   | Some c => trim (Character.name c) = [] \/ trim (Character.persona c) = []
   end) ->
  Form.handleImageTouchSuggestion T lang ai id ui
  = ret {| Form.form := App.setError (Some (errorCharacterInfoNeeded T)) (Form.form ui);
           Form.scenarioTheme := Form.scenarioTheme ui;
           Form.isSuggesting := Form.isSuggesting ui;
           Form.suggestingImageTouch := Form.suggestingImageTouch ui |}.
Proof.
  unfold Form.handleImageTouchSuggestion.
  destruct (Form.findCharacter id _) as [c|]; [|reflexivity].
  intros [-> | ->]; [reflexivity|]. now rewrite orb_true_r.
Qed.

(** X22.  Asking for an image touch for an identifier that no character
    has, or for a character whose name or persona is blank, calls nothing:
    it sets the need-name-and-persona error and leaves the characters as
    they are. *)
Theorem handleImageTouchSuggestion_refused
        (T : SuggestionText) (lang : Language) (ai : Model) (id : jsstring)
        (ui : Form.Ui) :
  (forall c, In c (App.characters (Form.form ui)) -> Character.id c = id ->
             trim (Character.name c) = [] \/ trim (Character.persona c) = []) ->
  calls (Form.handleImageTouchSuggestion T lang ai id ui) = []
  /\ App.error (Form.form (result (Form.handleImageTouchSuggestion T lang ai id ui)))
     = Some (errorCharacterInfoNeeded T)
  /\ App.characters (Form.form (result (Form.handleImageTouchSuggestion T lang ai id ui)))
     = App.characters (Form.form ui)
  /\ Form.suggestingImageTouch (result (Form.handleImageTouchSuggestion T lang ai id ui))
     = Form.suggestingImageTouch ui.
Proof.
  intros H. rewrite handleImageTouch_refused; [repeat split|].
  destruct (Form.findCharacter id _) as [c|] eqn:E; [|exact I].
  apply find_some in E. destruct E as (Hc & E). apply eqb_eq in E. auto.
Qed.

Lemma handleImageTouchSuggestion_refused_witness :
  calls (Form.handleImageTouchSuggestion englishSuggestionText en emptyObjectModel
           (lit "char-9") (themedUi [])) = []
  /\ App.error (Form.form (result
       (Form.handleImageTouchSuggestion englishSuggestionText en emptyObjectModel
          (lit "char-9") (themedUi []))))
     = Some (lit "Enter a name and a persona first.").
Proof.
  destruct (handleImageTouchSuggestion_refused englishSuggestionText en
              emptyObjectModel (lit "char-9") (themedUi [])) as (H1 & H2 & _).
  - intros c [<- | [<- | []]] H; discriminate H.
  - split; [exact H1 | exact H2].
Defined.

(** X23.  Asking for an image touch for the first character with the
    identifier, when it has a name and a persona, makes one call with that
    name and persona.  When the call resolves with a text, every character
    with the identifier gets the trimmed text as image touch, the other
    characters and all identifiers stay, and the error is cleared; in every
    other case the characters stay and the error is "Failed to generate
    image touch suggestion.".  Afterwards no image touch is marked as
    pending. *)
Theorem handleImageTouchSuggestion_outcome
        (T : SuggestionText) (lang : Language) (ai : Model) (id : jsstring)
        (ui : Form.Ui) (c : Character.t) :
  Form.findCharacter id (App.characters (Form.form ui)) = Some c ->
  trim (Character.name c) <> [] ->
  trim (Character.persona c) <> [] ->
  let run := Form.handleImageTouchSuggestion T lang ai id ui in
  let params :=
    Suggestions.flashParams
      (Suggestions.imageTouchPrompt (Character.name c) (Character.persona c) lang) in
  calls run = [params]
  /\ Form.suggestingImageTouch (result run) = None
  /\ map Character.id (App.characters (Form.form (result run)))
     = map Character.id (App.characters (Form.form ui))
  /\ (forall text,
         ai params = Resolved (Some text) ->
         App.error (Form.form (result run)) = None
         /\ App.characters (Form.form (result run))
            = map (fun c' => if JsString.eqb (Character.id c') id
                             then Form.updateCharacter Form.imageTouch (trim text) c'
                             else c')
                  (App.characters (Form.form ui)))
  /\ ((forall text, ai params <> Resolved (Some text)) ->
      App.characters (Form.form (result run)) = App.characters (Form.form ui)
      /\ App.error (Form.form (result run))
         = Some (lit "Failed to generate image touch suggestion.")).
Proof.
  intros Hf Hn Hp. cbv zeta. unfold Form.handleImageTouchSuggestion. rewrite Hf.
  apply falsy_nil' in Hn. apply falsy_nil' in Hp. rewrite Hn, Hp. cbn [orb].
  unfold calls, result, bind, ret.
  unfold Suggestions.generateImageTouchSuggestion, generateContent, bind, ret.
  cbn [fst snd app]. split; [reflexivity|]. split; [reflexivity|].
  destruct (ai _) as [[text|]|e] eqn:Hai; cbn [Suggestions.readText Form.form];
    (split; [try reflexivity; rewrite handleCharacterChange_ids; reflexivity|]);
    split;
    try (intros t [= <-]; split; reflexivity);
    try (intros t F; discriminate F);
    try (intros F; exfalso; exact (F text eq_refl));
    try (intros _; split; reflexivity).
Qed.

Lemma handleImageTouchSuggestion_outcome_witness :
  nth_error
    (App.characters (Form.form (result
       (Form.handleImageTouchSuggestion englishSuggestionText en
          (answering (lit " A raised eyebrow. ")) (lit "char-2") (themedUi [])))))
    1
  = Some {| Character.id := lit "char-2"; Character.name := lit "Bob";
            Character.persona := lit "a mechanic";
            Character.imageTouch := Some (lit "A raised eyebrow.") |}.
Proof.
  destruct (handleImageTouchSuggestion_outcome englishSuggestionText en
              (answering (lit " A raised eyebrow. ")) (lit "char-2") (themedUi [])
              (blankCharacter (lit "char-2") (lit "Bob") (lit "a mechanic")))
    as (_ & _ & _ & H & _);
    [reflexivity | discriminate | discriminate |].
  destruct (H (lit " A raised eyebrow. ") eq_refl) as (_ & ->). reflexivity.
Defined.

(* ================================================================== *)
(** * From a rejected call to the alert *)

Lemma lex_string_body (m rest acc : jsstring) (start pos : N) :
  forallb plainChar m = true ->
  Json.lex (Json.LString start acc) pos (m ++ 34%N :: rest)
  = (start, Json.TString (rev acc ++ m))
      :: Json.lex Json.LIdle (pos + N.of_nat (List.length m) + 1)%N rest.
Proof.
  revert acc pos. induction m as [|c m IH]; intros acc pos H.
  - cbn [app Json.lex Json.lexStep N.eqb Pos.eqb List.length N.of_nat].
    rewrite app_nil_r, N.add_0_r. reflexivity.
  - cbn [forallb] in H. apply andb_true_iff in H. destruct H as (Hc & H).
    unfold plainChar in Hc. rewrite !andb_true_iff, !negb_true_iff in Hc.
    destruct Hc as ((Hq & Hb) & Hl).
    cbn [app Json.lex Json.lexStep]. rewrite Hq, Hb, Hl. cbn [app].
    rewrite IH by assumption. cbn [rev List.length]. rewrite <- app_assoc.
    cbn [app]. do 3 f_equal. lia.
Qed.

Lemma errorBody_split (m : jsstring) :
  errorBody m = errorBodyOpening ++ m ++ 34%N :: lit "}}".
Proof.
  unfold errorBody, quoted, template. cbn [List.concat].
  rewrite <- ?app_assoc. reflexivity.
Qed.

(** [JSON.parse] reads an error body with a plain message. *)
Lemma parse_errorBody (m : jsstring) :
  forallb plainChar m = true ->
  Json.parse (errorBody m)
  = inl (Json.JObject
           [ (lit "error", Json.JObject [ (lit "message", Json.JString m) ]) ]).
Proof.
  intros H. rewrite errorBody_split. unfold Json.parse, errorBodyOpening.
  cbn. rewrite lex_string_body by assumption. reflexivity.
Qed.

(** X24.  When the call of a submission is rejected with an [Error] whose
    message is the body [{"error":{"message":"m"}}], for any non-empty
    message [m] without quotation marks, reverse solidi or control
    characters, the error of the form is "Gemini API Error: " followed by
    the body, and the alert shows the localised prefix, ": " and [m]. *)
Theorem rejected_submission_display
        (T : UiText) (st : App.State) (request : PromptRequest) (m : jsstring) :
  App.buildRequest st = Some request ->
  m <> [] ->
  forallb plainChar m = true ->
  let st' := result (App.handleSubmit T (rejecting (errorBody m)) st) in
  App.error st' = Some (lit "Gemini API Error: " ++ errorBody m)
  /\ App.generatedPrompt st' = None
  /\ App.prettyErrorMessage T (App.error st')
     = Some (geminiErrorPrefix T ++ lit ": " ++ m).
Proof.
  intros Hb Hm Hp. cbv zeta.
  assert (E : App.error (result (App.handleSubmit T (rejecting (errorBody m)) st))
              = Some (lit "Gemini API Error: " ++ errorBody m)).
  { unfold App.handleSubmit. rewrite Hb. reflexivity. }
  split; [exact E|]. split.
  - unfold App.handleSubmit. rewrite Hb. reflexivity.
  - rewrite E. change (lit "Gemini API Error: ") with App.apiErrorPrefix.
    rewrite prettyErrorMessage_marked, parse_errorBody by assumption.
    cbn [Json.getOpt Json.lookup JsString.eqb N.eqb Pos.eqb andb lit map
         list_ascii_of_string N_of_ascii N_of_digits].
    cbn. destruct m as [|c m]; [congruence|]. cbn.
    unfold template. cbn [List.concat]. now rewrite app_nil_r.
Qed.

Lemma rejected_submission_display_witness :
  App.prettyErrorMessage englishText
    (App.error (result (App.handleSubmit englishText
                          (rejecting (errorBody (lit "Resource exhausted (429)")))
                          emptyNarrationForm)))
  = Some (lit "Gemini API error: Resource exhausted (429)").
Proof.
  apply (rejected_submission_display englishText emptyNarrationForm
           (Narration {| NarrationRequest.scenario := [];
                         NarrationRequest.persona := [];
                         NarrationRequest.emotion := [];
                         NarrationRequest.tone := [];
                         NarrationRequest.environment := [];
                         NarrationRequest.duration := Some [] |})
           (lit "Resource exhausted (429)"));
    [reflexivity | discriminate | reflexivity].
Defined.

(* ================================================================== *)
(** * The output viewer *)







